(** * coastlib: extreme value analysis

    A shallow embedding of the extreme value analysis classes of coastlib,
    [coastlib/core/data_analysis_tools.py] (class [EVA]: construction,
    [get_extremes], [pot_residuals], [empirical_threshold],
    [par_stab_plot] up to the plot, [fit]; class [DelSepData]: the reading
    of the lines in [__init__], [gen_index]) and
    [coastlib/stats/extreme.py] (class [EVA]: construction,
    [number_of_blocks]), with the properties of the specification, and
    further properties of the code, stated and proved over it.

    Conventions of the embedding.
    - A timestamp is an integer number of microseconds since
      1970-01-01T00:00 (the resolution of [datetime.datetime]); the calendar
      year of a timestamp is computed by [year_of].
    - A finite double is represented by the rational number it denotes;
      [NaN] is a separate constructor; infinities are outside the model.
      The operations on doubles are rounded to the nearest double ([b64])
      where the code computes return periods, the run length of the
      declustering, the thresholds of the threshold search, the excesses
      passed to [fit] and the hours of a [DelSepData] row.  The residuals,
      sums, means and deviations of the diagnostics and the return values
      of [fit] are exact rational or real arithmetic: there the rounding of
      the double operations is not modelled.
    - The services of scipy and numpy are fields of the records
      [Core.scipy] and [Core.numpy]; those of scipy are functions, that
      is, they are taken to return on every input.
    - pandas objects live in a store, and Python variables hold references
      into it, so that in-place updates are seen through every alias.
    - Exceptions are values of type [exn]; a method is a function from the
      state to an outcome and the state reached. *)

From Stdlib Require Import ZArith QArith Qround Qabs Qpower List String Ascii.
From Stdlib Require Import Bool Lia Permutation Sorted Reals Lra Wf_nat.
From Stdlib Require Lqa.
From stdpp Require Import gmap strings.
Import ListNotations.

Open Scope Z_scope.

(** ** Timestamps *)

Abbreviation time := Z.

Definition us_per_hour : Z := 3600000000.
Definition us_per_day : Z := 24 * us_per_hour.

(** Day number (days since 1970-01-01) of a date of the proleptic Gregorian
    calendar, and back. *)
Definition days_from_civil (y m d : Z) : Z :=
  let y' := if m <=? 2 then y - 1 else y in
  let era := y' / 400 in
  let yoe := y' - era * 400 in
  let mp := if 2 <? m then m - 3 else m + 9 in
  let doy := (153 * mp + 2) / 5 + d - 1 in
  let doe := yoe * 365 + yoe / 4 - yoe / 100 + doy in
  era * 146097 + doe - 719468.

Definition civil_from_days (z0 : Z) : Z * Z * Z :=
  let z := z0 + 719468 in
  let era := z / 146097 in
  let doe := z - era * 146097 in
  let yoe := (doe - doe / 1460 + doe / 36524 - doe / 146096) / 365 in
  let y := yoe + era * 400 in
  let doy := doe - (365 * yoe + yoe / 4 - yoe / 100) in
  let mp := (5 * doy + 2) / 153 in
  let d := doy - (153 * mp + 2) / 5 + 1 in
  let m := if mp <? 10 then mp + 3 else mp - 9 in
  (if m <=? 2 then y + 1 else y, m, d).

(** [datetime.datetime(year, month, day, hour)] *)
Definition datetime (y m d h : Z) : time :=
  days_from_civil y m d * us_per_day + h * us_per_hour.

(** [index.year] *)
Definition year_of (t : time) : Z :=
  let '(y, _, _) := civil_from_days (t / us_per_day) in y.

(** ** Values *)

(** A double: finite (the rational it denotes) or NaN. *)
Inductive float64 : Type :=
| Fin (q : Q)
| NaN.

(** A cell of the value column: a double, or some other Python object on
    which [float()] raises (None, a non-numeric string), kept by its text. *)
Inductive cell : Type :=
| Num (x : float64)
| Obj (repr : string).

(** One row per sample: index (timestamp) and the value column. *)
Abbreviation frame := (list (time * cell)).

(** A keyword-argument value. *)
Inductive pyval : Type :=
| PNum (q : Q)
| PBool (b : bool)
| PStr (s : string).

(** [**kwargs]: keys in the order they were passed. *)
Definition kwargs : Type := list (string * pyval).

(** ** Exceptions and outcomes *)

Inductive exn : Type :=
| ValueError (msg : string)
| NotImplementedError (msg : string)
| AssertionError (msg : string)
| TypeError (msg : string)
| IndexError
| ZeroDivisionError
| NameError (name : string)
| OverflowError.

(** What a call does: return, raise, or (for the one loop that need not
    end) still run when the bound given to the model is used up. *)
Inductive outcome (A : Type) : Type :=
| Ret (a : A)
| Raise (e : exn)
| Unfinished.
Arguments Ret {A} a.
Arguments Raise {A} e.
Arguments Unfinished {A}.

Definition is_ValueError {A} (o : outcome A) : bool :=
  match o with Raise (ValueError _) => true | _ => false end.

Definition is_NotImplementedError {A} (o : outcome A) : bool :=
  match o with Raise (NotImplementedError _) => true | _ => false end.

(** ** Generic list helpers standing for numpy and pandas primitives *)

Section Sorting.
Context {A : Type} (leb : A -> A -> bool).

Fixpoint insert_sorted (x : A) (l : list A) : list A :=
  match l with
  | [] => [x]
  | y :: l' => if leb x y then x :: l else y :: insert_sorted x l'
  end.

(** Ascending sort.  The default sort of numpy and pandas (quicksort) does
    not promise an order among equal keys; this one keeps them in their
    input order. *)
Fixpoint sort_by (l : list A) : list A :=
  match l with
  | [] => []
  | x :: l' => insert_sorted x (sort_by l')
  end.
End Sorting.

Definition Qltb (x y : Q) : bool := negb (Qle_bool y x).

Fixpoint join (sep : string) (l : list string) : string :=
  match l with
  | [] => EmptyString
  | [s] => s
  | s :: l' => (s ++ sep ++ join sep l')%string
  end.

(** [np.unique] on integers: sorted, without repetitions. *)
Fixpoint dedup_sorted (l : list Z) : list Z :=
  match l with
  | x :: ((y :: _) as l') => if x =? y then dedup_sorted l' else x :: dedup_sorted l'
  | _ => l
  end.

Definition np_unique (l : list Z) : list Z := dedup_sorted (sort_by Z.leb l).

Definition list_max (x : Z) (l : list Z) : Z := fold_left Z.max l x.
Definition list_min (x : Z) (l : list Z) : Z := fold_left Z.min l x.

(** ** The store of pandas objects *)

(** A Python variable bound to a DataFrame or Series holds a reference. *)
Abbreviation store := (gmap positive frame).

(** A new object: a reference the store does not use yet. *)
Definition alloc (fr : frame) (st : store) : positive * store :=
  let l := fresh (dom st) in (l, <[l := fr]> st).

(** What a reference denotes; a dangling one denotes the empty frame. *)
Definition deref (st : store) (l : positive) : frame := default [] (st !! l).

(** ** Double literals and comparisons of the value column *)

(** The doubles written [999.999] and [999.9] in the source. *)
Definition lit_999_999 : Q := 4398042113057489 # 4398046511104.
Definition lit_999_9 : Q := 8795213412905779 # 8796093022208.
Definition lit_999 : Q := 999 # 1.

(** [x != c] on a double: NaN differs from everything. *)
Definition float_ne (x : float64) (c : Q) : bool :=
  match x with
  | Fin q => negb (Qeq_bool q c)
  | NaN => true
  end.

(** [pd.notnull] *)
Definition notnull (x : float64) : bool :=
  match x with Fin _ => true | NaN => false end.

(** The value column as doubles; [None] when a cell is not a number, in
    which case ordering comparisons on the column raise [TypeError]. *)
Fixpoint numeric_column (fr : frame) : option (list (time * float64)) :=
  match fr with
  | [] => Some []
  | (t, Num x) :: fr' =>
      match numeric_column fr' with
      | Some l => Some ((t, x) :: l)
      | None => None
      end
  | (_, Obj _) :: _ => None
  end.

(** Rows whose value satisfies a comparison that NaN never satisfies, with
    the value as the rational it is. *)
Fixpoint select (p : Q -> bool) (l : list (time * float64)) : list (time * Q) :=
  match l with
  | [] => []
  | (t, Fin q) :: l' => if p q then (t, q) :: select p l' else select p l'
  | (_, NaN) :: l' => select p l'
  end.

(** [frame[frame[col] > u]] *)
Definition select_gt (u : Q) (l : list (time * float64)) : list (time * Q) :=
  select (fun q => Qltb u q) l.

(** [frame[frame[col] >= u]] *)
Definition select_ge (u : Q) (l : list (time * float64)) : list (time * Q) :=
  select (fun q => Qle_bool u q) l.

(** ** Keyword arguments *)

Fixpoint lookup_kw (k : string) (kw : kwargs) : option pyval :=
  match kw with
  | [] => None
  | (k', v) :: kw' => if String.eqb k k' then Some v else lookup_kw k kw'
  end.

Definition remove_kw (k : string) (kw : kwargs) : kwargs :=
  List.filter (fun kv => negb (String.eqb k (fst kv))) kw.

(** [kwargs.pop(k, d)] *)
Definition pop (k : string) (d : pyval) (kw : kwargs) : pyval * kwargs :=
  (default d (lookup_kw k kw), remove_kw k kw).

(** The number a value is in arithmetic and comparisons ([bool] is a
    subclass of [int]); a string is not one. *)
Definition as_number (v : pyval) : option Q :=
  match v with
  | PNum q => Some q
  | PBool b => Some (if b then 1 else 0)%Q
  | PStr _ => None
  end.

(** Truth value of an object in [if]. *)
Definition truthy (v : pyval) : bool :=
  match v with
  | PNum q => negb (Qeq_bool q 0)
  | PBool b => b
  | PStr s => negb (String.eqb s "")
  end.

Definition is_str (s : string) (v : pyval) : bool :=
  match v with PStr s' => String.eqb s' s | _ => false end.

(** Rounding to the nearest integer, ties to even. *)
Definition round_half_even (x : Q) : Z :=
  let f := Qfloor x in
  match Qcompare (x - inject_Z f) (1 # 2) with
  | Lt => f
  | Gt => f + 1
  | Eq => if Z.even f then f else f + 1
  end.

(** ** Rounding to a double *)

(** [2 ^ e] for an integer [e]. *)
Definition pow2 (e : Z) : Q := (2 ^ e)%Q.

(** The binary exponent of [x > 0]: the [e] with
    [2 ^ e <= x < 2 ^ (e + 1)]. *)
Definition binary_exponent (x : Q) : Z :=
  let e := Z.log2 (Qnum x) - Z.log2 (Zpos (Qden x)) in
  if Qle_bool (pow2 e) x then e else e - 1.

(** The double nearest to [x], ties to the even significand: 53 binary
    digits, or what is left of them below the smallest normal number.
    There is no infinity: a result beyond the largest double is outside
    the model. *)
Definition b64 (x : Q) : Q :=
  let a := Qabs x in
  if Qeq_bool a 0 then 0%Q
  else
    let e := Z.max (binary_exponent a - 52) (-1074) in
    let y := (inject_Z (round_half_even (a / pow2 e)) * pow2 e)%Q in
    Qred (if Qle_bool 0 x then y else - y).

(** The exponent of the last binary digit that a double near [x] keeps. *)
Definition last_digit (x : Q) : Z := Z.max (binary_exponent x - 52) (-1074).

(** The distance between neighbouring doubles just below 1. *)
Definition ulp : Q := 1 # (2 ^ 53).

(** The four operations on doubles.  A division by zero, which gives an
    infinity or NaN, is outside the model. *)
Definition fadd (x y : Q) : Q := b64 (x + y).
Definition fsub (x y : Q) : Q := b64 (x - y).
Definition fmul (x y : Q) : Q := b64 (x * y).
Definition fdiv (x y : Q) : Q := b64 (x / y).

(** An integer as a double. *)
Definition of_int (n : Z) : Q := b64 (inject_Z n).

(** [int(x)] and [modf]: a double without its fraction, towards zero. *)
Definition truncate (x : Q) : Z := Z.quot (Qnum x) (Zpos (Qden x)).

(** ** [datetime.timedelta] *)

(** The microseconds of [datetime.timedelta(hours=r)]: the whole hours are
    multiplied exactly, the fraction of an hour is multiplied as a double,
    and the sum is rounded to a whole number, ties to even. *)
Definition timedelta_hours (r : Q) : Z :=
  let whole := truncate r in
  let fraction := (r - inject_Z whole)%Q in
  round_half_even (inject_Z (whole * us_per_hour) +
                   fmul (inject_Z us_per_hour) fraction).

(** The largest number of days of a [timedelta], either way. *)
Definition max_delta_days : Z := 999999999.

Definition timedelta_in_range (r : Q) : bool :=
  let days := timedelta_hours r / us_per_day in
  (- max_delta_days <=? days) && (days <=? max_delta_days).

(** [datetime.timedelta(hours=r)]: beyond the range of [timedelta] the
    constructor raises. *)
Definition timedelta (r : Q) : outcome Z :=
  if timedelta_in_range r then Ret (timedelta_hours r)
  else Raise OverflowError.

(** ** [coastlib/stats/extreme.py]: class [EVA] *)

Module Stats.

Record EVA : Type := mkEVA {
  data : positive;      (* self.data: the Series the caller passed *)
  block_size : Q        (* days *)
}.

(** [is_numeric_dtype(data)] *)
Definition is_numeric_dtype (fr : frame) : bool :=
  forallb (fun row => match snd row with Num _ => true | Obj _ => false end) fr.

Definition time_leb (a b : time * cell) : bool := fst a <=? fst b.

Definition isna (c : cell) : bool :=
  match c with Num NaN => true | _ => false end.

(** [EVA.__init__(self, data, block_size)]: [data] is the caller's
    reference.  The result is the new object, if the checks pass, and the
    store after the call. *)
Definition init (dat : positive) (block : Q) (st : store)
  : outcome EVA * store :=
  if negb (is_numeric_dtype (deref st dat)) then
    (Raise (TypeError "<data> must be of numeric dtype"), st)
  else
    (* self.data = data; self.data.sort_index(ascending=True, inplace=True) *)
    let st1 := <[dat := sort_by time_leb (deref st dat)]> st in
    let nancount := length (List.filter (fun row => isna (snd row)) (deref st1 dat)) in
    (* if nancount > 0: self.data.dropna(inplace=True) *)
    let st2 :=
      if (0 <? Z.of_nat nancount) then
        <[dat := List.filter (fun row => negb (isna (snd row))) (deref st1 dat)]> st1
      else st1 in
    (Ret (mkEVA dat block), st2).

(** [number_of_blocks]:
    [(index[-1] - index[0]) / pd.to_timedelta(f'{block_size}D')].
    Indexing an empty index raises.  The division of the span (here in
    microseconds) by the duration that pandas reads from the text of the
    block size is the service [span_over_block] of pandas, which raises
    where pandas cannot read the text. *)
Definition number_of_blocks (span_over_block : Z -> Q -> outcome Q)
           (self : EVA) (st : store) : outcome Q :=
  match deref st (data self) with
  | [] => Raise IndexError
  | row :: fr =>
      let first := fst row in
      let last_ := fst (List.last fr row) in
      span_over_block (last_ - first) (block_size self)
  end.

End Stats.

(** ** [coastlib/core/data_analysis_tools.py]: class [EVA] *)

Module Core.

(** [self.extremes]: the initial text, the extracted rows, or the extracted
    rows with their column [T] of return periods. *)
Inductive extremes_t : Type :=
| NoValue
| Peaks (rows : list (time * Q))
| Ranked (rows : list (time * Q * Q)).

(** A row of [self.retvalsum]: return period, return value, and the
    bounds (Lower, Upper) when they were computed. *)
Definition retrow : Type := Q * float64 * option (float64 * float64).

Record EVA : Type := mkEVA {
  data : positive;              (* self.data *)
  N : Z;                        (* self.N: number of years in data *)
  extremes : extremes_t;        (* self.extremes *)
  method : string;              (* self.method *)
  threshold : option Q;         (* self.threshold; None: the initial text *)
  distribution : string;        (* self.distribution *)
  retvalsum : option (list retrow)
}.

Definition no_extremes : string :=
  "NO VALUE! Run the .get_extremes() method first.".
Definition no_fit : string := "NO VALUE! Run the .fit() method first.".

(** *** Construction *)

(** [numbify]: [float(x)], or 999 when that raises. *)
Definition numbify (x : cell) : float64 :=
  match x with
  | Num v => v
  | Obj _ => Fin lit_999
  end.

(** [column != c] and [pd.notnull(column)] row by row.  The column holds
    doubles when they are used. *)
Definition cell_ne (c : cell) (q : Q) : bool :=
  match c with Num x => float_ne x q | Obj _ => true end.

Definition cell_notnull (c : cell) : bool :=
  match c with Num x => notnull x | Obj _ => true end.

(** [self.data = self.data[mask]]: a new frame, to which [self.data] is
    rebound. *)
Definition rebind_filtered (p : cell -> bool) (ls : positive * store)
  : positive * store :=
  alloc (List.filter (fun row => p (snd row)) (deref (snd ls) (fst ls))) (snd ls).

(** [EVA.__init__(self, df, col, handle_nans)] for a DataFrame [df], whose
    column [col] is the value column of the frame. *)
Definition init (df : positive) (handle_nans : bool) (st : store)
  : outcome EVA * store :=
  match np_unique (map (fun row => year_of (fst row)) (deref st df)) with
  | [] => (Raise (ValueError "zero-size array to reduction operation"), st)
  | y :: ys =>
      let n := list_max y ys - list_min y ys + 1 in
      let obj l := mkEVA l n NoValue no_extremes None no_fit None in
      if handle_nans then
        (* self.data[self.col] = self.data[self.col].apply(numbify) *)
        let st1 :=
          <[df := map (fun row => (fst row, Num (numbify (snd row))))
                      (deref st df)]> st in
        let ls1 := rebind_filtered (fun c => cell_ne c lit_999_999) (df, st1) in
        let ls2 := rebind_filtered (fun c => cell_ne c lit_999_9) ls1 in
        let ls3 := rebind_filtered (fun c => cell_ne c lit_999) ls2 in
        let ls4 := rebind_filtered cell_notnull ls3 in
        (Ret (obj (fst ls4)), snd ls4)
      else (Ret (obj df), st)
  end.

(** *** Methods: state and exceptions *)

Definition state : Type := EVA * store.

Definition M (A : Type) : Type := state -> outcome A * state.

Definition ret {A} (a : A) : M A := fun s => (Ret a, s).

Definition raise {A} (e : exn) : M A := fun s => (Raise e, s).

Definition bind {A B} (m : M A) (k : A -> M B) : M B :=
  fun s =>
    match m s with
    | (Ret a, s') => k a s'
    | (Raise e, s') => (Raise e, s')
    | (Unfinished, s') => (Unfinished, s')
    end.

Declare Scope py_scope.
Delimit Scope py_scope with py.
Notation "x <- m ;; k" := (bind m (fun x => k))
  (at level 100, m at next level, right associativity) : py_scope.
Notation "m ;; k" := (bind m (fun _ => k))
  (at level 100, right associativity) : py_scope.
Open Scope py_scope.

Definition get_self : M EVA := fun s => (Ret (fst s), s).

Definition update (f : EVA -> EVA) : M unit :=
  fun s => (Ret tt, (f (fst s), snd s)).

Definition set_extremes (e : extremes_t) : M unit :=
  update (fun o => mkEVA (data o) (N o) e (method o) (threshold o)
                         (distribution o) (retvalsum o)).

Definition set_method (m : string) : M unit :=
  update (fun o => mkEVA (data o) (N o) (extremes o) m (threshold o)
                         (distribution o) (retvalsum o)).

Definition set_threshold (u : Q) : M unit :=
  update (fun o => mkEVA (data o) (N o) (extremes o) (method o) (Some u)
                         (distribution o) (retvalsum o)).

Definition set_distribution (d : string) : M unit :=
  update (fun o => mkEVA (data o) (N o) (extremes o) (method o) (threshold o)
                         d (retvalsum o)).

Definition set_retvalsum (r : list retrow) : M unit :=
  update (fun o => mkEVA (data o) (N o) (extremes o) (method o) (threshold o)
                         (distribution o) (Some r)).

(** [self.data[self.col]] as a column of doubles, for a comparison. *)
Definition column : M (list (time * float64)) :=
  fun s =>
    match numeric_column (deref (snd s) (data (fst s))) with
    | Some l => (Ret l, s)
    | None => (Raise (TypeError "'>' not supported between instances"), s)
    end.

(** [self.data] *)
Definition frame_of_data : M frame :=
  fun s => (Ret (deref (snd s) (data (fst s))), s).

Definition number (v : pyval) : M Q :=
  match as_number v with
  | Some q => ret q
  | None => raise (TypeError "unsupported operand type")
  end.

Definition lift {A} (o : outcome A) : M A := fun s => (o, s).

Definition unrecognized (kw : kwargs) : string :=
  ("unrecognized arguments passed in: " ++ join ", " (map fst kw))%string.

(** [assert len(kwargs) == 0, '...'] *)
Definition assert_empty (kw : kwargs) : M unit :=
  if Nat.eqb (length kw) 0 then ret tt
  else raise (AssertionError (unrecognized kw)).

(** *** [get_extremes] *)

(** The declustering loop.  [cur] is the last retained event
    ([new_indexes[-1]], [new_values[-1]]) and [done] the ones before it. *)
Fixpoint decluster_loop (r : Z) (done : list (time * Q)) (cur : time * Q)
         (l : list (time * Q)) : list (time * Q) :=
  match l with
  | [] => done ++ [cur]
  | e :: l' =>
      if r <=? fst e - fst cur then decluster_loop r (done ++ [cur]) e l'
      else if Qltb (snd cur) (snd e) then decluster_loop r done e l'
      else decluster_loop r done cur l'
  end.

(** The loop starts from [indexes[0]], [values[0]]. *)
Definition decluster (r : Z) (sel : list (time * Q))
  : outcome (list (time * Q)) :=
  match sel with
  | [] => Raise IndexError
  | e :: l => Ret (decluster_loop r [] e l)
  end.

(** pandas counts NaN as a duplicate of NaN. *)
Definition same_value (x y : float64) : bool :=
  match x, y with
  | Fin a, Fin b => Qeq_bool a b
  | NaN, NaN => true
  | _, _ => false
  end.

(** [drop_duplicates(col)]: the first row of each value is kept. *)
Fixpoint drop_duplicates_from (seen : list float64)
         (l : list (time * float64)) : list (time * float64) :=
  match l with
  | [] => []
  | (t, x) :: l' =>
      if existsb (same_value x) seen then drop_duplicates_from seen l'
      else (t, x) :: drop_duplicates_from (x :: seen) l'
  end.

Definition drop_duplicates := drop_duplicates_from [].

(** [column.max()]: NaN is skipped; no finite value gives NaN. *)
Fixpoint column_max (l : list (time * float64)) : float64 :=
  match l with
  | [] => NaN
  | (_, x) :: l' =>
      match x, column_max l' with
      | Fin a, Fin b => Fin (if Qle_bool a b then b else a)
      | Fin a, NaN => Fin a
      | NaN, m => m
      end
  end.

(** The rows of one year, without duplicated values, that equal the
    year's maximum. *)
Definition block_maximum (col : list (time * float64)) (year : Z)
  : list (time * Q) :=
  let x := drop_duplicates
             (List.filter (fun row => year_of (fst row) =? year) col) in
  match column_max x with
  | Fin m => select (fun q => Qeq_bool q m) x
  | NaN => []
  end.

(** [np.arange(n) / n] and [(N + 1) / (n * (1 - cdf))], each operation
    on doubles. *)
Definition cdf (n : nat) : list Q :=
  map (fun i => fdiv (of_int (Z.of_nat i)) (of_int (Z.of_nat n))) (seq 0 n).

Definition return_periods (years : Z) (n : nat) : list Q :=
  map (fun f => fdiv (of_int (years + 1))
                     (fmul (of_int (Z.of_nat n)) (fsub 1 f)))
      (cdf n).

Definition value_leb (a b : time * Q) : bool := Qle_bool (snd a) (snd b).
Definition index_leb (a b : time * Q * Q) : bool :=
  fst (fst a) <=? fst (fst b).

(** Lines 345-349: sort by value, attach [T] by position, sort by index. *)
Definition rank (years : Z) (rows : list (time * Q)) : list (time * Q * Q) :=
  let sorted := sort_by value_leb rows in
  sort_by index_leb (combine sorted (return_periods years (length sorted))).

Definition get_extremes (method_ : string) (kw : kwargs) : M unit :=
  (if String.eqb method_ "POT" then
     set_method "POT" ;;
     let '(u, kw) := pop "u" (PNum 10) kw in
     let '(r, kw) := pop "r" (PNum 24) kw in
     let '(decl, kw) := pop "decluster" (PBool true) kw in
     assert_empty kw ;;
     col <- column ;;
     u <- number u ;;
     set_extremes (Peaks (select_gt u col)) ;;
     (if truthy decl then
        r <- number r ;;
        r <- lift (timedelta r) ;;
        new <- lift (decluster r (select_gt u col)) ;;
        set_extremes (Peaks new)
      else ret tt) ;;
     set_threshold u
   else if String.eqb method_ "BM" then
     set_method "BM" ;;
     let '(block, kw) := pop "block" (PStr "Y") kw in
     assert_empty kw ;;
     fr <- frame_of_data ;;
     let years := np_unique (map (fun row => year_of (fst row)) fr) in
     if is_str "Y" block then
       col <- column ;;
       match years with
       | [] => raise (ValueError "No objects to concatenate")
       | _ => set_extremes (Peaks (concat (map (block_maximum col) years)))
       end
     else if is_str "M" block then
       raise (NotImplementedError "Not yet implemented")
     else if is_str "W" block then
       raise (NotImplementedError "Not yet implemented")
     else raise (ValueError "Unrecognized block size")
   else
     raise (ValueError
              "Unrecognized extremes parsing method. Use POT or BM methods.")) ;;
  self <- get_self ;;
  match extremes self with
  | Peaks rows => set_extremes (Ranked (rank (N self) rows))
  | _ => ret tt
  end.

(** *** [pot_residuals] *)

(** [self.extremes[self.col].values] *)
Definition extreme_values : M (list Q) :=
  self <- get_self ;;
  match extremes self with
  | Ranked rows => ret (map (fun row => snd (fst row)) rows)
  | Peaks rows => ret (map snd rows)
  | NoValue => raise (TypeError "string indices must be integers")
  end.

(** The loop of the declustered branch: one extraction per threshold,
    collecting [self.extremes[self.col].values - u[i]]. *)
Fixpoint residuals_declustered (r : Q) (us : list Q) : M (list (list Q)) :=
  match us with
  | [] => ret []
  | u :: us' =>
      get_extremes "POT" [("u", PNum u); ("r", PNum r);
                          ("decluster", PBool true)]%string ;;
      values <- extreme_values ;;
      rest <- residuals_declustered r us' ;;
      ret (map (fun v => v - u)%Q values :: rest)
  end.

(** The other branch: [self.data[self.data[col] >= u[i]][col] - u[i]]. *)
Definition residuals_raw (col : list (time * float64)) (us : list Q)
  : list (list Q) :=
  map (fun u => map (fun row => snd row - u)%Q (select_ge u col)) us.

Definition Qsum (l : list Q) : Q := fold_left Qplus l 0%Q.

Definition Qlen (l : list Q) : Q := inject_Z (Z.of_nat (length l)).

(** [a.mean()] and the square of [a.std()] (numpy: divisor [len(a)]). *)
Definition mean (a : list Q) : Q := (Qsum a / Qlen a)%Q.

Definition variance (a : list Q) : Q :=
  (Qsum (map (fun x => (x - mean a) * (x - mean a)) a) / Qlen a)%Q.

(** [a.std()] *)
Definition std (a : list Q) : R := sqrt (Q2R (variance a)).

(** [sps.norm.interval(0.95, loc, scale)], given the 0.975 quantile [z] of
    the standard normal distribution. *)
Definition norm_interval95 (z loc scale : R) : R * R :=
  (loc - z * scale, loc + z * scale)%R.

(** [u[u <= m]] when [u.max() > m]; [m] is the maximum of the column. *)
Definition clip (us : list Q) (m : float64) : list Q :=
  match m with
  | Fin m =>
      if existsb (fun u => Qltb m u) us
      then List.filter (fun u => Qle_bool u m) us else us
  | NaN => us
  end.

(** [pot_residuals(self, u, decluster, r)] up to the plot: the values
    plotted, [residuals] and [intervals]. *)
Definition pot_residuals (z : R) (us : list Q) (decl : bool) (r : Q)
  : M (list Q * list (R * R)) :=
  match us with
  | [] => raise (ValueError "zero-size array to reduction operation")
  | _ =>
      col <- column ;;
      let us := clip us (column_max col) in
      res_ex_sum <- (if decl then residuals_declustered r us
                     else ret (residuals_raw col us)) ;;
      if existsb (fun a => Nat.eqb (length a) 0) res_ex_sum then
        raise ZeroDivisionError
      else
        ret (map mean res_ex_sum,
             map (fun a => norm_interval95 z (Q2R (mean a))
                                          (std a / INR (length a))%R)
                 res_ex_sum)
  end.

(** *** [fit] *)

(** The services of scipy.stats and numpy that [fit] calls.  A
    distribution is named as in [scipy.stats]; the random draws of one
    simulation are indexed by the number of the simulation.  Each service
    is a function: it is taken to return on every input, also where scipy
    raises (the fit of an empty sample). *)
Record scipy : Type := {
  (* dist.fit(sample) and dist.fit(sample, floc=...) *)
  fit_mle : string -> list Q -> option Q -> list Q;
  (* dist.ppf(q, param...) *)
  ppf : string -> list Q -> Q -> float64;
  (* dist.rvs(param..., size=n) *)
  rvs : string -> list Q -> Z -> nat -> list Q;
  (* sps.poisson.rvs(mu) *)
  poisson_rvs : Z -> nat -> Z;
  (* sps.norm.fit(x) *)
  norm_fit : list float64 -> float64 * float64;
  (* sps.norm.interval(alpha, loc, scale) *)
  norm_interval : Q -> float64 -> float64 -> float64 * float64;
  (* np.logspace(-1, 3, num=30) *)
  logspace : list Q
}.

(** [np.unique] on doubles. *)
Fixpoint dedup_sortedQ (l : list Q) : list Q :=
  match l with
  | x :: ((y :: _) as l') =>
      if Qeq_bool x y then dedup_sortedQ l' else x :: dedup_sortedQ l'
  | _ => l
  end.

Definition np_uniqueQ (l : list Q) : list Q :=
  dedup_sortedQ (sort_by Qle_bool l).

Definition float_plus (u : Q) (x : float64) : float64 :=
  match x with Fin q => Fin (u + q)%Q | NaN => NaN end.

(** [x > y] on doubles. *)
Definition float_gtb (x y : float64) : bool :=
  match x, y with Fin a, Fin b => Qltb b a | _, _ => false end.

Fixpoint lookup_name {A} (x : string) (scope : list (string * A)) : option A :=
  match scope with
  | [] => None
  | (y, v) :: scope' => if String.eqb x y then Some v else lookup_name x scope'
  end.

(** The names bound at module level. *)
Definition module_names : list string :=
  ["math"; "pd"; "sm"; "np"; "datetime"; "sps"; "scipy"; "curve_fit";
   "stats"; "plt"; "warnings"; "DelSepData"; "joint_probability";
   "associated_value"; "EVA"; "montefit"]%string.

(** [len(self.extremes)] *)
Definition len_extremes (self : EVA) : Z :=
  match extremes self with
  | Ranked rows => Z.of_nat (length rows)
  | Peaks rows => Z.of_nat (length rows)
  | NoValue => Z.of_nat (String.length no_extremes)
  end.

Section Fit.
Variable sps : scipy.

(** The bodies of the nested [ret_val] functions: [dist] is the family
    and [add_u] tells whether the threshold is added. *)
Definition ret_val (dist : string) (add_u : bool)
           (t : Q) (param : list Q) (rate u : Q) : float64 :=
  if Qeq_bool (rate * t) 0 then NaN
  else
    let q := ppf sps dist param (1 - 1 / (rate * t))%Q in
    if add_u then float_plus u q else q.

(** [self.extremes[self.col].values - self.threshold] *)
Definition excesses : M (list Q) :=
  values <- extreme_values ;;
  self <- get_self ;;
  match threshold self with
  | Some u => ret (map (fun v => fsub v u) values)
  | None => raise (TypeError "unsupported operand type(s) for -")
  end.

Definition fitted (dist : string) (add_u : bool) (sample : list Q)
  : M (string * bool * list Q) :=
  ret (dist, add_u, fit_mle sps dist sample None).

(** Lines 543-579: the family, its [ret_val] and the fitted
    [parameters]. *)
Definition select_family (distribution_ : string)
  : M (string * bool * list Q) :=
  self <- get_self ;;
  if String.eqb distribution_ "GPD" then
    if String.eqb (method self) "POT" then
      sample <- excesses ;; fitted "genpareto" true sample
    else
      sample <- extreme_values ;; fitted "genpareto" false sample
  else if String.eqb distribution_ "GEV" then
    if negb (String.eqb (method self) "BM") then
      raise (ValueError
               "GEV distribution is applicable only with the BM method")
    else sample <- extreme_values ;; fitted "genextreme" false sample
  else if String.eqb distribution_ "Gumbel" then
    if negb (String.eqb (method self) "BM") then
      raise (ValueError
               "Gumbel distribution is applicable only with the BM method")
    else sample <- excesses ;; fitted "gumbel_r" true sample
  else if String.eqb distribution_ "Weibull" then
    sample <- excesses ;; fitted "weibull_min" true sample
  else if String.eqb distribution_ "Log-normal" then
    sample <- excesses ;; fitted "lognorm" true sample
  else if String.eqb distribution_ "Pearson 3" then
    sample <- excesses ;; fitted "pearson3" true sample
  else raise (ValueError "Distribution type not recognized.").

(** Line 582 *)
Definition return_period_grid : list Q :=
  np_uniqueQ (logspace sps ++
              map inject_Z [2; 5; 10; 25; 50; 100; 200; 500]).

(** The nested [montefit] of the GPD branch; [i] numbers the calls and
    [sims] is the variable of that name. *)
Definition montefit_GPD (add_u : bool) (parameters rp : list Q)
           (lex years : Z) (u : Q) (i : nat) (sims : Z)
  : outcome (list float64) :=
  let loc_lex := poisson_rvs sps lex i in
  let sample := rvs sps "genpareto" parameters loc_lex i in
  let loc_rate := (inject_Z loc_lex / inject_Z years)%Q in
  let loc_param :=
    fit_mle sps "genpareto" sample (Some (nth 1 parameters 0%Q)) in
  Ret (map (fun t => ret_val "genpareto" add_u t loc_param loc_rate u) rp).

(** The names bound in the body of [fit] while [montefit] runs, those
    bound to an integer with it, and after them the module's. *)
Definition names_in_scope (k lex sims : Z) : list (string * option Z) :=
  [("self", None); ("distribution", None); ("confidence", None);
   ("k", Some k); ("trunc", None); ("ret_val", None);
   ("parameters", None); ("rp", None); ("rate", None); ("rv", None);
   ("lex", Some lex); ("montefit", None); ("sims", Some sims);
   ("mrv", None); ("uplims", None); ("x", None)]%string
  ++ map (fun x => (x, None)) module_names.

(** The nested [montefit] of the GEV branch: its sample size is the
    value of the name [ex]. *)
Definition montefit_GEV (parameters rp : list Q) (k lex years : Z)
           (u : Q) (i : nat) (sims : Z) : outcome (list float64) :=
  match lookup_name "ex" (names_in_scope k lex sims) with
  | None => Raise (NameError "ex")
  | Some None => Raise (TypeError "size must be an integer")
  | Some (Some ex) =>
      let sample := rvs sps "genextreme" parameters ex i in
      let loc_rate := (inject_Z lex / inject_Z years)%Q in
      let loc_param :=
        fit_mle sps "genextreme" sample (Some (nth 1 parameters 0%Q)) in
      Ret (map (fun t => ret_val "genextreme" false t loc_param loc_rate u)
               rp)
  end.

(** [while sims < k: mrv += [montefit()]; sims += 1] *)
Fixpoint simulate (montefit : nat -> Z -> outcome (list float64))
         (todo : nat) (i : nat) : outcome (list (list float64)) :=
  match todo with
  | O => Ret []
  | S todo' =>
      match montefit i (Z.of_nat i) with
      | Ret x =>
          match simulate montefit todo' (S i) with
          | Ret mrv => Ret (x :: mrv)
          | o => o
          end
      | Raise e => Raise e
      | Unfinished => Unfinished
      end
  end.

(** [(x > uplims).sum() == 0] *)
Fixpoint within (x uplims : list float64) : bool :=
  match x, uplims with
  | a :: x', b :: uplims' => negb (float_gtb a b) && within x' uplims'
  | _, _ => true
  end.

(** The loop with truncation, which keeps a simulation only when it is
    [within] the limits.  [fuel] bounds the number of calls of
    [montefit]; [sims] counts the simulations kept, of [k]. *)
Fixpoint simulate_trunc (montefit : nat -> Z -> outcome (list float64))
         (uplims : list float64) (k : Z) (fuel : nat) (i : nat) (sims : Z)
  : outcome (list (list float64)) :=
  if sims <? k then
    match fuel with
    | O => Unfinished
    | S fuel' =>
        match montefit i sims with
        | Ret x =>
            if within x uplims then
              match simulate_trunc montefit uplims k fuel' (S i) (sims + 1) with
              | Ret mrv => Ret (x :: mrv)
              | o => o
              end
            else simulate_trunc montefit uplims k fuel' (S i) sims
        | Raise e => Raise e
        | Unfinished => Unfinished
        end
    end
  else Ret [].

Definition with_bounds (rows : list retrow)
           (intervals : list (float64 * float64)) : list retrow :=
  map (fun ri => (fst (fst ri), Some (snd ri))) (combine rows intervals).

(** A row that [dropna] keeps. *)
Definition complete (row : retrow) : bool :=
  notnull (snd (fst row)) &&
  match snd row with
  | Some (lo, up) => notnull lo && notnull up
  | None => true
  end.

(** [fit(self, distribution, confidence, k, trunc)].  [fuel] bounds the
    number of simulations tried when [trunc] is set. *)
Definition fit (distribution_ : string) (confidence : bool) (k : Z)
           (trunc : bool) (fuel : nat) : M unit :=
  set_distribution distribution_ ;;
  family <- select_family distribution_ ;;
  let '(dist, add_u, parameters) := family in
  self <- get_self ;;
  let u := default 0%Q (threshold self) in
  let rp := return_period_grid in
  let rate := (inject_Z (len_extremes self) / inject_Z (N self))%Q in
  let rv := map (fun t => ret_val dist add_u t parameters rate u) rp in
  let rows := map (fun tv => (tv, None)) (combine rp rv) in
  set_retvalsum rows ;;
  (if confidence then
     let lex := len_extremes self in
     montefit <-
       (if String.eqb distribution_ "GPD" then
          ret (montefit_GPD add_u parameters rp lex (N self) u)
        else if String.eqb distribution_ "GEV" then
          ret (montefit_GEV parameters rp k lex (N self) u)
        else
          raise (ValueError
            "Monte Carlo method not defined for this distribution yet.")) ;;
     mrv <-
       lift (if trunc then
               let uplims :=
                 map (fun t => ret_val dist add_u (inject_Z k * t)%Q
                                       parameters rate u) rp in
               simulate_trunc montefit uplims k fuel 0 0
             else simulate montefit (Z.to_nat k) 0) ;;
     let mrv_pivot :=
       map (fun j => map (fun x => nth j x NaN) mrv) (seq 0 (length rp)) in
     let moments := map (norm_fit sps) mrv_pivot in
     let intervals :=
       map (fun m => norm_interval sps (95 # 100) (fst m) (snd m)) moments in
     set_retvalsum (with_bounds rows intervals)
   else ret tt) ;;
  self <- get_self ;;
  set_retvalsum (List.filter complete (default [] (retvalsum self))).
End Fit.

(** *** [empirical_threshold] *)

(** The services of numpy that [empirical_threshold] calls. *)
Record numpy : Type := {
  (* np.percentile(values, q) *)
  percentile : list cell -> Q -> outcome float64;
  (* int((n ** (2 / 3)) / np.log(np.log(n))) *)
  log_rule : nat -> outcome Z
}.

(** [while len(self.extremes) > k: u += step; self.get_extremes(...)],
    the sum being that of doubles.  [fuel] bounds the number of passes
    through the loop. *)
Fixpoint raise_threshold (decl : bool) (r step : Q) (k : Z) (fuel : nat)
         (u : Q) : M Q :=
  self <- get_self ;;
  if k <? len_extremes self then
    match fuel with
    | O => lift Unfinished
    | S fuel' =>
        let u := fadd u step in
        get_extremes "POT" [("u", PNum u); ("r", PNum r);
                            ("decluster", PBool decl)]%string ;;
        raise_threshold decl r step k fuel' u
    end
  else ret u.

(** One search: the extraction at [u_start], then the loop. *)
Definition threshold_search (decl : bool) (r step : Q) (k : Z) (fuel : nat)
           (u_start : Q) : M Q :=
  get_extremes "POT" [("u", PNum u_start); ("r", PNum r);
                      ("decluster", PBool decl)]%string ;;
  raise_threshold decl r step k fuel u_start.

Section Thresholds.
Variable np : numpy.

(** [empirical_threshold(self, decluster, r, u_step, u_start)]: the column
    of the table returned.  With declustering the first loop adds
    [u_start], not [u_step], to the threshold (line 434).  [fuel] bounds
    the passes of each loop. *)
Definition empirical_threshold (decl : bool) (r u_step u_start : Q)
           (fuel : nat) : M (list float64) :=
  fr <- frame_of_data ;;
  p90 <- lift (percentile np (map snd fr) 90) ;;
  let k := Z.sqrt (Z.of_nat (length fr)) in
  u1 <- threshold_search decl r (if decl then u_start else u_step) k fuel
                         u_start ;;
  k <- lift (log_rule np (length fr)) ;;
  u2 <- threshold_search decl r u_step k fuel u_start ;;
  ret [p90; Fin u1; Fin u2].
End Thresholds.

(** *** [par_stab_plot] *)

Section Stability.
Variable sps : scipy.

(** The loop over the thresholds: one extraction and one fit of the
    excesses each. *)
Fixpoint stability_fits (decl : bool) (r : Q) (us : list Q)
  : M (list (list Q)) :=
  match us with
  | [] => ret []
  | tres :: us' =>
      get_extremes "POT" [("u", PNum tres); ("r", PNum r);
                          ("decluster", PBool decl)]%string ;;
      values <- extreme_values ;;
      let fit := fit_mle sps "genpareto" (map (fun v => v - tres)%Q values)
                         None in
      rest <- stability_fits decl r us' ;;
      ret (fit :: rest)
  end.

(** [par_stab_plot(self, u, distribution, decluster, r)] up to the plot:
    the shapes and scales plotted, or nothing when the method only prints
    that the distribution is not implemented. *)
Definition par_stab_plot (us : list Q) (distribution_ : string)
           (decl : bool) (r : Q) : M (option (list Q * list Q)) :=
  match us with
  | [] => raise (ValueError "zero-size array to reduction operation")
  | _ =>
      col <- column ;;
      let us := clip us (column_max col) in
      if String.eqb distribution_ "GPD" then
        fits <- stability_fits decl r us ;;
        ret (Some (map (fun x => nth 0 x 0%Q) fits,
                   map (fun x => nth 2 x 0%Q) fits))
      else ret None
  end.
End Stability.

End Core.

(** ** [coastlib/core/data_analysis_tools.py]: class [DelSepData] *)

Module DelSep.

(** An index label: the position of the row (the index a new frame has) or
    a timestamp. *)
Inductive label : Type :=
| Position (i : nat)
| Stamp (t : time).

(** [self.data]: the columns, by label, and the index; each column is as
    long as the index.  Every cell is as [__init__] leaves it: a number,
    NaN, or a text that [float()] rejected. *)
Record DataFrame : Type := mkFrame {
  columns : list (string * list cell);
  index : list label
}.

Inductive error : Type :=
| ValueError (msg : string)
| KeyError (key : pyval)
| TypeError (msg : string)
| IndexError
| UnboundLocalError (name : string)
| OverflowError.

Inductive result (A : Type) : Type :=
| Ok (a : A)
| Err (e : error).
Arguments Ok {A} a.
Arguments Err {A} e.

Definition and_then {A B} (r : result A) (k : A -> result B) : result B :=
  match r with
  | Ok a => k a
  | Err e => Err e
  end.

(** A list comprehension whose body can raise. *)
Fixpoint for_each {A B} (f : A -> result B) (l : list A) : result (list B) :=
  match l with
  | [] => Ok []
  | x :: l' =>
      and_then (f x) (fun y =>
      and_then (for_each f l') (fun ys => Ok (y :: ys)))
  end.

(** *** [str] and [int] on integers *)

Definition digit_char (d : Z) : ascii :=
  ascii_of_nat (48 + Z.to_nat d).

(** The decimal digits of [n >= 0] before [acc]; [bound] is at least
    [n]. *)
Fixpoint digits (bound : positive) (n : Z) (acc : string) : string :=
  let acc := String (digit_char (n mod 10)) acc in
  if n <? 10 then acc
  else
    match bound with
    | xH => acc
    | xO b | xI b => digits b (n / 10) acc
    end.

(** [str(n)] for an integer. *)
Definition str (n : Z) : string :=
  match n with
  | Z0 => "0"
  | Zpos p => digits p n EmptyString
  | Zneg p => String "-" (digits p (Zpos p) EmptyString)
  end.

Definition is_digit (c : ascii) : bool :=
  let n := nat_of_ascii c in (48 <=? n)%nat && (n <=? 57)%nat.

Fixpoint all_digits (s : string) : bool :=
  match s with
  | EmptyString => true
  | String c s' => is_digit c && all_digits s'
  end.

Fixpoint value_of (acc : Z) (s : string) : Z :=
  match s with
  | EmptyString => acc
  | String c s' => value_of (acc * 10 + Z.of_nat (nat_of_ascii c - 48)) s'
  end.

(** The text that Python shows for a string in the messages below. *)
Definition quoted (s : string) : string := ("'" ++ s ++ "'")%string.

(** [int(s)] for a text made of digits, with or without a leading minus
    sign; any other text of such characters is rejected. *)
Definition int_of_str (s : string) : result Z :=
  let bad :=
    Err (ValueError ("invalid literal for int() with base 10: " ++ quoted s)) in
  match s with
  | EmptyString => bad
  | String c s' =>
      if Ascii.eqb c "-" then
        match s' with
        | EmptyString => bad
        | _ => if all_digits s' then Ok (- value_of 0 s') else bad
        end
      else if all_digits s then Ok (value_of 0 s) else bad
  end.

(** [int(x)] for a cell: a number is truncated towards zero. *)
Definition int_of_cell (c : cell) : result Z :=
  match c with
  | Num (Fin q) => Ok (Z.quot (Qnum q) (Zpos (Qden q)))
  | Num NaN => Err (ValueError "cannot convert float NaN to integer")
  | Obj s =>
      Err (ValueError ("invalid literal for int() with base 10: " ++ quoted s))
  end.

(** *** Columns *)

Definition named (key : string) (c : string * list cell) : bool :=
  String.eqb key (fst c).

(** [self.data[key].values], as the sequence that a comprehension walks.
    A label that several columns bear selects a two-dimensional array,
    whose rows [int()] rejects. *)
Definition values (key : pyval) (df : DataFrame) : result (list cell) :=
  match key with
  | PStr k =>
      match List.filter (named k) (columns df) with
      | [] => Err (KeyError key)
      | [c] => Ok (snd c)
      | _ =>
          match index df with
          | [] => Ok []
          | _ => Err (TypeError "only length-1 arrays can be converted")
          end
      end
  | _ => Err (KeyError key)
  end.

(** [del self.data[key]] *)
Definition delete (key : pyval) (df : DataFrame) : result DataFrame :=
  match key with
  | PStr k =>
      if existsb (named k) (columns df) then
        Ok (mkFrame (List.filter (fun c => negb (named k c)) (columns df))
                    (index df))
      else Err (KeyError key)
  | _ => Err (KeyError key)
  end.

(** *** [datetime.datetime] *)

Definition us_per_minute : Z := 60000000.

Definition is_leap (y : Z) : bool :=
  (y mod 4 =? 0) && (negb (y mod 100 =? 0) || (y mod 400 =? 0)).

Definition days_in_month (y m : Z) : Z :=
  if m =? 2 then (if is_leap y then 29 else 28)
  else if (m =? 4) || (m =? 6) || (m =? 9) || (m =? 11) then 30
  else 31.

(** An integer that a C int holds. *)
Definition c_int (n : Z) : bool := (- 2 ^ 31 <=? n) && (n <? 2 ^ 31).

(** [datetime.datetime(year, month, day, hour, minute)]: the arguments
    are read as C ints, then checked in turn. *)
Definition datetime_of (y m d h mi : Z) : result time :=
  if negb (forallb c_int [y; m; d; h; mi]) then Err OverflowError
  else if negb ((1 <=? y) && (y <=? 9999)) then
    Err (ValueError "year is out of range")
  else if negb ((1 <=? m) && (m <=? 12)) then
    Err (ValueError "month must be in 1..12")
  else if negb ((1 <=? d) && (d <=? days_in_month y m)) then
    Err (ValueError "day is out of range for month")
  else if negb ((0 <=? h) && (h <=? 23)) then
    Err (ValueError "hour must be in 0..23")
  else if negb ((0 <=? mi) && (mi <=? 59)) then
    Err (ValueError "minute must be in 0..59")
  else Ok (datetime y m d h + mi * us_per_minute).

(** *** [__init__]: reading the file *)

(** [s.split(sep)] for a separator that is not empty: [piece] is the part
    of the current piece already read, and [skip] the number of characters
    of a separator still to pass. *)
Fixpoint split_from (sep : string) (skip : nat) (piece : string) (s : string)
  : list string :=
  match s with
  | EmptyString => [piece]
  | String c s' =>
      match skip with
      | S k => split_from sep k piece s'
      | O =>
          if String.prefix sep s
          then piece :: split_from sep (String.length sep - 1) EmptyString s'
          else split_from sep 0 (piece ++ String c EmptyString) s'
      end
  end.

Definition split (sep s : string) : list string :=
  split_from sep 0 EmptyString s.

(** [s.replace(' ', '')] *)
Fixpoint remove_spaces (s : string) : string :=
  match s with
  | EmptyString => EmptyString
  | String c s' =>
      if Ascii.eqb c " " then remove_spaces s' else String c (remove_spaces s')
  end.

Section Reading.
(** [float(s)]: the double that a text denotes, if it denotes one. *)
Variable float : string -> option float64.

(** Lines 47 to 55: what a piece of a line becomes. *)
Definition parse_cell (s : string) : cell :=
  let t := remove_spaces s in
  match float t with
  | Some x => Num x
  | None => if String.eqb t EmptyString then Num NaN else Obj t
  end.

(** Lines 35 to 56 of [__init__]: the labels and the rows with which the
    frame is built, from the lines of the file.  [labels] is bound only
    for the two label delimiters that the code knows. *)
Definition read_table (lines : list string)
           (delimeter label_delimeter : string) (void_rows : Z)
  : result (list string * list (list cell)) :=
  match lines, delimeter with
  | _ :: _, EmptyString => Err (ValueError "empty separator")
  | _, _ =>
      let data := map (split delimeter) lines in
      let data :=
        if 0 <? void_rows then skipn (Z.to_nat void_rows) data else data in
      match data with
      | [] => Err IndexError
      | first :: data =>
          let labels :=
            if String.eqb label_delimeter " " then
              Some (removelast
                      (List.filter
                         (fun var => (0 <? String.length var)%nat)
                         (split " " (hd EmptyString first))))
            else if String.eqb label_delimeter "," then
              Some (removelast first)
            else None in
          let rows := map (fun row => map parse_cell (removelast row)) data in
          match labels with
          | Some labels => Ok (labels, rows)
          | None => Err (UnboundLocalError "labels")
          end
      end
  end.
End Reading.

(** *** [gen_index] *)

(** The fields of one row: year, month, day, hour, minute. *)
Definition fields : Type := Z * Z * Z * Z * Z.

(** [int(n / 100)] for an integer [n]: the quotient is a double. *)
Definition hundreds (n : Z) : Z := truncate (b64 (inject_Z n / 100)).

(** Lines 84 to 90: the comprehensions, in their order. *)
Definition read_fields (yyyymmdd hhmm : pyval) (df : DataFrame)
  : result (list fields) :=
  and_then (values yyyymmdd df) (fun date_cells =>
  and_then (for_each (fun i => and_then (int_of_cell i)
                                        (fun n => Ok (str n))) date_cells)
           (fun dates =>
  and_then (values hhmm df) (fun time_cells =>
  and_then (for_each (fun i => and_then (int_of_cell i)
                                        (fun n => Ok (str n))) time_cells)
           (fun times =>
  and_then (for_each (fun i => int_of_str (substring 0 4 i)) dates)
           (fun years =>
  and_then (for_each (fun i => int_of_str (substring 4 2 i)) dates)
           (fun months =>
  and_then (for_each (fun i => int_of_str (substring 6 2 i)) dates)
           (fun days =>
  and_then (for_each (fun i => and_then (int_of_str i)
                                        (fun n => Ok (n mod 100))) times)
           (fun minutes =>
  and_then (for_each (fun i => and_then (int_of_str i)
                                        (fun n => Ok (hundreds n))) times)
           (fun hours =>
  Ok (combine (combine (combine (combine years months) days) hours)
              minutes)))))))))).

(** [gen_index(self, date_type, **kwargs)]: what the call does and the
    frame it leaves in [self.data]. *)
Definition gen_index (date_type : string) (kw : kwargs) (df : DataFrame)
  : result unit * DataFrame :=
  if String.eqb date_type "yyyymmdd_hhmm" then
    let '(yyyymmdd, kw) := pop "yyyymmdd" (PStr "Date") kw in
    let '(hhmm, kw) := pop "hhmm" (PStr "HrMn") kw in
    match read_fields yyyymmdd hhmm df with
    | Err e => (Err e, df)
    | Ok rows =>
        match delete yyyymmdd df with
        | Err e => (Err e, df)
        | Ok df1 =>
            match delete hhmm df1 with
            | Err e => (Err e, df1)
            | Ok df2 =>
                let stamp (f : fields) :=
                  let '(y, m, d, h, mi) := f in datetime_of y m d h mi in
                match for_each stamp (firstn (length (index df2)) rows) with
                | Err e => (Err e, df2)
                | Ok time_ => (Ok tt, mkFrame (columns df2) (map Stamp time_))
                end
            end
        end
    end
  else (Err (ValueError "Unrecognized date type."), df).

End DelSep.

(** ** Notions used in the statements *)

(** The plotting-position formula: return period of the event of 0-based
    rank [i] among [n], for a record of [blocks] blocks. *)
Definition plotting_position (blocks : Q) (n i : nat) : Q :=
  ((blocks + 1) /
   (inject_Z (Z.of_nat n) *
    (1 - inject_Z (Z.of_nat i) / inject_Z (Z.of_nat n))))%Q.

(** The formula as the code evaluates it, each operation on doubles: the
    denominator [n * (1 - i / n)] and the return period. *)
Definition plotting_denominator (n i : nat) : Q :=
  fmul (of_int (Z.of_nat n))
       (fsub 1 (fdiv (of_int (Z.of_nat i)) (of_int (Z.of_nat n)))).

Definition plotting_position_double (blocks : Z) (n i : nat) : Q :=
  fdiv (of_int (blocks + 1)) (plotting_denominator n i).

(** The number of blocks of the specification: the span of the index over
    the block size, which is in days. *)
Definition span_blocks (first last_ : time) (block_size : Q) : Q :=
  (inject_Z (last_ - first) / (block_size * inject_Z us_per_day))%Q.

(** A value that construction with [handle_nans] removes. *)
Definition sentinel (q : Q) : bool :=
  Qeq_bool q lit_999_999 || Qeq_bool q lit_999_9 || Qeq_bool q lit_999.

(** The index of a column is in ascending order. *)
Definition ascending {A} (l : list (time * A)) : Prop :=
  StronglySorted (fun a b => fst a <= fst b) l.

(** POT extraction with every keyword given. *)
Definition pot (u r : Q) (decl : bool) : Core.M unit :=
  Core.get_extremes "POT"
    [("u", PNum u); ("r", PNum r); ("decluster", PBool decl)]%string.

(** The object after a POT extraction that set [self.extremes] to [e] and
    left or set the threshold [thr]. *)
Definition after_pot (self : Core.EVA) (e : Core.extremes_t) (thr : option Q)
  : Core.EVA :=
  Core.mkEVA (Core.data self) (Core.N self) e "POT" thr
             (Core.distribution self) (Core.retvalsum self).

(** The declustering loop as a fold over a stack: the last retained event
    on top, the earlier ones below it. *)
Definition decluster_step (r : Z) (stack : list (time * Q)) (e : time * Q)
  : list (time * Q) :=
  match stack with
  | [] => [e]
  | cur :: rest =>
      if r <=? fst e - fst cur then e :: stack
      else if Qltb (snd cur) (snd e) then e :: rest
      else stack
  end.

(** The top of the stack is [r] or more after every event below it. *)
Definition anchored (r : Z) (stack : list (time * Q)) : Prop :=
  match stack with
  | [] => True
  | cur :: rest => Forall (fun x => r <= fst cur - fst x) rest
  end.

(** An event above the threshold [u]. *)
Definition above (u : Q) (e : time * Q) : bool := Qltb u (snd e).

(** The keyword arguments left once those that [get_extremes] takes for the
    method are popped. *)
Definition left_over_pot (kw : kwargs) : kwargs :=
  remove_kw "decluster" (remove_kw "r" (remove_kw "u" kw)).

Definition left_over_bm (kw : kwargs) : kwargs := remove_kw "block" kw.

(** A row that construction with [handle_nans] keeps: a finite number that
    is not a sentinel. *)
Definition kept (row : time * cell) : bool :=
  match snd row with
  | Num (Fin q) => negb (sentinel q)
  | _ => false
  end.

(** The value column after [numbify] was applied to it. *)
Definition coerced (fr : frame) : frame :=
  map (fun row => (fst row, Num (Core.numbify (snd row)))) fr.

(** A method leaves every frame of the store as it found it. *)
Definition preserves_store {A} (m : Core.M A) : Prop :=
  forall s, snd (snd (m s)) = snd s.

(** The object after a BM extraction that set [self.extremes] to [e]. *)
Definition after_bm (self : Core.EVA) (e : Core.extremes_t) : Core.EVA :=
  Core.mkEVA (Core.data self) (Core.N self) e "BM" (Core.threshold self)
             (Core.distribution self) (Core.retvalsum self).

(** BM extraction with the default block. *)
Definition bm : Core.M unit := Core.get_extremes "BM" [].

(** [fit] after its first statement, [self.distribution = distribution]. *)
(** The family of [scipy.stats] that [fit] uses for Weibull, Log-normal
    and Pearson 3. *)
Definition scipy_family (d : string) : string :=
  if String.eqb d "Weibull" then "weibull_min"
  else if String.eqb d "Log-normal" then "lognorm"
  else "pearson3".

Definition with_distribution (d : string) (s : Core.state) : Core.state :=
  (Core.mkEVA (Core.data (fst s)) (Core.N (fst s)) (Core.extremes (fst s))
              (Core.method (fst s)) (Core.threshold (fst s)) d
              (Core.retvalsum (fst s)), snd s).

(** The scale the specification gives for the interval of the mean residual:
    the sample standard deviation (divisor [n - 1]) over the square root of
    the sample size. *)
Definition sample_variance (a : list Q) : Q :=
  (Core.Qsum (map (fun x => (x - Core.mean a) * (x - Core.mean a)) a) /
   (Core.Qlen a - 1))%Q.

Definition standard_error (a : list Q) : R :=
  (sqrt (Q2R (sample_variance a)) / sqrt (INR (length a)))%R.

(** The rows of an extraction are in ascending order of the index. *)
Definition index_ascending (rows : list (time * Q * Q)) : Prop :=
  StronglySorted (fun a b => fst (fst a) <= fst (fst b)) rows.

(** [rows] are the events [peaks], each with the return period of its rank
    by value: [sorted] is [peaks] in ascending order of value and [Ts] the
    return periods of the ranks 0, 1, ... for a record of [blocks]
    blocks, as the code evaluates them. *)
Definition ranked_by_value (blocks : Z) (peaks : list (time * Q))
           (rows : list (time * Q * Q)) : Prop :=
  exists sorted Ts,
    Permutation sorted peaks /\
    StronglySorted (fun a b => (snd a <= snd b)%Q) sorted /\
    length Ts = length peaks /\
    (forall i T, nth_error Ts i = Some T ->
                 T = plotting_position_double blocks (length peaks) i) /\
    Permutation rows (combine sorted Ts).

(** ** Inputs of the examples *)

(** Hourly samples over the years 2001 and 2002, all 1.0 except 12.0 at
    day 10, 13.0 one hour later and 9.0 at day 200. *)
Definition scenario_value (k : Z) : Q :=
  if k =? 240 then 12 else if k =? 241 then 13
  else if k =? 4800 then 9 else 1.

(** [n] samples one hour apart from time [t] on, numbered from [k]. *)
Fixpoint hourly (value : Z -> Q) (n : nat) (t : time) (k : Z) : frame :=
  match n with
  | O => []
  | S n' => (t, Num (Fin (value k))) :: hourly value n' (t + us_per_hour) (k + 1)
  end.

Definition scenario : frame :=
  hourly scenario_value (Z.to_nat 17520) (datetime 2001 1 1 0) 0.

(** A short record: two peaks a week apart and a sample below them. *)
Definition short_frame : frame :=
  [(datetime 2001 3 1 0, Num (Fin 11)); (datetime 2001 3 2 0, Num (Fin 4));
   (datetime 2001 3 8 0, Num (Fin 13))].

(** A frame given out of order, with a cell that is not a number, NaN and a
    measurement equal to 999. *)
Definition raw_frame : frame :=
  [(datetime 2002 5 1 0, Num (Fin 999)); (datetime 2001 5 1 0, Obj "n/a");
   (datetime 2001 6 1 0, Num NaN); (datetime 2001 4 1 0, Num (Fin 7))].

(** Services that answer with fixed values, to run [fit] on examples. *)
Definition fixed_services : Core.scipy :=
  {| Core.fit_mle := fun _ _ _ => [0; 0; 1]%Q;
     Core.ppf := fun _ _ q => Fin q;
     Core.rvs := fun _ _ n _ => repeat 1%Q (Z.to_nat n);
     Core.poisson_rvs := fun mu _ => mu;
     Core.norm_fit := fun _ => (Fin 0, Fin 1);
     Core.norm_interval := fun _ loc _ => (loc, loc);
     Core.logspace := [1 # 10; 1; 10; 100; 1000]%Q |}.

(** An object on [short_frame], and the state after construction. *)
Definition short_state : Core.state :=
  match Core.init 1%positive true {[ 1%positive := short_frame ]} with
  | (Ret o, st) => (o, st)
  | _ => (Core.mkEVA 1%positive 0 Core.NoValue "" None "" None, ∅)
  end.

(** Construction on [scenario], then POT extraction with u = 10 and
    r = 24 hours (declustering is the default). *)
Definition scenario_run : outcome unit * Core.state :=
  match Core.init 1%positive true {[ 1%positive := scenario ]} with
  | (Ret o, st) =>
      Core.get_extremes "POT" [("u", PNum 10); ("r", PNum 24)]%string (o, st)
  | (Raise e, _) => (Raise e, short_state)
  | (Unfinished, _) => (Unfinished, short_state)
  end.

(** Samples that are not in time order. *)
Definition unordered_frame : frame :=
  [(datetime 2001 1 1 3, Num (Fin 7)); (datetime 2001 1 1 12, Num (Fin 3));
   (datetime 2001 1 1 8, Num (Fin 6)); (datetime 2001 1 1 10, Num (Fin 4));
   (datetime 2001 1 1 2, Num (Fin 5)); (datetime 2001 1 1 9, Num (Fin 8))].

Definition unordered_state : Core.state :=
  match Core.init 1%positive true {[ 1%positive := unordered_frame ]} with
  | (Ret o, st) => (o, st)
  | _ => short_state
  end.

(** Construction on [raw_frame]. *)
Definition raw_run : outcome Core.EVA * store :=
  Core.init 1%positive true {[ 1%positive := raw_frame ]}.

Definition raw_object : Core.EVA :=
  match fst raw_run with
  | Ret o => o
  | _ => fst short_state
  end.

(** A series given latest sample first, with a missing value. *)
Definition misordered_series : frame :=
  [(datetime 2001 5 1 0, Num (Fin 2)); (datetime 2001 4 1 0, Num NaN);
   (datetime 2001 3 1 0, Num (Fin 1))].

(** One Gregorian year in days, the default block size. *)
Definition gregorian_year : Q := 3652425 # 10000.

(** [short_state] after POT extraction with u = 10, and after BM
    extraction. *)
Definition short_pot_state : Core.state := snd (pot 10 24 true short_state).

Definition short_bm_state : Core.state := snd (bm short_state).

(** The number of blocks that the specification gives [short_frame]: its
    span of 7 days over the default block size. *)
Definition short_blocks : Q :=
  span_blocks (datetime 2001 3 1 0) (datetime 2001 3 8 0) gregorian_year.

(** A service that divides exactly, for the examples. *)
Definition exact_blocks (span : Z) (block_size : Q) : outcome Q :=
  Ret (span_blocks 0 span block_size).

(** ** Notions of the further properties *)

(** The events of an extraction, without their return periods. *)
Definition events (rows : list (time * Q * Q)) : list (time * Q) := map fst rows.

(** Each event is [r] or more after the one before it. *)
Definition separated (r : Z) (l : list (time * Q)) : Prop :=
  StronglySorted (fun a b => fst a + r <= fst b) l.

(** Every value of the column is a finite number. *)
Definition finite_column (col : list (time * float64)) : Prop :=
  forall t x, In (t, x) col -> exists q, x = Fin q.

(** The events of the calendar year [y]. *)
Definition in_year (y : Z) (rows : list (time * Q * Q)) : list (time * Q * Q) :=
  List.filter (fun row => year_of (fst (fst row)) =? y) rows.

(** BM extraction with the block [b]. *)
Definition bm_block (b : pyval) : Core.M unit :=
  Core.get_extremes "BM" [("block", b)]%string.

(** The return period of a row of the summary table. *)
Definition period (row : Core.retrow) : Q := fst (fst row).

(** A table whose return periods ascend along the grid. *)
Definition on_grid (grid : list Q) (rows : list Core.retrow) : Prop :=
  StronglySorted (fun a b => (period a < period b)%Q) rows /\
  forall row, In row rows -> In (period row) grid.

(** The rows of a series that hold a value. *)
Definition present (fr : frame) : frame :=
  List.filter (fun row => negb (Stats.isna (snd row))) fr.

(** The number of samples above [u]. *)
Definition exceedances (col : list (time * float64)) (u : Q) : Z :=
  Z.of_nat (length (select_gt u col)).

(** The threshold after [n] passes of a search loop that starts from
    [start] and adds [step] at each pass, as doubles add. *)
Fixpoint grid_point (step : Q) (n : nat) (start : Q) : Q :=
  match n with
  | O => start
  | S n' => grid_point step n' (fadd start step)
  end.

(** The [n]-th threshold of the search is the first with at most [k]
    samples above it. *)
Definition first_below (col : list (time * float64)) (k : Z)
           (start step : Q) (n : nat) : Prop :=
  exceedances col (grid_point step n start) <= k /\
  forall m, (m < n)%nat -> k < exceedances col (grid_point step m start).

(** Services with fixed answers, for the examples. *)
Definition fixed_numpy : Core.numpy :=
  {| Core.percentile := fun _ _ => Ret (Fin 0);
     Core.log_rule := fun _ => Ret 0 |}.

(** The number yyyymmdd of the fields: year, month, day, hour, minute. *)
Definition date_number (f : DelSep.fields) : Z :=
  let '(y, m, d, _, _) := f in y * 10000 + m * 100 + d.

(** The number hhmm of the fields. *)
Definition clock_number (f : DelSep.fields) : Z :=
  let '(_, _, _, h, mi) := f in h * 100 + mi.

(** A whole number as [__init__] leaves it in a cell. *)
Definition number_cell (n : Z) : cell := Num (Fin (inject_Z n)).

(** Fields that the two numbers hold without loss: a year of four digits,
    two digits each for month, day and minute. *)
Definition encodable (f : DelSep.fields) : Prop :=
  let '(y, m, d, h, mi) := f in
  1000 <= y <= 9999 /\ 0 <= m <= 99 /\ 0 <= d <= 99 /\ 0 <= h /\
  0 <= mi <= 99.

(** The hour is below [2 ^ 45], so that the number hhmm is a double. *)
Definition hour_bounded (f : DelSep.fields) : Prop :=
  let '(_, _, _, h, _) := f in h < 2 ^ 45.

(** Every field is one that a C int holds. *)
Definition c_ints (f : DelSep.fields) : Prop :=
  let '(y, m, d, h, mi) := f in
  forallb DelSep.c_int [y; m; d; h; mi] = true.

(** Fields of a date of the calendar and a time of the day. *)
Definition valid (f : DelSep.fields) : Prop :=
  let '(y, m, d, h, mi) := f in
  1 <= m <= 12 /\ 1 <= d <= DelSep.days_in_month y m /\ h <= 23 /\ mi <= 59.

(** The timestamp of the fields. *)
Definition stamp_of (f : DelSep.fields) : time :=
  let '(y, m, d, h, mi) := f in datetime y m d h + mi * DelSep.us_per_minute.

(** A frame with the columns Date and HrMn of the given rows, and other
    columns. *)
Definition dated_frame (rows : list DelSep.fields)
           (others : list (string * list cell)) (idx : list DelSep.label)
  : DelSep.DataFrame :=
  DelSep.mkFrame
    (("Date"%string, map (fun f => number_cell (date_number f)) rows) ::
     ("HrMn"%string, map (fun f => number_cell (clock_number f)) rows) ::
     others)
    idx.

(** No other column is labelled Date or HrMn. *)
Definition other_columns (others : list (string * list cell)) : Prop :=
  forall c, In c others -> fst c <> "Date"%string /\ fst c <> "HrMn"%string.

(** The text of a list of digits. *)
Fixpoint of_digits (l : list Z) : string :=
  match l with
  | [] => EmptyString
  | d :: l' => String (DelSep.digit_char d) (of_digits l')
  end.

(** A decimal digit. *)
Definition digit (d : Z) : Prop := 0 <= d < 10.

(** The number that a list of digits denotes, after the digits already
    read in [a]. *)
Definition dvalue (l : list Z) (a : Z) : Z :=
  fold_left (fun a d => a * 10 + d) l a.

(** A line of a file: fields, each followed by the delimiter, then the rest
    of the line. *)
Definition line_of (c : ascii) (fields : list string) (rest : string) : string :=
  fold_right (fun f s => (f ++ String c s)%string) rest fields.

(** The character [c] does not occur in [s]. *)
Definition free_of (c : ascii) (s : string) : Prop :=
  ~ In c (list_ascii_of_string s).

(** The fields of a line and its rest, none of which holds the
    delimiter. *)
Definition plain_row (c : ascii) (row : list string * string) : Prop :=
  List.Forall (free_of c) (fst row) /\ free_of c (snd row).

(** For the examples: [float] on the texts made of digits only. *)
Definition text_float (s : string) : option float64 :=
  if DelSep.all_digits s then
    match s with
    | EmptyString => None
    | _ => Some (Fin (inject_Z (DelSep.value_of 0 s)))
    end
  else None.

(** * Properties *)

(** ** Comparisons of rationals *)

Lemma Qltb_lt (x y : Q) : Qltb x y = true <-> (x < y)%Q.
Proof.
  unfold Qltb. rewrite negb_true_iff. split; intros H.
  - apply Qnot_le_lt. intros Hle. apply Qle_bool_iff in Hle. congruence.
  - destruct (Qle_bool y x) eqn:E; [|reflexivity].
    apply Qle_bool_iff in E. exfalso. exact (Qlt_not_le _ _ H E).
Qed.

Lemma Qltb_ge (x y : Q) : Qltb x y = false <-> (y <= x)%Q.
Proof.
  unfold Qltb. rewrite negb_false_iff. apply Qle_bool_iff.
Qed.

(** ** Rounding to a double *)

Lemma Qfloor_fraction (x : Q) :
  (0 <= x - inject_Z (Qfloor x))%Q /\ (x - inject_Z (Qfloor x) < 1)%Q.
Proof.
  pose proof (Qfloor_le x) as H1. pose proof (Qlt_floor x) as H2.
  rewrite inject_Z_plus in H2. change (inject_Z 1) with 1%Q in H2.
  split; Lqa.lra.
Qed.

Lemma round_half_even_cases (x : Q) :
  round_half_even x = Qfloor x \/ round_half_even x = Qfloor x + 1.
Proof.
  unfold round_half_even.
  destruct (Qcompare _ _); [destruct (Z.even _)|..]; auto.
Qed.

Lemma round_half_even_low (x : Q) :
  round_half_even x = Qfloor x -> (x - inject_Z (Qfloor x) <= 1 # 2)%Q.
Proof.
  unfold round_half_even.
  destruct (Qcompare (x - inject_Z (Qfloor x)) (1 # 2)) eqn:E; intros H.
  - apply Qeq_alt in E. rewrite E. apply Qle_refl.
  - apply Qlt_alt in E. apply Qlt_le_weak. exact E.
  - lia.
Qed.

Lemma round_half_even_high (x : Q) :
  round_half_even x = Qfloor x + 1 -> (1 # 2 <= x - inject_Z (Qfloor x))%Q.
Proof.
  unfold round_half_even.
  destruct (Qcompare (x - inject_Z (Qfloor x)) (1 # 2)) eqn:E; intros H.
  - apply Qeq_alt in E. rewrite E. apply Qle_refl.
  - lia.
  - apply Qgt_alt in E. apply Qlt_le_weak. exact E.
Qed.

Lemma round_half_even_mono (x y : Q) :
  (x <= y)%Q -> round_half_even x <= round_half_even y.
Proof.
  intros Hxy. pose proof (Qfloor_resp_le x y Hxy) as Hf.
  destruct (Z.eq_dec (Qfloor x) (Qfloor y)) as [E|N].
  - destruct (round_half_even_cases x) as [Hx|Hx];
      destruct (round_half_even_cases y) as [Hy|Hy]; try lia.
    exfalso.
    assert (Hlt : (x - inject_Z (Qfloor x) < y - inject_Z (Qfloor y))%Q \/
                  (x == y)%Q).
    { destruct (Qlt_le_dec x y) as [H|H].
      - left. rewrite E. apply Qplus_lt_l. exact H.
      - right. apply Qle_antisym; assumption. }
    destruct Hlt as [Hlt|Heq].
    + pose proof (round_half_even_high x Hx) as H1.
      pose proof (round_half_even_low y Hy) as H2.
      apply (Qlt_irrefl (1 # 2)).
      eapply Qle_lt_trans; [exact H1|].
      eapply Qlt_le_trans; [exact Hlt|exact H2].
    + unfold round_half_even in Hx, Hy.
      assert (Ec : Qcompare (x - inject_Z (Qfloor x)) (1 # 2) =
                   Qcompare (y - inject_Z (Qfloor y)) (1 # 2)).
      { rewrite E. apply Qcompare_comp; [|reflexivity].
        rewrite Heq. reflexivity. }
      rewrite Ec, E in Hx.
      destruct (Qcompare (y - inject_Z (Qfloor y)) (1 # 2));
        [destruct (Z.even (Qfloor y))|..]; lia.
  - destruct (round_half_even_cases x) as [Hx|Hx];
      destruct (round_half_even_cases y) as [Hy|Hy]; lia.
Qed.

Lemma round_half_even_eq (x y : Q) :
  (x == y)%Q -> round_half_even x = round_half_even y.
Proof.
  intros H. apply Z.le_antisymm; apply round_half_even_mono;
    rewrite H; apply Qle_refl.
Qed.

Lemma round_half_even_int (k : Z) : round_half_even (inject_Z k) = k.
Proof.
  unfold round_half_even. rewrite Qfloor_Z.
  assert (E : (inject_Z k - inject_Z k ?= 1 # 2)%Q = Lt).
  { apply (proj1 (Qlt_alt _ _)). Lqa.lra. }
  rewrite E. reflexivity.
Qed.

Lemma round_half_even_nonneg (x : Q) : (0 <= x)%Q -> 0 <= round_half_even x.
Proof.
  intros H. change 0 with (round_half_even (inject_Z 0)) at 1.
  - rewrite round_half_even_int. rewrite <- (round_half_even_int 0).
    apply round_half_even_mono. exact H.
Qed.

Lemma pow2_pos (e : Z) : (0 < pow2 e)%Q.
Proof. apply Qpower_0_lt. reflexivity. Qed.

Lemma pow2_plus (a b : Z) : (pow2 (a + b) == pow2 a * pow2 b)%Q.
Proof. apply Qpower_plus. discriminate. Qed.

Lemma pow2_le (a b : Z) : a <= b -> (pow2 a <= pow2 b)%Q.
Proof. intros H. apply Qpower_le_compat_l; [exact H|discriminate]. Qed.

Lemma pow2_nonneg_exp (e : Z) : 0 <= e -> (pow2 e == inject_Z (2 ^ e))%Q.
Proof. intros H. unfold pow2. rewrite Zpower_Qpower by exact H. reflexivity. Qed.

Lemma pow2_succ (e : Z) : (pow2 (e + 1) == 2 * pow2 e)%Q.
Proof. rewrite pow2_plus. change (pow2 1) with 2%Q. ring. Qed.

(** The exponent found for a positive number brackets it. *)
Lemma binary_exponent_spec (x : Q) :
  (0 < x)%Q ->
  (pow2 (binary_exponent x) <= x)%Q /\ (x < pow2 (binary_exponent x + 1))%Q.
Proof.
  intros Hx. unfold binary_exponent.
  destruct x as [n d]. cbn [Qnum Qden].
  assert (Hn : 0 < n).
  { unfold Qlt in Hx. simpl in Hx. lia. }
  set (a := Z.log2 n). set (b := Z.log2 (Z.pos d)).
  destruct (Z.log2_spec n Hn) as [Ha1 Ha2]. fold a in Ha1, Ha2.
  destruct (Z.log2_spec (Z.pos d) ltac:(lia)) as [Hb1 Hb2].
  fold b in Hb1, Hb2.
  assert (Ha0 : 0 <= a) by apply Z.log2_nonneg.
  assert (Hb0 : 0 <= b) by apply Z.log2_nonneg.
  assert (Hq : (n # d == inject_Z n / inject_Z (Z.pos d))%Q).
  { rewrite Qmake_Qdiv. reflexivity. }
  assert (Hd : (0 < inject_Z (Z.pos d))%Q).
  { change 0%Q with (inject_Z 0). rewrite <- Zlt_Qlt. lia. }
  assert (HN : (0 < inject_Z n)%Q).
  { change 0%Q with (inject_Z 0). rewrite <- Zlt_Qlt. lia. }
  assert (Hup : (n # d < pow2 (a - b + 1))%Q).
  { rewrite Hq. apply Qlt_shift_div_r; [exact Hd|].
    replace (a - b + 1) with ((a + 1) + (- b)) by lia.
    rewrite pow2_plus. unfold pow2 at 2. rewrite Qpower_opp.
    fold (pow2 b). rewrite (pow2_nonneg_exp b Hb0).
    rewrite (pow2_nonneg_exp (a + 1)) by lia.
    assert (H0 : (inject_Z n < inject_Z (2 ^ (a + 1)))%Q).
    { rewrite <- Zlt_Qlt. exact Ha2. }
    assert (H1 : (0 < inject_Z (2 ^ b))%Q).
    { change 0%Q with (inject_Z 0). rewrite <- Zlt_Qlt. lia. }
    assert (H2 : (inject_Z (2 ^ b) <= inject_Z (Z.pos d))%Q).
    { rewrite <- Zle_Qle. exact Hb1. }
    assert (H3 : (inject_Z (2 ^ b) * / inject_Z (2 ^ b) == 1)%Q).
    { apply Qmult_inv_r. intros E. rewrite E in H1.
      exact (Qlt_irrefl _ H1). }
    assert (H4 : (0 < / inject_Z (2 ^ b))%Q) by (apply Qinv_lt_0_compat; exact H1).
    set (A := inject_Z (2 ^ (a + 1))) in *. set (B := inject_Z (2 ^ b)) in *.
    set (iB := (/ B)%Q) in *. set (D := inject_Z (Z.pos d)) in *.
    set (N := inject_Z n) in *.
    assert (H5 : (1 <= iB * D)%Q) by Lqa.nra.
    Lqa.nra. }
  assert (Hlow : (pow2 (a - b - 1) <= n # d)%Q).
  { rewrite Hq. apply Qle_shift_div_l; [exact Hd|].
    replace (a - b - 1) with (a + (- (b + 1))) by lia.
    rewrite pow2_plus. unfold pow2 at 2. rewrite Qpower_opp.
    fold (pow2 (b + 1)). rewrite (pow2_nonneg_exp (b + 1)) by lia.
    rewrite (pow2_nonneg_exp a Ha0).
    assert (H0 : (inject_Z (2 ^ a) <= inject_Z n)%Q).
    { rewrite <- Zle_Qle. exact Ha1. }
    assert (H1 : (0 < inject_Z (2 ^ (b + 1)))%Q).
    { change 0%Q with (inject_Z 0). rewrite <- Zlt_Qlt. lia. }
    assert (H2 : (inject_Z (Z.pos d) <= inject_Z (2 ^ (b + 1)))%Q).
    { rewrite <- Zle_Qle. lia. }
    assert (H3 : (inject_Z (2 ^ (b + 1)) * / inject_Z (2 ^ (b + 1)) == 1)%Q).
    { apply Qmult_inv_r. intros E. rewrite E in H1.
      exact (Qlt_irrefl _ H1). }
    assert (H4 : (0 < / inject_Z (2 ^ (b + 1)))%Q)
      by (apply Qinv_lt_0_compat; exact H1).
    assert (H6 : (0 < inject_Z (2 ^ a))%Q).
    { change 0%Q with (inject_Z 0). rewrite <- Zlt_Qlt. lia. }
    set (A := inject_Z (2 ^ a)) in *. set (B := inject_Z (2 ^ (b + 1))) in *.
    set (iB := (/ B)%Q) in *. set (D := inject_Z (Z.pos d)) in *.
    set (N := inject_Z n) in *.
    assert (H5 : (iB * D <= 1)%Q) by Lqa.nra.
    Lqa.nra. }
  destruct (Qle_bool (pow2 (a - b)) (n # d)) eqn:E.
  - apply Qle_bool_iff in E. split; [exact E|exact Hup].
  - assert (E' : (n # d < pow2 (a - b))%Q).
    { apply Qnot_le_lt. intros H. apply Qle_bool_iff in H. congruence. }
    replace (a - b - 1 + 1) with (a - b) by lia.
    split; [exact Hlow|exact E'].
Qed.

Lemma binary_exponent_mono (x y : Q) :
  (0 < x)%Q -> (x <= y)%Q -> binary_exponent x <= binary_exponent y.
Proof.
  intros Hx Hxy.
  assert (Hy : (0 < y)%Q) by Lqa.lra.
  destruct (binary_exponent_spec x Hx) as [X1 _].
  destruct (binary_exponent_spec y Hy) as [_ Y2].
  destruct (Z_le_gt_dec (binary_exponent x) (binary_exponent y)) as [H|H];
    [exact H|exfalso].
  assert (Hp : (pow2 (binary_exponent y + 1) <= pow2 (binary_exponent x))%Q)
    by (apply pow2_le; lia).
  Lqa.lra.
Qed.

Lemma Qabs_nonneg_eq (x : Q) : (0 <= x)%Q -> Qabs x = x.
Proof.
  destruct x as [n d]. unfold Qle. simpl. intros H. unfold Qabs.
  f_equal. apply Z.abs_eq. lia.
Qed.

Lemma b64_zero (x : Q) : (x == 0)%Q -> b64 x = 0%Q.
Proof.
  intros H. unfold b64.
  assert (E : Qeq_bool (Qabs x) 0 = true).
  { apply Qeq_bool_iff. rewrite H. reflexivity. }
  rewrite E. reflexivity.
Qed.

Lemma b64_pos (x : Q) :
  (0 < x)%Q ->
  (b64 x ==
   inject_Z (round_half_even (x / pow2 (last_digit x))) * pow2 (last_digit x))%Q.
Proof.
  intros Hx. unfold b64, last_digit.
  rewrite (Qabs_nonneg_eq x) by Lqa.lra.
  assert (E : Qeq_bool x 0 = false).
  { destruct (Qeq_bool x 0) eqn:E; [|reflexivity].
    apply Qeq_bool_iff in E. Lqa.lra. }
  assert (E' : Qle_bool 0 x = true) by (apply Qle_bool_iff; Lqa.lra).
  rewrite E, E'. cbv zeta. apply Qred_correct.
Qed.

Lemma scaled_pos (x : Q) (e : Z) : (0 < x)%Q -> (0 < x / pow2 e)%Q.
Proof.
  intros Hx. apply Qlt_shift_div_l; [apply pow2_pos|]. Lqa.lra.
Qed.

Lemma b64_nonneg (x : Q) : (0 <= x)%Q -> (0 <= b64 x)%Q.
Proof.
  intros Hx. destruct (Qlt_le_dec 0 x) as [H|H].
  - rewrite (b64_pos x H).
    pose proof (pow2_pos (last_digit x)) as Hp.
    pose proof (round_half_even_nonneg (x / pow2 (last_digit x))
                  (Qlt_le_weak _ _ (scaled_pos x _ H))) as Hr.
    apply Qmult_le_0_compat; [|Lqa.lra].
    change 0%Q with (inject_Z 0). rewrite <- Zle_Qle. exact Hr.
  - rewrite (b64_zero x) by Lqa.lra. apply Qle_refl.
Qed.

Lemma scaled_le (x y : Q) (e : Z) :
  (x <= y)%Q -> (x / pow2 e <= y / pow2 e)%Q.
Proof.
  intros H. unfold Qdiv. apply Qmult_le_compat_r; [exact H|].
  apply Qlt_le_weak, Qinv_lt_0_compat, pow2_pos.
Qed.

Lemma inject_Z_pow2 (e : Z) : 0 <= e -> (inject_Z (2 ^ e) == pow2 e)%Q.
Proof. intros H. symmetry. apply pow2_nonneg_exp. exact H. Qed.

(** Rounding keeps the order of the numbers that are not negative. *)
Lemma b64_mono (x y : Q) : (0 <= x)%Q -> (x <= y)%Q -> (b64 x <= b64 y)%Q.
Proof.
  intros Hx Hxy. destruct (Qlt_le_dec 0 x) as [Hpos|Hzero].
  2:{ rewrite (b64_zero x) by Lqa.lra. apply b64_nonneg. Lqa.lra. }
  assert (Hy : (0 < y)%Q) by Lqa.lra.
  rewrite (b64_pos x Hpos), (b64_pos y Hy).
  pose proof (binary_exponent_mono x y Hpos Hxy) as He.
  destruct (binary_exponent_spec x Hpos) as [_ X2].
  destruct (binary_exponent_spec y Hy) as [Y1 _].
  set (ex := last_digit x). set (ey := last_digit y).
  assert (Hle : ex <= ey) by (unfold ex, ey, last_digit; lia).
  pose proof (pow2_pos ex) as Px. pose proof (pow2_pos ey) as Py.
  destruct (Z.eq_dec ex ey) as [E|N].
  - rewrite <- E. apply Qmult_le_compat_r; [|Lqa.lra].
    rewrite <- Zle_Qle. apply round_half_even_mono, scaled_le, Hxy.
  - (* [y] is a binade or more above [x] *)
    assert (Hey : ey = binary_exponent y - 52)
      by (unfold ex, ey, last_digit in *; lia).
    assert (Hex : binary_exponent x + 1 <= ex + 53)
      by (unfold ex, last_digit; lia).
    assert (Hx53 : (x / pow2 ex <= inject_Z (2 ^ 53))%Q).
    { apply Qle_shift_div_r; [exact Px|].
      rewrite (inject_Z_pow2 53) by lia. rewrite <- pow2_plus.
      pose proof (pow2_le (binary_exponent x + 1) (53 + ex) ltac:(lia)).
      Lqa.lra. }
    assert (Hy52 : (inject_Z (2 ^ 52) <= y / pow2 ey)%Q).
    { apply Qle_shift_div_l; [exact Py|].
      rewrite (inject_Z_pow2 52) by lia. rewrite <- pow2_plus.
      replace (52 + ey) with (binary_exponent y) by lia. exact Y1. }
    apply round_half_even_mono in Hx53, Hy52.
    rewrite round_half_even_int in Hx53, Hy52.
    apply Qle_trans with (y := (inject_Z (2 ^ 53) * pow2 ex)%Q).
    + apply Qmult_le_compat_r; [|Lqa.lra]. rewrite <- Zle_Qle. exact Hx53.
    + apply Qle_trans with (y := (inject_Z (2 ^ 52) * pow2 ey)%Q).
      * rewrite (inject_Z_pow2 53), (inject_Z_pow2 52) by lia.
        rewrite <- !pow2_plus. apply pow2_le. lia.
      * apply Qmult_le_compat_r; [|Lqa.lra]. rewrite <- Zle_Qle. exact Hy52.
Qed.

(** A whole number below [2 ^ 53] is a double. *)
Lemma b64_int (k : Z) : 0 <= k < 2 ^ 53 -> (b64 (inject_Z k) == inject_Z k)%Q.
Proof.
  intros Hk. destruct (Z.eq_dec k 0) as [->|Hk0]; [reflexivity|].
  assert (Hpos : (0 < inject_Z k)%Q).
  { change 0%Q with (inject_Z 0). rewrite <- Zlt_Qlt. lia. }
  rewrite (b64_pos _ Hpos).
  destruct (binary_exponent_spec _ Hpos) as [B1 _].
  set (e := last_digit (inject_Z k)).
  assert (He : e <= 0).
  { unfold e, last_digit.
    destruct (Z_le_gt_dec (binary_exponent (inject_Z k)) 52) as [H|H]; [lia|].
    exfalso.
    pose proof (pow2_le 53 (binary_exponent (inject_Z k)) ltac:(lia)) as H1.
    rewrite <- (inject_Z_pow2 53) in H1 by lia.
    assert (H2 : (inject_Z (2 ^ 53) <= inject_Z k)%Q) by Lqa.lra.
    rewrite <- Zle_Qle in H2. lia. }
  assert (Hs : (inject_Z k / pow2 e == inject_Z (k * 2 ^ (- e)))%Q).
  { rewrite inject_Z_mult, (inject_Z_pow2 (- e)) by lia.
    unfold pow2. rewrite Qpower_opp. reflexivity. }
  rewrite (round_half_even_eq _ _ Hs), round_half_even_int, inject_Z_mult.
  rewrite (inject_Z_pow2 (- e)) by lia.
  rewrite <- Qmult_assoc, <- pow2_plus.
  replace (- e + e) with 0 by lia. change (pow2 0) with 1%Q. ring.
Qed.

Lemma b64_eq (x y : Q) : (0 <= x)%Q -> (x == y)%Q -> (b64 x == b64 y)%Q.
Proof.
  intros Hx H. apply Qle_antisym.
  - apply b64_mono; [exact Hx|rewrite H; apply Qle_refl].
  - apply b64_mono; [rewrite <- H; exact Hx|rewrite H; apply Qle_refl].
Qed.

Lemma b64_le_double (x c : Q) :
  (0 <= x)%Q -> (x <= c)%Q -> (b64 c == c)%Q -> (b64 x <= c)%Q.
Proof.
  intros Hx Hxc Hc. rewrite <- Hc. apply b64_mono; assumption.
Qed.

Lemma b64_ge_double (x c : Q) :
  (0 <= c)%Q -> (c <= x)%Q -> (b64 c == c)%Q -> (c <= b64 x)%Q.
Proof.
  intros H0 Hcx Hc. rewrite <- Hc. apply b64_mono; assumption.
Qed.

Lemma of_int_exact (k : Z) : 0 <= k < 2 ^ 53 -> (of_int k == inject_Z k)%Q.
Proof. apply b64_int. Qed.

Lemma round_half_even_upper (x : Q) :
  (inject_Z (round_half_even x) <= x + (1 # 2))%Q.
Proof.
  destruct (Qfloor_fraction x) as [F0 F1].
  destruct (round_half_even_cases x) as [E|E].
  - rewrite E. Lqa.lra.
  - pose proof (round_half_even_high x E) as H. rewrite E.
    rewrite inject_Z_plus. change (inject_Z 1) with 1%Q. Lqa.lra.
Qed.

(** Rounding a number that is not small adds at most one part in
    [2 ^ 53]. *)
Lemma b64_upper (x : Q) :
  (1 # 2 <= x)%Q -> (b64 x <= x + x * (1 # 2 ^ 53))%Q.
Proof.
  intros Hx. assert (Hpos : (0 < x)%Q) by Lqa.lra.
  rewrite (b64_pos x Hpos).
  destruct (binary_exponent_spec x Hpos) as [B1 B2].
  assert (Hbe : -1 <= binary_exponent x).
  { destruct (Z_le_gt_dec (-1) (binary_exponent x)) as [H|H]; [exact H|].
    exfalso. pose proof (pow2_le (binary_exponent x + 1) (-1) ltac:(lia)) as H1.
    change (pow2 (-1)) with (1 # 2)%Q in H1. Lqa.lra. }
  assert (He : last_digit x = binary_exponent x - 52)
    by (unfold last_digit; lia).
  set (e := last_digit x) in *.
  pose proof (pow2_pos e) as Pe.
  pose proof (round_half_even_upper (x / pow2 e)) as Hr.
  assert (Hm : (inject_Z (round_half_even (x / pow2 e)) * pow2 e <=
                x + (1 # 2) * pow2 e)%Q).
  { apply (Qmult_le_compat_r _ _ (pow2 e)) in Hr; [|Lqa.lra].
    assert (E : ((x / pow2 e + (1 # 2)) * pow2 e == x + (1 # 2) * pow2 e)%Q)
      by (field; Lqa.lra).
    rewrite E in Hr. exact Hr. }
  eapply Qle_trans; [exact Hm|].
  assert (Hp : (pow2 e * inject_Z (2 ^ 52) <= x)%Q).
  { rewrite (inject_Z_pow2 52) by lia. rewrite <- pow2_plus.
    replace (e + 52) with (binary_exponent x) by lia. exact B1. }
  assert (H53 : ((1 # 2 ^ 53) * inject_Z (2 ^ 52) == 1 # 2)%Q)
    by (vm_compute; reflexivity).
  assert (H52 : (0 < inject_Z (2 ^ 52))%Q) by reflexivity.
  assert (Hu : (0 < 1 # 2 ^ 53)%Q) by reflexivity.
  set (u := (1 # 2 ^ 53)%Q) in *. set (P := pow2 e) in *.
  set (K := inject_Z (2 ^ 52)) in *.
  assert (G : ((1 # 2) * P == u * (P * K))%Q).
  { rewrite <- H53. ring. }
  rewrite G. Lqa.nra.
Qed.

Lemma truncate_between (x : Q) (q : Z) :
  0 <= q -> (inject_Z q <= x)%Q -> (x < inject_Z (q + 1))%Q -> truncate x = q.
Proof.
  intros Hq H1 H2. unfold truncate. destruct x as [a b].
  unfold Qle, Qlt in *. cbn [Qnum Qden inject_Z] in *.
  rewrite Z.quot_div_nonneg by nia.
  symmetry. apply (Z.div_unique_pos a (Z.pos b) q (a - q * Z.pos b)); nia.
Qed.

(** [int(n / 100)] is the integer quotient for the numbers of a file. *)
Lemma hundreds_exact (n : Z) :
  0 <= n < 2 ^ 52 -> DelSep.hundreds n = n / 100.
Proof.
  intros Hn. unfold DelSep.hundreds.
  set (q := n / 100).
  assert (Hq : 0 <= q < 2 ^ 46 - 1)
    by (unfold q; Z.to_euclidean_division_equations; lia).
  assert (Hx0 : (inject_Z q <= inject_Z n / 100)%Q).
  { apply Qle_shift_div_l; [reflexivity|].
    change 100%Q with (inject_Z 100). rewrite <- inject_Z_mult, <- Zle_Qle.
    unfold q. Z.to_euclidean_division_equations; lia. }
  assert (Hx1 : (inject_Z n / 100 <= inject_Z q + (99 # 100))%Q).
  { apply Qle_shift_div_r; [reflexivity|].
    assert (E : ((inject_Z q + (99 # 100)) * 100 == inject_Z (q * 100 + 99))%Q).
    { rewrite inject_Z_plus, inject_Z_mult.
      change (inject_Z 100) with 100%Q. change (inject_Z 99) with 99%Q.
      field. }
    rewrite E, <- Zle_Qle. unfold q. Z.to_euclidean_division_equations; lia. }
  assert (Hq0 : (0 <= inject_Z q)%Q).
  { change 0%Q with (inject_Z 0). rewrite <- Zle_Qle. lia. }
  assert (Hq1 : (inject_Z q + 1 <= inject_Z (2 ^ 46))%Q).
  { change 1%Q with (inject_Z 1). rewrite <- inject_Z_plus, <- Zle_Qle. lia. }
  apply truncate_between; [lia| |].
  - apply b64_ge_double; [exact Hq0|exact Hx0|apply b64_int; lia].
  - destruct (Z.eq_dec q 0) as [E0|N0].
    + (* below 1 *)
      rewrite E0 in *. cbn [Z.add]. change (inject_Z 1) with 1%Q.
      apply Qle_lt_trans with (y := b64 (99 # 100)).
      * apply b64_mono; [Lqa.lra|]. change (inject_Z 0) with 0%Q in Hx1.
        Lqa.lra.
      * vm_compute. reflexivity.
    + assert (Hq2 : (1 <= inject_Z q)%Q).
      { change 1%Q with (inject_Z 1). rewrite <- Zle_Qle. lia. }
      apply Qle_lt_trans with (y := b64 (inject_Z q + (99 # 100))).
      * apply b64_mono; [Lqa.lra|exact Hx1].
      * eapply Qle_lt_trans; [apply b64_upper; Lqa.lra|].
        rewrite inject_Z_plus. change (inject_Z 1) with 1%Q.
        assert (H46 : (inject_Z (2 ^ 46) * (1 # 2 ^ 53) == 1 # 128)%Q)
          by (vm_compute; reflexivity).
        assert (Hu : (0 < 1 # 2 ^ 53)%Q) by reflexivity.
        set (u := (1 # 2 ^ 53)%Q) in *. set (K := inject_Z (2 ^ 46)) in *.
        set (Q := inject_Z q) in *.
        assert (G : ((Q + 1) * u <= K * u)%Q) by Lqa.nra.
        Lqa.nra.
Qed.

(** ** The plotting position on doubles *)

Section PlottingPosition.
Variable n : nat.
Hypothesis n_small : Z.of_nat n < 2 ^ 53.

Lemma b64_ulp : (b64 ulp == ulp)%Q.
Proof. vm_compute. reflexivity. Qed.

Lemma b64_below_one : (b64 (1 - ulp) == 1 - ulp)%Q.
Proof. vm_compute. reflexivity. Qed.

Lemma b64_one : (b64 1 == 1)%Q.
Proof. vm_compute. reflexivity. Qed.

Lemma inject_nat_pos (i : nat) : (0 <= inject_Z (Z.of_nat i))%Q.
Proof. change 0%Q with (inject_Z 0). rewrite <- Zle_Qle. lia. Qed.

Lemma inv_n_ulp : (0 < n)%nat -> (ulp <= / inject_Z (Z.of_nat n))%Q.
Proof.
  intros Hn.
  assert (H1 : (0 < inject_Z (Z.of_nat n))%Q).
  { change 0%Q with (inject_Z 0). rewrite <- Zlt_Qlt. lia. }
  assert (H2 : (inject_Z (Z.of_nat n) <= inject_Z (2 ^ 53))%Q).
  { rewrite <- Zle_Qle. lia. }
  change ulp with (/ inject_Z (2 ^ 53))%Q.
  apply Qle_shift_inv_l; [exact H1|].
  assert (H3 : (/ inject_Z (2 ^ 53) * inject_Z (2 ^ 53) == 1)%Q)
    by (vm_compute; reflexivity).
  assert (H4 : (0 < / inject_Z (2 ^ 53))%Q) by reflexivity.
  Lqa.nra.
Qed.

(** [i / n] as a double, for a rank [i < n]. *)
Lemma cdf_bounds (i : nat) :
  (i < n)%nat ->
  (0 <= fdiv (of_int (Z.of_nat i)) (of_int (Z.of_nat n)))%Q /\
  (fdiv (of_int (Z.of_nat i)) (of_int (Z.of_nat n)) <= 1 - ulp)%Q.
Proof.
  intros Hi. unfold fdiv.
  assert (Ei := of_int_exact (Z.of_nat i) ltac:(lia)).
  assert (En := of_int_exact (Z.of_nat n) ltac:(lia)).
  assert (Hn : (0 < inject_Z (Z.of_nat n))%Q).
  { change 0%Q with (inject_Z 0). rewrite <- Zlt_Qlt. lia. }
  pose proof (inject_nat_pos i) as Hi0.
  assert (Hq : (0 <= of_int (Z.of_nat i) / of_int (Z.of_nat n))%Q).
  { rewrite Ei, En. apply Qle_shift_div_l; [exact Hn|]. Lqa.lra. }
  split; [apply b64_nonneg; exact Hq|].
  apply b64_le_double; [exact Hq| |apply b64_below_one].
  rewrite Ei, En. apply Qle_shift_div_r; [exact Hn|].
  pose proof (inv_n_ulp ltac:(lia)) as Hu.
  assert (Hinv : (/ inject_Z (Z.of_nat n) * inject_Z (Z.of_nat n) == 1)%Q).
  { rewrite Qmult_comm. apply Qmult_inv_r. Lqa.lra. }
  assert (Hle : (inject_Z (Z.of_nat i) + 1 <= inject_Z (Z.of_nat n))%Q).
  { change 1%Q with (inject_Z 1). rewrite <- inject_Z_plus, <- Zle_Qle. lia. }
  Lqa.nra.
Qed.

Lemma cdf_mono (i j : nat) :
  (i <= j)%nat -> (j < n)%nat ->
  (fdiv (of_int (Z.of_nat i)) (of_int (Z.of_nat n)) <=
   fdiv (of_int (Z.of_nat j)) (of_int (Z.of_nat n)))%Q.
Proof.
  intros Hij Hj. unfold fdiv.
  assert (Ei := of_int_exact (Z.of_nat i) ltac:(lia)).
  assert (Ej := of_int_exact (Z.of_nat j) ltac:(lia)).
  assert (En := of_int_exact (Z.of_nat n) ltac:(lia)).
  assert (Hn : (0 < inject_Z (Z.of_nat n))%Q).
  { change 0%Q with (inject_Z 0). rewrite <- Zlt_Qlt. lia. }
  pose proof (inject_nat_pos i) as Hi0.
  apply b64_mono.
  - rewrite Ei, En. apply Qle_shift_div_l; [exact Hn|]. Lqa.lra.
  - rewrite Ei, Ej, En. unfold Qdiv. apply Qmult_le_compat_r.
    + rewrite <- Zle_Qle. lia.
    + apply Qlt_le_weak, Qinv_lt_0_compat, Hn.
Qed.

(** The denominator [n * (1 - i / n)] is positive, at most [n], and does
    not grow with the rank. *)
Lemma plotting_denominator_bounds (i : nat) :
  (i < n)%nat ->
  (ulp <= plotting_denominator n i)%Q /\
  (plotting_denominator n i <= inject_Z (Z.of_nat n))%Q.
Proof.
  intros Hi. unfold plotting_denominator, fmul, fsub.
  destruct (cdf_bounds i Hi) as [F0 F1].
  set (f := fdiv _ _) in *.
  assert (En := of_int_exact (Z.of_nat n) ltac:(lia)).
  assert (Hn : (1 <= inject_Z (Z.of_nat n))%Q).
  { change 1%Q with (inject_Z 1). rewrite <- Zle_Qle. lia. }
  assert (Hu : (0 < ulp)%Q) by reflexivity.
  assert (G0 : (ulp <= b64 (1 - f))%Q).
  { apply b64_ge_double; [discriminate| |apply b64_ulp]. Lqa.lra. }
  assert (G1 : (b64 (1 - f) <= 1)%Q).
  { apply b64_le_double; [| |apply b64_one]; Lqa.lra. }
  split.
  - apply b64_ge_double; [discriminate| |apply b64_ulp].
    rewrite En. Lqa.nra.
  - apply b64_le_double; [| |apply b64_int; lia]; rewrite En; Lqa.nra.
Qed.

Lemma plotting_denominator_antitone (i j : nat) :
  (i <= j)%nat -> (j < n)%nat ->
  (plotting_denominator n j <= plotting_denominator n i)%Q.
Proof.
  intros Hij Hj. unfold plotting_denominator, fmul, fsub.
  pose proof (cdf_mono i j Hij Hj) as Hf.
  destruct (cdf_bounds i ltac:(lia)) as [Fi0 Fi1].
  destruct (cdf_bounds j Hj) as [Fj0 Fj1].
  set (fi := fdiv (of_int (Z.of_nat i)) _) in *.
  set (fj := fdiv (of_int (Z.of_nat j)) _) in *.
  assert (En := of_int_exact (Z.of_nat n) ltac:(lia)).
  assert (Hn : (1 <= inject_Z (Z.of_nat n))%Q).
  { change 1%Q with (inject_Z 1). rewrite <- Zle_Qle. lia. }
  assert (Hu : (0 < ulp)%Q) by reflexivity.
  assert (G : (b64 (1 - fj) <= b64 (1 - fi))%Q)
    by (apply b64_mono; Lqa.lra).
  assert (G0 : (0 <= b64 (1 - fj))%Q) by (apply b64_nonneg; Lqa.lra).
  apply b64_mono; rewrite En; Lqa.nra.
Qed.

Variable blocks : Z.
Hypothesis blocks_nonneg : 0 <= blocks.

Lemma of_int_blocks : (1 <= of_int (blocks + 1))%Q.
Proof.
  apply b64_ge_double; [discriminate| |apply b64_one].
  change 1%Q with (inject_Z 1). rewrite <- Zle_Qle. lia.
Qed.

(** Every return period is positive. *)
Lemma plotting_position_double_pos (i : nat) :
  (i < n)%nat -> (0 < plotting_position_double blocks n i)%Q.
Proof.
  intros Hi. unfold plotting_position_double, fdiv.
  destruct (plotting_denominator_bounds i Hi) as [D0 D1].
  pose proof of_int_blocks as HA.
  set (A := of_int (blocks + 1)) in *. set (D := plotting_denominator n i) in *.
  assert (Hu : (0 < ulp)%Q) by reflexivity.
  assert (Hn : (inject_Z (Z.of_nat n) <= inject_Z (2 ^ 53))%Q).
  { rewrite <- Zle_Qle. lia. }
  apply Qlt_le_trans with (y := ulp); [exact Hu|].
  apply b64_ge_double; [discriminate| |apply b64_ulp].
  apply Qle_shift_div_l; [Lqa.lra|].
  assert (H53 : (ulp * inject_Z (2 ^ 53) == 1)%Q) by (vm_compute; reflexivity).
  Lqa.nra.
Qed.

(** The return period does not go down with the rank. *)
Lemma plotting_position_double_mono (i j : nat) :
  (i <= j)%nat -> (j < n)%nat ->
  (plotting_position_double blocks n i <=
   plotting_position_double blocks n j)%Q.
Proof.
  intros Hij Hj. unfold plotting_position_double, fdiv.
  pose proof (plotting_denominator_antitone i j Hij Hj) as Hd.
  destruct (plotting_denominator_bounds i ltac:(lia)) as [Di0 _].
  destruct (plotting_denominator_bounds j Hj) as [Dj0 _].
  pose proof of_int_blocks as HA.
  set (A := of_int (blocks + 1)) in *.
  set (Di := plotting_denominator n i) in *.
  set (Dj := plotting_denominator n j) in *.
  assert (Hu : (0 < ulp)%Q) by reflexivity.
  apply b64_mono.
  - apply Qle_shift_div_l; [Lqa.lra|]. Lqa.lra.
  - apply Qle_shift_div_l; [Lqa.lra|].
    assert (E : (A / Di * Dj == A * (Dj / Di))%Q) by (field; Lqa.lra).
    rewrite E.
    assert (H1 : (Dj / Di <= 1)%Q).
    { apply Qle_shift_div_r; [Lqa.lra|]. Lqa.lra. }
    assert (H2 : (0 <= Dj / Di)%Q).
    { apply Qle_shift_div_l; [Lqa.lra|]. Lqa.lra. }
    Lqa.nra.
Qed.

End PlottingPosition.

(** ** Declustering, one event at a time *)

Lemma decluster_loop_snoc (r : Z) (l : list (time * Q)) :
  forall done cur e,
  exists d c,
    Core.decluster_loop r done cur l = d ++ [c] /\
    Core.decluster_loop r done cur (l ++ [e]) =
      (if r <=? fst e - fst c then d ++ [c; e]
       else if Qltb (snd c) (snd e) then d ++ [e] else d ++ [c]).
Proof.
  induction l as [|x l IH]; intros done cur e; simpl.
  - exists done, cur. split; [reflexivity|].
    destruct (r <=? fst e - fst cur).
    + rewrite <- app_assoc. reflexivity.
    + destruct (Qltb (snd cur) (snd e)); reflexivity.
  - destruct (r <=? fst x - fst cur); [apply IH|].
    destruct (Qltb (snd cur) (snd x)); apply IH.
Qed.

(** C1.  Declustering is a single forward pass against the last retained
    event: when the events seen so far are declustered to [done ++ [cur]],
    a further event [e] starts a new cluster if it is [r] or more after
    [cur], and otherwise joins the cluster of [cur], replacing [cur] only
    if its value is strictly greater.  On the two-year hourly scenario, POT
    extraction with u = 10 and r = 24 hours returns exactly one event, of
    value 13. *)
Theorem pot_declustering_policy :
  (forall r sel e done cur,
     Core.decluster r sel = Ret (done ++ [cur]) ->
     Core.decluster r (sel ++ [e]) =
       Ret (if r <=? fst e - fst cur then done ++ [cur; e]
            else if Qltb (snd cur) (snd e) then done ++ [e]
            else done ++ [cur])) /\
  fst scenario_run = Ret tt /\
  Core.extremes (fst (snd scenario_run)) =
    Core.Ranked [(datetime 2001 1 11 1, 13%Q, 3%Q)].
Proof.
  split.
  - intros r sel e done cur H.
    destruct sel as [|x l]; [discriminate|].
    unfold Core.decluster in *. rewrite <- app_comm_cons.
    destruct (decluster_loop_snoc r l [] x e) as (d & c & H1 & H2).
    rewrite H1 in H. injection H as H.
    apply app_inj_tail in H as [-> ->]. rewrite H2. reflexivity.
  - split; vm_compute; reflexivity.
Qed.

Lemma pot_declustering_policy_witness :
  Core.decluster 24 [(0, 12%Q); (1, 13%Q); (30, 5%Q)] =
    Ret [(1, 13%Q); (30, 5%Q)].
Proof.
  apply (proj1 pot_declustering_policy 24 [(0, 12%Q); (1, 13%Q)] (30, 5%Q)
               [] (1, 13%Q)).
  reflexivity.
Defined.

(** ** Running POT extraction *)

Lemma pot_run (self : Core.EVA) (st : store) (u r : Q) (decl : bool)
      (col : list (time * float64)) :
  numeric_column (deref st (Core.data self)) = Some col ->
  pot u r decl (self, st) =
    let sel := select_gt u col in
    if decl then
      if timedelta_in_range r then
        match sel with
        | [] => (Raise IndexError,
                 (after_pot self (Core.Peaks []) (Core.threshold self), st))
        | e :: l =>
            (Ret tt,
             (after_pot self
                (Core.Ranked
                   (Core.rank (Core.N self)
                      (Core.decluster_loop (timedelta_hours r) [] e l)))
                (Some u), st))
        end
      else
        (Raise OverflowError,
         (after_pot self (Core.Peaks sel) (Core.threshold self), st))
    else
      (Ret tt,
       (after_pot self (Core.Ranked (Core.rank (Core.N self) sel)) (Some u), st)).
Proof.
  intros H. unfold pot, Core.get_extremes, Core.bind, Core.column, timedelta.
  cbn -[timedelta_in_range timedelta_hours]. rewrite H.
  cbn -[timedelta_in_range timedelta_hours].
  destruct decl; cbn -[timedelta_in_range timedelta_hours].
  - destruct (timedelta_in_range r); cbn -[timedelta_hours]; [|reflexivity].
    destruct (select_gt u col) eqn:E; cbn -[timedelta_hours]; reflexivity.
  - reflexivity.
Qed.

Lemma pot_not_numeric (self : Core.EVA) (st : store) (u r : Q) (decl : bool) :
  numeric_column (deref st (Core.data self)) = None ->
  fst (pot u r decl (self, st)) =
    Raise (TypeError "'>' not supported between instances").
Proof.
  intros H. unfold pot, Core.get_extremes, Core.bind, Core.column. cbn.
  rewrite H. reflexivity.
Qed.

(** ** Selection *)

Lemma select_In (p : Q -> bool) (l : list (time * float64)) t q :
  In (t, q) (select p l) <-> In (t, Fin q) l /\ p q = true.
Proof.
  induction l as [|[t' [q'|]] l IH]; simpl.
  - tauto.
  - destruct (p q') eqn:E; simpl; rewrite IH; split.
    + intros [H|H]; [inversion H; subst; auto|tauto].
    + intros [[H|H] Hp]; [inversion H; subst; auto|auto].
    + tauto.
    + intros [[H|H] Hp]; [inversion H; subst; congruence|auto].
  - rewrite IH. split; [tauto|]. intros [[H|H] Hp]; [discriminate|auto].
Qed.

Lemma select_nil (p : Q -> bool) (l : list (time * float64)) :
  (forall t q, In (t, Fin q) l -> p q = false) -> select p l = [].
Proof.
  intros H. destruct (select p l) as [|[t q] s] eqn:E; [reflexivity|].
  assert (Hin : In (t, q) (select p l)) by (rewrite E; left; reflexivity).
  apply select_In in Hin as [Hin Hp]. rewrite (H _ _ Hin) in Hp. discriminate.
Qed.

Lemma select_gt_narrow (u1 u2 : Q) (l : list (time * float64)) :
  (u1 < u2)%Q ->
  select_gt u2 l = List.filter (above u2) (select_gt u1 l).
Proof.
  intros Hu. unfold select_gt, above.
  induction l as [|[t [q|]] l IH]; simpl; auto.
  destruct (Qltb u2 q) eqn:E2.
  - assert (E1 : Qltb u1 q = true).
    { apply Qltb_lt. apply Qltb_lt in E2. eapply Qlt_trans; eauto. }
    rewrite E1. simpl. rewrite E2. f_equal. exact IH.
  - destruct (Qltb u1 q); simpl; [rewrite E2|]; exact IH.
Qed.

Lemma numeric_column_In (fr : frame) (col : list (time * float64)) t x :
  numeric_column fr = Some col -> In (t, x) col -> In (t, Num x) fr.
Proof.
  revert col. induction fr as [|[t' [x'|s]] fr IH]; simpl; intros col H Hin.
  - injection H as <-. destruct Hin.
  - destruct (numeric_column fr) as [l|]; [|discriminate].
    injection H as <-. destruct Hin as [Hin|Hin].
    + injection Hin as -> ->. left. reflexivity.
    + right. eapply IH; eauto.
  - discriminate.
Qed.

Lemma numeric_column_ascending (fr : frame) (col : list (time * float64)) :
  numeric_column fr = Some col -> ascending fr -> ascending col.
Proof.
  unfold ascending. revert col.
  induction fr as [|[t [x|s]] fr IH]; simpl; intros col H Hs.
  - injection H as <-. constructor.
  - destruct (numeric_column fr) as [l|] eqn:E; [|discriminate].
    injection H as <-. apply StronglySorted_inv in Hs as [H1 H2].
    constructor; [apply IH; auto|].
    apply List.Forall_forall. intros [t' x'] Hin.
    rewrite List.Forall_forall in H2.
    exact (H2 _ (numeric_column_In fr l t' x' E Hin)).
  - discriminate.
Qed.

Lemma select_ascending (p : Q -> bool) (l : list (time * float64)) :
  ascending l -> ascending (select p l).
Proof.
  unfold ascending. induction l as [|[t [q|]] l IH]; simpl; intros H.
  - constructor.
  - apply StronglySorted_inv in H as [H1 H2].
    destruct (p q); [|auto].
    constructor; [auto|].
    apply List.Forall_forall. intros [t' q'] Hin.
    apply select_In in Hin as [Hin _].
    rewrite List.Forall_forall in H2. exact (H2 _ Hin).
  - apply StronglySorted_inv in H as [H1 H2]. auto.
Qed.

(** ** Declustering as a fold *)

Lemma decluster_loop_fold (r : Z) (l : list (time * Q)) :
  forall done cur,
    Core.decluster_loop r done cur l =
      rev (fold_left (decluster_step r) l (cur :: rev done)).
Proof.
  induction l as [|e l IH]; intros done cur; simpl.
  - rewrite rev_involutive. reflexivity.
  - destruct (r <=? fst e - fst cur).
    + rewrite IH, rev_unit. reflexivity.
    + destruct (Qltb (snd cur) (snd e)); apply IH.
Qed.

Lemma decluster_fold (r : Z) (e : time * Q) (l : list (time * Q)) :
  Core.decluster_loop r [] e l = rev (fold_left (decluster_step r) (e :: l) []).
Proof. apply decluster_loop_fold. Qed.

Lemma above_false_le (u : Q) (x e : time * Q) :
  above u x = false -> above u e = true -> Qltb (snd x) (snd e) = true.
Proof.
  unfold above. intros Hx He. apply Qltb_lt. apply Qltb_lt in He.
  apply Qltb_ge in Hx. eapply Qle_lt_trans; eauto.
Qed.

Lemma above_replace (u : Q) (x e : time * Q) :
  above u e = false -> Qltb (snd x) (snd e) = true -> above u x = false.
Proof.
  unfold above. intros He Hlt. apply Qltb_ge. apply Qltb_ge in He.
  apply Qltb_lt in Hlt. apply Qlt_le_weak. eapply Qlt_le_trans; eauto.
Qed.

(** One step keeps the stack anchored and below the events to come. *)
Lemma decluster_step_anchored (r : Z) (s : list (time * Q)) (e : time * Q) :
  anchored r s -> Forall (fun x => fst x <= fst e) s ->
  anchored r (decluster_step r s e).
Proof.
  destruct s as [|cur rest]; simpl; intros Ha Hle; [constructor|].
  inversion Hle as [|? ? Hcur Hrest]; subst.
  destruct (r <=? fst e - fst cur) eqn:E.
  - simpl. constructor; [apply Z.leb_le in E; exact E|].
    eapply List.Forall_impl; [|exact Ha]. cbn beta. intros x Hx. lia.
  - destruct (Qltb (snd cur) (snd e)); simpl; [|exact Ha].
    eapply List.Forall_impl; [|exact Ha]. cbn beta. intros x Hx. lia.
Qed.

Lemma decluster_step_In (r : Z) (s : list (time * Q)) (e x : time * Q) :
  In x (decluster_step r s e) -> x = e \/ In x s.
Proof.
  destruct s as [|cur rest]; simpl.
  - intros [H|[]]; auto.
  - destruct (r <=? fst e - fst cur).
    + simpl. intros [H|H]; auto.
    + destruct (Qltb (snd cur) (snd e)); simpl; intros H; [|auto].
      destruct H; auto.
Qed.

(** Dropping the events that are not above [u] commutes with one step. *)
Lemma decluster_step_filter (r : Z) (u : Q) (s : list (time * Q))
      (e : time * Q) :
  anchored r s -> Forall (fun x => fst x <= fst e) s ->
  List.filter (above u) (decluster_step r s e) =
    if above u e
    then decluster_step r (List.filter (above u) s) e
    else List.filter (above u) s.
Proof.
  destruct s as [|cur rest]; intros Ha Hle.
  - simpl. destruct (above u e); reflexivity.
  - inversion Hle as [|? ? Hcur Hrest]; subst. simpl in Ha.
    cbn [decluster_step List.filter].
    destruct (above u e) eqn:He; destruct (above u cur) eqn:Hc.
    + cbn [decluster_step].
      destruct (r <=? fst e - fst cur); [simpl; rewrite He, Hc; reflexivity|].
      destruct (Qltb (snd cur) (snd e)); simpl; rewrite ?He, ?Hc; reflexivity.
    + assert (Hnew : List.filter (above u) (decluster_step r (cur :: rest) e)
                     = e :: List.filter (above u) rest).
      { simpl. destruct (r <=? fst e - fst cur).
        - simpl. rewrite He, Hc. reflexivity.
        - rewrite (above_false_le u cur e Hc He). simpl. rewrite He.
          reflexivity. }
      cbn [decluster_step] in Hnew. rewrite Hnew.
      destruct (List.filter (above u) rest) as [|top below] eqn:Ef;
        [reflexivity|].
      assert (Hin : In top rest).
      { assert (H : In top (List.filter (above u) rest))
          by (rewrite Ef; left; reflexivity).
        apply filter_In in H. tauto. }
      rewrite List.Forall_forall in Ha, Hrest.
      specialize (Ha _ Hin). simpl.
      assert (E : (r <=? fst e - fst top) = true) by (apply Z.leb_le; lia).
      rewrite E. reflexivity.
    + destruct (r <=? fst e - fst cur); [simpl; rewrite He, Hc; reflexivity|].
      destruct (Qltb (snd cur) (snd e)) eqn:Hlt; simpl; rewrite ?He, ?Hc;
        try reflexivity.
      rewrite (above_replace u cur e He Hlt) in Hc. discriminate.
    + destruct (r <=? fst e - fst cur); [simpl; rewrite He, Hc; reflexivity|].
      destruct (Qltb (snd cur) (snd e)); simpl; rewrite ?He, ?Hc; reflexivity.
Qed.

Lemma decluster_fold_filter (r : Z) (u : Q) (l : list (time * Q)) :
  forall s,
    ascending l -> anchored r s ->
    Forall (fun x => Forall (fun e => fst x <= fst e) l) s ->
    List.filter (above u) (fold_left (decluster_step r) l s) =
      fold_left (decluster_step r) (List.filter (above u) l)
                (List.filter (above u) s).
Proof.
  induction l as [|e l IH]; intros s Hl Ha Hs; [reflexivity|].
  apply StronglySorted_inv in Hl as [Hl He].
  assert (Hse : Forall (fun x => fst x <= fst e) s).
  { eapply List.Forall_impl; [|exact Hs]. cbn beta. intros x Hx.
    inversion Hx; assumption. }
  cbn [fold_left List.filter]. rewrite IH.
  - rewrite (decluster_step_filter r u s e Ha Hse).
    destruct (above u e); reflexivity.
  - exact Hl.
  - apply decluster_step_anchored; assumption.
  - apply List.Forall_forall. intros x Hx.
    apply decluster_step_In in Hx as [->|Hx].
    + exact He.
    + rewrite List.Forall_forall in Hs. specialize (Hs _ Hx).
      inversion Hs; assumption.
Qed.

(** On an ascending selection, declustering the events above [u] gives the
    declustered events that are above [u]. *)
Lemma decluster_filter_count (r : Z) (u : Q) (l : list (time * Q)) :
  ascending l ->
  (length (fold_left (decluster_step r) (List.filter (above u) l) []) <=
   length (fold_left (decluster_step r) l []))%nat.
Proof.
  intros Hl.
  pose proof (decluster_fold_filter r u l [] Hl I (List.Forall_nil _)) as H.
  simpl in H. rewrite <- H. apply filter_length_le.
Qed.

(** ** Sorting *)

Section SortingFacts.
Context {A : Type} (leb : A -> A -> bool).

Lemma insert_sorted_perm (x : A) (l : list A) :
  Permutation (insert_sorted leb x l) (x :: l).
Proof.
  induction l as [|y l IH]; simpl; [reflexivity|].
  destruct (leb x y); [reflexivity|].
  rewrite IH. apply perm_swap.
Qed.

Lemma sort_by_perm (l : list A) : Permutation (sort_by leb l) l.
Proof.
  induction l as [|x l IH]; simpl; [reflexivity|].
  rewrite insert_sorted_perm, IH. reflexivity.
Qed.

Lemma sort_by_length (l : list A) : length (sort_by leb l) = length l.
Proof. apply Permutation_length, sort_by_perm. Qed.

Hypothesis leb_total : forall a b, leb a b = true \/ leb b a = true.
Hypothesis leb_trans :
  forall a b c, leb a b = true -> leb b c = true -> leb a c = true.

Lemma insert_sorted_sorted (x : A) (l : list A) :
  StronglySorted (fun a b => leb a b = true) l ->
  StronglySorted (fun a b => leb a b = true) (insert_sorted leb x l).
Proof.
  induction l as [|y l IH]; simpl; intros H.
  - constructor; constructor.
  - apply StronglySorted_inv in H as [H1 H2].
    destruct (leb x y) eqn:E.
    + constructor; [constructor; assumption|].
      constructor; [assumption|].
      eapply List.Forall_impl; [|exact H2]. cbn beta. intros z Hz.
      eapply leb_trans; eauto.
    + constructor; [auto|].
      apply List.Forall_forall. intros z Hz.
      apply (Permutation_in _ (insert_sorted_perm x l)) in Hz.
      destruct Hz as [<-|Hz].
      * destruct (leb_total x y) as [H|H]; congruence.
      * rewrite List.Forall_forall in H2. auto.
Qed.

Lemma sort_by_sorted (l : list A) :
  StronglySorted (fun a b => leb a b = true) (sort_by leb l).
Proof.
  induction l as [|x l IH]; simpl; [constructor|].
  apply insert_sorted_sorted, IH.
Qed.
End SortingFacts.

Lemma return_periods_length (years : Z) (n : nat) :
  length (Core.return_periods years n) = n.
Proof.
  unfold Core.return_periods, Core.cdf.
  rewrite !List.length_map, List.length_seq. reflexivity.
Qed.

Lemma rank_length (years : Z) (rows : list (time * Q)) :
  length (Core.rank years rows) = length rows.
Proof.
  unfold Core.rank.
  rewrite sort_by_length, List.length_combine, return_periods_length.
  rewrite Nat.min_id. apply sort_by_length.
Qed.

(** C9.  When no sample exceeds the threshold, POT extraction with
    declustering does not return an empty event set: it raises, leaving
    the empty selection in [self.extremes].  The exception is IndexError,
    from the first element of the empty selection, whenever
    [datetime.timedelta(hours=r)] can be built; for a run length beyond
    the range of [timedelta] that constructor, which runs first, raises
    OverflowError. *)
Theorem pot_declustered_empty_raises (self : Core.EVA) (st : store)
        (u r : Q) (col : list (time * float64)) :
  numeric_column (deref st (Core.data self)) = Some col ->
  (forall t q, In (t, Fin q) col -> (q <= u)%Q) ->
  pot u r true (self, st) =
    (Raise (if timedelta_in_range r then IndexError else OverflowError),
     (after_pot self (Core.Peaks []) (Core.threshold self), st)).
Proof.
  intros Hcol Hle. rewrite (pot_run self st u r true col Hcol). cbn zeta.
  assert (E : select_gt u col = []).
  { apply select_nil. intros t q Hin. apply Qltb_ge. eauto. }
  rewrite E. destruct (timedelta_in_range r); reflexivity.
Qed.

Lemma pot_declustered_empty_raises_witness :
  pot 20 24 true (fst short_state, snd short_state) =
    (Raise (if timedelta_in_range 24 then IndexError else OverflowError),
     (after_pot (fst short_state) (Core.Peaks [])
                (Core.threshold (fst short_state)), snd short_state)).
Proof.
  apply (pot_declustered_empty_raises (fst short_state) (snd short_state)
           20 24
           [(datetime 2001 3 1 0, Fin 11); (datetime 2001 3 2 0, Fin 4);
            (datetime 2001 3 8 0, Fin 13)]).
  - vm_compute. reflexivity.
  - intros t q [H|[H|[H|[]]]]; injection H as <- <-; vm_compute; discriminate.
Defined.

(** On [short_frame], whose values are all below 20: IndexError for the
    run length of 24 hours, OverflowError for one of 24 000 000 000 hours
    (a thousand million days). *)
Lemma pot_declustered_empty_runs :
  fst (pot 20 24 true short_state) = Raise IndexError /\
  fst (pot 20 24000000000 true short_state) = Raise OverflowError.
Proof. split; vm_compute; reflexivity. Qed.

(** C3, as the code has it.  Raising the threshold never raises the number
    of events POT extraction returns: whenever the extraction at the higher
    threshold [u2] returns, so does the one at [u1], with at least as many
    events.  Without declustering this holds for every record; with
    declustering (same run length) it holds for a record in ascending
    order of time, an order the constructor does not establish. *)
Theorem pot_count_antitone (self : Core.EVA) (st : store) (u1 u2 r : Q)
        (decl : bool) :
  (decl = true -> ascending (deref st (Core.data self))) ->
  (u1 < u2)%Q ->
  fst (pot u2 r decl (self, st)) = Ret tt ->
  fst (pot u1 r decl (self, st)) = Ret tt /\
  Core.len_extremes (fst (snd (pot u2 r decl (self, st)))) <=
  Core.len_extremes (fst (snd (pot u1 r decl (self, st)))).
Proof.
  intros Hasc Hu H2.
  destruct (numeric_column (deref st (Core.data self))) as [col|] eqn:Hcol.
  - rewrite (pot_run self st u2 r decl col Hcol) in *.
    rewrite (pot_run self st u1 r decl col Hcol). cbn zeta in *.
    pose proof (select_gt_narrow u1 u2 col Hu) as Hsel.
    destruct decl.
    + assert (Hs1 : ascending (select_gt u1 col)).
      { apply select_ascending. eapply numeric_column_ascending; eauto. }
      destruct (timedelta_in_range r); [|discriminate].
      destruct (select_gt u2 col) as [|e2 l2] eqn:E2; [discriminate|].
      destruct (select_gt u1 col) as [|e1 l1] eqn:E1; [discriminate|].
      split; [reflexivity|]. cbn.
      rewrite !rank_length, !decluster_fold, !length_rev.
      apply Nat2Z.inj_le. rewrite Hsel.
      apply decluster_filter_count. exact Hs1.
    + split; [reflexivity|]. cbn. rewrite !rank_length.
      apply Nat2Z.inj_le. rewrite Hsel. apply filter_length_le.
  - rewrite (pot_not_numeric self st u2 r decl Hcol) in H2. discriminate.
Qed.

Lemma pot_count_antitone_witness :
  fst (pot 5 24 true (fst short_state, snd short_state)) = Ret tt /\
  Core.len_extremes
    (fst (snd (pot 12 24 true (fst short_state, snd short_state)))) <=
  Core.len_extremes
    (fst (snd (pot 5 24 true (fst short_state, snd short_state)))).
Proof.
  apply (pot_count_antitone (fst short_state) (snd short_state) 5 12 24 true).
  - intros _. vm_compute. repeat constructor; discriminate.
  - reflexivity.
  - vm_compute. reflexivity.
Defined.

(** C3 as stated, for every time series, fails with declustering: on
    [unordered_frame], whose six samples are not in the order of time, the
    extractions with a run length of 6 hours at the thresholds 0 and 3
    both return, with 2 events at threshold 0 and 3 events at threshold
    3. *)
Lemma pot_count_antitone_counterexample :
  (0 < 3)%Q /\
  fst (pot 0 6 true unordered_state) = Ret tt /\
  fst (pot 3 6 true unordered_state) = Ret tt /\
  Core.len_extremes (fst (snd (pot 0 6 true unordered_state))) = 2 /\
  Core.len_extremes (fst (snd (pot 3 6 true unordered_state))) = 3 /\
  Core.extremes (fst (snd (pot 3 6 true unordered_state))) =
    Core.Ranked [(datetime 2001 1 1 2, 5,
                  6004799503160661 # 9007199254740992);
                 (datetime 2001 1 1 3, 7, 1); (datetime 2001 1 1 9, 8, 2)]%Q.
Proof. repeat split; vm_compute; reflexivity. Qed.

(** ** The error contract of [get_extremes] *)

Lemma get_extremes_unknown_method (m : string) (kw : kwargs) (s : Core.state) :
  m <> "POT"%string -> m <> "BM"%string ->
  Core.get_extremes m kw s =
    (Raise (ValueError
       "Unrecognized extremes parsing method. Use POT or BM methods."), s).
Proof.
  intros H1 H2. unfold Core.get_extremes, Core.bind.
  apply String.eqb_neq in H1, H2. rewrite H1, H2. reflexivity.
Qed.

Lemma get_extremes_pot_unrecognized (kw : kwargs) (s : Core.state) :
  left_over_pot kw <> [] ->
  fst (Core.get_extremes "POT" kw s) =
    Raise (AssertionError (Core.unrecognized (left_over_pot kw))).
Proof.
  intros H. unfold Core.get_extremes, Core.bind, left_over_pot in *. cbn.
  unfold Core.assert_empty.
  destruct (remove_kw "decluster" (remove_kw "r" (remove_kw "u" kw)));
    [congruence|reflexivity].
Qed.

Lemma get_extremes_bm_unrecognized (kw : kwargs) (s : Core.state) :
  left_over_bm kw <> [] ->
  fst (Core.get_extremes "BM" kw s) =
    Raise (AssertionError (Core.unrecognized (left_over_bm kw))).
Proof.
  intros H. unfold Core.get_extremes, Core.bind, left_over_bm in *. cbn.
  unfold Core.assert_empty.
  destruct (remove_kw "block" kw); [congruence|reflexivity].
Qed.

Lemma get_extremes_bm_block (b : pyval) (s : Core.state) :
  is_str "Y" b = false ->
  fst (Core.get_extremes "BM" [("block", b)]%string s) =
    if is_str "M" b || is_str "W" b
    then Raise (NotImplementedError "Not yet implemented")
    else Raise (ValueError "Unrecognized block size").
Proof.
  intros HY. unfold Core.get_extremes, Core.bind. cbn. rewrite HY.
  destruct (is_str "M" b); [reflexivity|].
  destruct (is_str "W" b); reflexivity.
Qed.

(** C7, as the code has it.  An unknown method raises ValueError.  Keyword
    arguments other than those of the method raise AssertionError, with a
    message that lists them.  With method BM and no other keyword, block
    'M' or 'W' raises NotImplementedError, and any other block than 'Y'
    raises ValueError. *)
Theorem get_extremes_error_contract (s : Core.state) :
  (forall m kw,
     m <> "POT"%string -> m <> "BM"%string ->
     fst (Core.get_extremes m kw s) =
       Raise (ValueError
         "Unrecognized extremes parsing method. Use POT or BM methods.")) /\
  (forall kw,
     left_over_pot kw <> [] ->
     fst (Core.get_extremes "POT" kw s) =
       Raise (AssertionError
         ("unrecognized arguments passed in: " ++
          join ", " (map fst (left_over_pot kw))))) /\
  (forall kw,
     left_over_bm kw <> [] ->
     fst (Core.get_extremes "BM" kw s) =
       Raise (AssertionError
         ("unrecognized arguments passed in: " ++
          join ", " (map fst (left_over_bm kw))))) /\
  (forall b,
     b = PStr "M" \/ b = PStr "W" ->
     fst (Core.get_extremes "BM" [("block", b)]%string s) =
       Raise (NotImplementedError "Not yet implemented")) /\
  (forall b,
     is_str "Y" b = false -> is_str "M" b = false -> is_str "W" b = false ->
     fst (Core.get_extremes "BM" [("block", b)]%string s) =
       Raise (ValueError "Unrecognized block size")).
Proof.
  repeat split.
  - intros m kw H1 H2. rewrite get_extremes_unknown_method; auto.
  - intros kw H. exact (get_extremes_pot_unrecognized kw s H).
  - intros kw H. exact (get_extremes_bm_unrecognized kw s H).
  - intros b [-> | ->]; rewrite get_extremes_bm_block; reflexivity.
  - intros b HY HM HW. rewrite get_extremes_bm_block, ?HM, ?HW; auto.
Qed.

Lemma get_extremes_error_contract_witness :
  fst (Core.get_extremes "POT" [("u", PNum 10); ("window", PNum 3)]%string
         short_state) =
    Raise (AssertionError "unrecognized arguments passed in: window").
Proof.
  apply (proj1 (proj2 (get_extremes_error_contract short_state))
           [("u", PNum 10); ("window", PNum 3)]%string).
  vm_compute. discriminate.
Defined.

(** C7 as stated fails: a block other than 'Y', 'M' and 'W' raises
    ValueError, not NotImplementedError, and an unknown keyword raises
    AssertionError, not ValueError. *)
Lemma get_extremes_error_contract_counterexample :
  fst (Core.get_extremes "BM" [("block", PStr "D")]%string short_state) =
    Raise (ValueError "Unrecognized block size") /\
  is_NotImplementedError
    (fst (Core.get_extremes "BM" [("block", PStr "D")]%string short_state)) =
    false /\
  fst (Core.get_extremes "POT" [("window", PNum 3)]%string short_state) =
    Raise (AssertionError "unrecognized arguments passed in: window") /\
  is_ValueError
    (fst (Core.get_extremes "POT" [("window", PNum 3)]%string short_state)) =
    false.
Proof. repeat split; vm_compute; reflexivity. Qed.

(** ** The store *)

Lemma alloc_fresh (fr : frame) (st : store) : st !! fst (alloc fr st) = None.
Proof.
  unfold alloc. simpl. apply not_elem_of_dom. apply is_fresh.
Qed.

Lemma alloc_new (fr : frame) (st : store) :
  deref (snd (alloc fr st)) (fst (alloc fr st)) = fr.
Proof.
  unfold alloc, deref. simpl. rewrite lookup_insert_eq. reflexivity.
Qed.

Lemma alloc_old (fr : frame) (st : store) (l : positive) :
  is_Some (st !! l) -> snd (alloc fr st) !! l = st !! l.
Proof.
  intros H. unfold alloc. simpl. apply lookup_insert_ne.
  intros E. rewrite <- E in H. 
  pose proof (alloc_fresh fr st) as F. unfold alloc in F. simpl in F.
  rewrite F in H. destruct H. discriminate.
Qed.

Lemma rebind_filtered_new (p : cell -> bool) (ls : positive * store) :
  deref (snd (Core.rebind_filtered p ls)) (fst (Core.rebind_filtered p ls)) =
    List.filter (fun row => p (snd row)) (deref (snd ls) (fst ls)).
Proof. apply alloc_new. Qed.

Lemma rebind_filtered_old (p : cell -> bool) (ls : positive * store)
      (l : positive) :
  is_Some (snd ls !! l) -> snd (Core.rebind_filtered p ls) !! l = snd ls !! l.
Proof. apply alloc_old. Qed.

Lemma filter_filter {A} (p q : A -> bool) (l : list A) :
  List.filter q (List.filter p l) = List.filter (fun x => p x && q x) l.
Proof.
  induction l as [|x l IH]; simpl; [reflexivity|].
  destruct (p x); simpl; [destruct (q x)|]; rewrite ?IH; reflexivity.
Qed.

Lemma filter_coerced (fr : frame) :
  List.filter
    (fun row =>
       Core.cell_ne (snd row) lit_999_999 &&
       (Core.cell_ne (snd row) lit_999_9 &&
        (Core.cell_ne (snd row) lit_999 && Core.cell_notnull (snd row))))
    (coerced fr) =
  List.filter kept fr.
Proof.
  unfold coerced, kept, sentinel.
  induction fr as [|[t [[q|]|s]] fr IH]; simpl; rewrite ?IH; try reflexivity.
  destruct (Qeq_bool q lit_999_999), (Qeq_bool q lit_999_9),
    (Qeq_bool q lit_999); reflexivity.
Qed.

(** What construction does to the store and to [self.data]. *)
Lemma init_handle_nans (df : positive) (st : store) (o : Core.EVA)
      (st' : store) :
  Core.init df true st = (Ret o, st') ->
  is_Some (st !! df) /\
  deref st' (Core.data o) = List.filter kept (deref st df) /\
  deref st' df = coerced (deref st df) /\
  Core.data o <> df /\
  (forall l, l <> df -> is_Some (st !! l) -> st' !! l = st !! l).
Proof.
  unfold Core.init. intros H.
  assert (Hdf : is_Some (st !! df)).
  { destruct (st !! df) eqn:E; [eauto|].
    unfold deref in H. rewrite E in H. discriminate. }
  destruct (np_unique _) as [|y ys]; [discriminate|].
  cbv zeta in H. fold (coerced (deref st df)) in H.
  set (st1 := <[df := coerced (deref st df)]> st) in H.
  set (ls1 := Core.rebind_filtered (fun c => Core.cell_ne c lit_999_999)
                                   (df, st1)) in H.
  set (ls2 := Core.rebind_filtered (fun c => Core.cell_ne c lit_999_9) ls1)
    in H.
  set (ls3 := Core.rebind_filtered (fun c => Core.cell_ne c lit_999) ls2) in H.
  set (ls4 := Core.rebind_filtered Core.cell_notnull ls3) in H.
  assert (Ho : Core.data o = fst ls4) by (inversion H; reflexivity).
  assert (Hst : st' = snd ls4) by (inversion H; reflexivity).
  rewrite Ho, Hst. clear H Ho Hst.
  assert (K1 : forall l, is_Some (st1 !! l) -> snd ls1 !! l = st1 !! l)
    by (intros; apply (rebind_filtered_old _ (df, st1)); assumption).
  assert (K2 : forall l, is_Some (st1 !! l) -> snd ls2 !! l = st1 !! l).
  { intros l Hl. unfold ls2. rewrite rebind_filtered_old; rewrite K1; auto. }
  assert (K3 : forall l, is_Some (st1 !! l) -> snd ls3 !! l = st1 !! l).
  { intros l Hl. unfold ls3. rewrite rebind_filtered_old; rewrite K2; auto. }
  assert (K4 : forall l, is_Some (st1 !! l) -> snd ls4 !! l = st1 !! l).
  { intros l Hl. unfold ls4. rewrite rebind_filtered_old; rewrite K3; auto. }
  assert (S1 : st1 !! df = Some (coerced (deref st df)))
    by apply lookup_insert_eq.
  split; [exact Hdf|]. split; [|split; [|split]].
  - unfold ls4. rewrite rebind_filtered_new.
    unfold ls3. rewrite rebind_filtered_new.
    unfold ls2. rewrite rebind_filtered_new.
    unfold ls1. rewrite rebind_filtered_new.
    rewrite !filter_filter. cbn [fst snd].
    replace (deref st1 df) with (coerced (deref st df))
      by (unfold deref; rewrite S1; reflexivity).
    rewrite <- filter_coerced. reflexivity.
  - unfold deref at 1. rewrite K4, S1; [reflexivity|rewrite S1; eauto].
  - intros E.
    pose proof (alloc_fresh
      (List.filter (fun row => Core.cell_notnull (snd row))
                   (deref (snd ls3) (fst ls3))) (snd ls3)) as F.
    change (fst (alloc _ (snd ls3))) with (fst ls4) in F.
    rewrite E, K3, S1 in F; [discriminate|rewrite S1; eauto].
  - intros l Hne Hl.
    assert (E : st1 !! l = st !! l) by (apply lookup_insert_ne; congruence).
    rewrite K4, E; [reflexivity|rewrite E; exact Hl].
Qed.

Lemma kept_column (fr : frame) :
  exists col,
    numeric_column (List.filter kept fr) = Some col /\
    forall t x, In (t, x) col -> exists q, x = Fin q /\ sentinel q = false.
Proof.
  induction fr as [|[t c] fr (col & Hcol & Hall)]; simpl.
  - exists []. split; [reflexivity|]. intros t x [].
  - unfold kept at 1. simpl. destruct c as [[q|]|s]; eauto.
    destruct (sentinel q) eqn:E; simpl; eauto.
    rewrite Hcol. exists ((t, Fin q) :: col). split; [reflexivity|].
    intros t' x [H|H]; [injection H as <- <-; eauto|eauto].
Qed.

Lemma sentinel_spec (q : Q) :
  (q == lit_999 \/ q == lit_999_9 \/ q == lit_999_999)%Q <-> sentinel q = true.
Proof.
  unfold sentinel. rewrite !orb_true_iff, !Qeq_bool_iff. tauto.
Qed.

(** C10.  Construction with [handle_nans] keeps, in order, exactly the rows
    whose value is a finite number other than 999, 999.9 and 999.999: a
    measurement equal to one of the three is removed, and so is a cell that
    [float()] rejects, which was first overwritten with 999.  The column
    that extraction reads afterwards holds none of these values. *)
Theorem init_removes_sentinels (df : positive) (st : store) (o : Core.EVA)
        (st' : store) :
  Core.init df true st = (Ret o, st') ->
  deref st' (Core.data o) = List.filter kept (deref st df) /\
  (forall t c,
     In (t, c) (deref st' (Core.data o)) <->
     In (t, c) (deref st df) /\
     exists q, c = Num (Fin q) /\
               ~ (q == lit_999)%Q /\ ~ (q == lit_999_9)%Q /\
               ~ (q == lit_999_999)%Q) /\
  (forall t s,
     In (t, Obj s) (deref st df) -> In (t, Num (Fin lit_999)) (deref st' df)) /\
  (exists col,
     numeric_column (deref st' (Core.data o)) = Some col /\
     forall t x, In (t, x) col -> exists q, x = Fin q /\ sentinel q = false).
Proof.
  intros H. apply init_handle_nans in H as (_ & Hdata & Hdf & _ & _).
  split; [exact Hdata|]. split; [|split].
  - intros t c. rewrite Hdata, filter_In. unfold kept. simpl.
    split.
    + intros [Hin Hk]. split; [exact Hin|].
      destruct c as [[q|]|s]; try discriminate.
      exists q. split; [reflexivity|].
      apply negb_true_iff in Hk.
      assert (Hn : ~ sentinel q = true) by congruence.
      rewrite <- sentinel_spec in Hn. tauto.
    + intros [Hin (q & -> & H1 & H2 & H3)]. split; [exact Hin|].
      apply negb_true_iff. destruct (sentinel q) eqn:E; [|reflexivity].
      apply sentinel_spec in E. tauto.
  - intros t s Hin. rewrite Hdf. unfold coerced.
    apply in_map_iff. exists (t, Obj s). split; [reflexivity|exact Hin].
  - rewrite Hdata. apply kept_column.
Qed.

Lemma init_removes_sentinels_witness :
  deref (snd raw_run) (Core.data raw_object) =
    List.filter kept (deref {[ 1%positive := raw_frame ]} 1%positive).
Proof.
  assert (H : Core.init 1%positive true {[ 1%positive := raw_frame ]} =
              (Ret raw_object, snd raw_run)).
  { (vm_compute; reflexivity). }
  exact (proj1 (init_removes_sentinels _ _ _ _ H)).
Defined.

(** On [raw_frame] only the sample of value 7 is left. *)
Lemma raw_frame_cleaned :
  deref (snd raw_run) (Core.data raw_object) =
    [(datetime 2001 4 1 0, Num (Fin 7))].
Proof. vm_compute. reflexivity. Qed.

(** ** Methods and the store *)

Lemma preserves_ret {A} (a : A) : preserves_store (Core.ret a).
Proof. intros s. reflexivity. Qed.

Lemma preserves_raise {A} (e : exn) : preserves_store (@Core.raise A e).
Proof. intros s. reflexivity. Qed.

Lemma preserves_lift {A} (o : outcome A) : preserves_store (Core.lift o).
Proof. intros s. reflexivity. Qed.

Lemma preserves_update (f : Core.EVA -> Core.EVA) :
  preserves_store (Core.update f).
Proof. intros s. reflexivity. Qed.

Lemma preserves_get_self : preserves_store Core.get_self.
Proof. intros s. reflexivity. Qed.

Lemma preserves_frame_of_data : preserves_store Core.frame_of_data.
Proof. intros s. reflexivity. Qed.

Lemma preserves_column : preserves_store Core.column.
Proof.
  intros s. unfold Core.column.
  destruct (numeric_column _); reflexivity.
Qed.

Lemma preserves_number (v : pyval) : preserves_store (Core.number v).
Proof.
  unfold Core.number. destruct (as_number v);
    [apply preserves_ret|apply preserves_raise].
Qed.

Lemma preserves_assert_empty (kw : kwargs) :
  preserves_store (Core.assert_empty kw).
Proof.
  unfold Core.assert_empty. destruct (Nat.eqb _ _);
    [apply preserves_ret|apply preserves_raise].
Qed.

Lemma preserves_bind {A B} (m : Core.M A) (k : A -> Core.M B) :
  preserves_store m -> (forall a, preserves_store (k a)) ->
  preserves_store (Core.bind m k).
Proof.
  intros Hm Hk s. unfold Core.bind. specialize (Hm s).
  destruct (m s) as [[a| |] s1]; simpl in *; [rewrite Hk|..]; exact Hm.
Qed.

Create HintDb store_db.
#[local] Hint Resolve preserves_ret preserves_raise preserves_lift
  preserves_update preserves_get_self preserves_frame_of_data preserves_column
  preserves_number preserves_assert_empty : store_db.

Ltac preserves :=
  repeat first
    [ progress auto with store_db
    | apply preserves_bind; [|intros ?]
    | match goal with
      | |- preserves_store (if ?b then _ else _) => destruct b
      | |- preserves_store (match ?x with _ => _ end) => destruct x
      end ].

Lemma preserves_get_extremes (m : string) (kw : kwargs) :
  preserves_store (Core.get_extremes m kw).
Proof.
  unfold Core.get_extremes, Core.set_method, Core.set_extremes,
    Core.set_threshold, pop.
  preserves.
Qed.

Lemma preserves_extreme_values : preserves_store Core.extreme_values.
Proof. unfold Core.extreme_values. preserves. Qed.

Lemma preserves_residuals_declustered (r : Q) (us : list Q) :
  preserves_store (Core.residuals_declustered r us).
Proof.
  induction us as [|u us IH]; simpl; [apply preserves_ret|].
  apply preserves_bind; [apply preserves_get_extremes|intros _].
  apply preserves_bind; [apply preserves_extreme_values|intros values].
  apply preserves_bind; [exact IH|intros rest]. apply preserves_ret.
Qed.

Lemma preserves_pot_residuals (z : R) (us : list Q) (decl : bool) (r : Q) :
  preserves_store (Core.pot_residuals z us decl r).
Proof.
  unfold Core.pot_residuals. destruct us as [|u us]; [apply preserves_raise|].
  apply preserves_bind; [apply preserves_column|intros col].
  apply preserves_bind.
  - destruct decl; [apply preserves_residuals_declustered|apply preserves_ret].
  - intros res. destruct (existsb _ _);
      [apply preserves_raise|apply preserves_ret].
Qed.

Lemma preserves_fit (sps : Core.scipy) (d : string) (confidence : bool)
      (k : Z) (trunc : bool) (fuel : nat) :
  preserves_store (Core.fit sps d confidence k trunc fuel).
Proof.
  unfold Core.fit, Core.select_family, Core.excesses, Core.fitted,
    Core.extreme_values, Core.set_distribution, Core.set_retvalsum.
  preserves.
Qed.

(** ** Construction and the caller's object *)

Lemma filter_none {A} (p : A -> bool) (l : list A) :
  length (List.filter p l) = 0%nat ->
  List.filter (fun x => negb (p x)) l = l.
Proof.
  induction l as [|x l IH]; simpl; [reflexivity|].
  destruct (p x); simpl; [discriminate|]. intros H. rewrite IH; auto.
Qed.

Lemma stats_init_store (dat : positive) (block : Q) (st : store)
      (o : Stats.EVA) (st' : store) :
  Stats.init dat block st = (Ret o, st') ->
  Stats.data o = dat /\
  st' = <[dat := List.filter (fun row => negb (Stats.isna (snd row)))
                             (sort_by Stats.time_leb (deref st dat))]> st.
Proof.
  unfold Stats.init. destruct (negb _); [discriminate|].
  cbv zeta.
  set (st1 := <[dat := sort_by Stats.time_leb (deref st dat)]> st).
  assert (E : deref st1 dat = sort_by Stats.time_leb (deref st dat)).
  { unfold deref, st1. rewrite lookup_insert_eq. reflexivity. }
  rewrite E. intros H.
  destruct (0 <? _) eqn:Hn.
  - inversion H; subst. split; [reflexivity|].
    unfold st1. apply insert_insert_eq.
  - inversion H; subst. split; [reflexivity|].
    unfold st1. f_equal. symmetry. apply filter_none.
    apply Z.ltb_ge in Hn. lia.
Qed.

Lemma core_init_shared (df : positive) (st : store) (o : Core.EVA)
      (st' : store) :
  Core.init df false st = (Ret o, st') -> Core.data o = df /\ st' = st.
Proof.
  unfold Core.init. destruct (np_unique _); [discriminate|].
  intros H. inversion H; subst. split; reflexivity.
Qed.

(** C4, as the code has it.  Construction works on the caller's object:
    [Stats.EVA] keeps the caller's series and sorts it and drops its
    missing values in place; [Core.EVA] with [handle_nans] overwrites the
    caller's value column with the coerced values and keeps filtered copies
    for itself, and without it shares the caller's frame.  No other object
    is changed, and extraction, the residual diagnostic and fitting change
    no frame at all. *)
Theorem construction_in_place :
  (forall dat block st o st',
     Stats.init dat block st = (Ret o, st') ->
     Stats.data o = dat /\
     deref st' dat =
       List.filter (fun row => negb (Stats.isna (snd row)))
                   (sort_by Stats.time_leb (deref st dat)) /\
     forall l, l <> dat -> st' !! l = st !! l) /\
  (forall df st o st',
     Core.init df true st = (Ret o, st') ->
     deref st' df = coerced (deref st df) /\
     Core.data o <> df /\
     forall l, l <> df -> is_Some (st !! l) -> st' !! l = st !! l) /\
  (forall df st o st',
     Core.init df false st = (Ret o, st') -> Core.data o = df /\ st' = st) /\
  (forall m kw s, snd (snd (Core.get_extremes m kw s)) = snd s) /\
  (forall sps d confidence k trunc fuel s,
     snd (snd (Core.fit sps d confidence k trunc fuel s)) = snd s) /\
  (forall z us decl r s,
     snd (snd (Core.pot_residuals z us decl r s)) = snd s).
Proof.
  split; [|split; [|split; [|split; [|split]]]].
  - intros dat block st o st' H.
    apply stats_init_store in H as [H1 ->]. split; [exact H1|]. split.
    + unfold deref. rewrite lookup_insert_eq. reflexivity.
    + intros l Hl. apply lookup_insert_ne. congruence.
  - intros df st o st' H.
    apply init_handle_nans in H as (_ & _ & H1 & H2 & H3). auto.
  - apply core_init_shared.
  - intros m kw s. apply preserves_get_extremes.
  - intros sps d confidence k trunc fuel s. apply preserves_fit.
  - intros z us decl r s. apply preserves_pot_residuals.
Qed.

Lemma construction_in_place_witness :
  deref (snd (Stats.init 1%positive gregorian_year
                         {[ 1%positive := misordered_series ]})) 1%positive =
    List.filter (fun row => negb (Stats.isna (snd row)))
      (sort_by Stats.time_leb
         (deref {[ 1%positive := misordered_series ]} 1%positive)).
Proof.
  assert (H : Stats.init 1%positive gregorian_year
                         {[ 1%positive := misordered_series ]} =
              (Ret (Stats.mkEVA 1%positive gregorian_year),
               snd (Stats.init 1%positive gregorian_year
                               {[ 1%positive := misordered_series ]}))).
  { vm_compute. reflexivity. }
  exact (proj1 (proj2 (proj1 construction_in_place _ _ _ _ _ H))).
Defined.

(** C4 as stated fails: after construction the caller's series is sorted
    and has lost its missing value, and the caller's frame has 999 where it
    had a cell that is not a number. *)
Lemma construction_in_place_counterexample :
  deref (snd (Stats.init 1%positive gregorian_year
                         {[ 1%positive := misordered_series ]})) 1%positive =
    [(datetime 2001 3 1 0, Num (Fin 1)); (datetime 2001 5 1 0, Num (Fin 2))] /\
  deref (snd (Stats.init 1%positive gregorian_year
                         {[ 1%positive := misordered_series ]})) 1%positive <>
    misordered_series /\
  deref (snd raw_run) 1%positive =
    [(datetime 2002 5 1 0, Num (Fin 999));
     (datetime 2001 5 1 0, Num (Fin 999));
     (datetime 2001 6 1 0, Num NaN); (datetime 2001 4 1 0, Num (Fin 7))] /\
  deref (snd raw_run) 1%positive <> raw_frame.
Proof.
  split; [vm_compute; reflexivity|].
  split; [vm_compute; discriminate|].
  split; [vm_compute; reflexivity|vm_compute; discriminate].
Qed.

(** ** The object after an extraction *)

Lemma pot_state (self : Core.EVA) (st : store) (u r : Q) (decl : bool)
      (s : Core.state) :
  pot u r decl (self, st) = (Ret tt, s) ->
  exists peaks,
    s = (after_pot self (Core.Ranked (Core.rank (Core.N self) peaks))
                   (Some u), st).
Proof.
  intros H.
  destruct (numeric_column (deref st (Core.data self))) as [col|] eqn:Hcol.
  - rewrite (pot_run self st u r decl col Hcol) in H. cbn zeta in H.
    destruct decl.
    + destruct (timedelta_in_range r); [|discriminate].
      destruct (select_gt u col); [discriminate|].
      inversion H. eauto.
    + inversion H. eauto.
  - apply (f_equal fst) in H.
    rewrite (pot_not_numeric self st u r decl Hcol) in H. discriminate.
Qed.

Lemma bm_run (self : Core.EVA) (st : store) (col : list (time * float64)) :
  numeric_column (deref st (Core.data self)) = Some col ->
  bm (self, st) =
    match np_unique (map (fun row => year_of (fst row))
                         (deref st (Core.data self))) with
    | [] => (Raise (ValueError "No objects to concatenate"),
             (after_bm self (Core.extremes self), st))
    | y :: ys =>
        (Ret tt,
         (after_bm self
            (Core.Ranked
               (Core.rank (Core.N self)
                  (concat (map (Core.block_maximum col) (y :: ys))))), st))
    end.
Proof.
  intros H. unfold bm, Core.get_extremes, Core.bind, Core.column. cbn.
  rewrite H. cbn.
  destruct (np_unique _); reflexivity.
Qed.

Lemma bm_state (self : Core.EVA) (st : store) (s : Core.state) :
  bm (self, st) = (Ret tt, s) ->
  exists peaks,
    s = (after_bm self (Core.Ranked (Core.rank (Core.N self) peaks)), st).
Proof.
  intros H.
  destruct (numeric_column (deref st (Core.data self))) as [col|] eqn:Hcol.
  - rewrite (bm_run self st col Hcol) in H.
    destruct (np_unique _); [discriminate|]. inversion H. eauto.
  - unfold bm, Core.get_extremes, Core.bind, Core.column in H. cbn in H.
    rewrite Hcol in H. discriminate.
Qed.

(** ** Fitting: the family and the extraction method *)

Section FitFacts.
Variable sps : Core.scipy.

Lemma select_family_needs_bm (d : string) (s : Core.state) :
  d = "GEV"%string \/ d = "Gumbel"%string ->
  Core.method (fst s) <> "BM"%string ->
  Core.select_family sps d s =
    (Raise (ValueError
              (d ++ " distribution is applicable only with the BM method")),
     s).
Proof.
  destruct s as [self st]. cbn [fst].
  intros Hd Hm. apply String.eqb_neq in Hm.
  unfold Core.select_family, Core.bind, Core.get_self.
  destruct Hd as [-> | ->]; cbn; rewrite Hm; reflexivity.
Qed.

Lemma select_family_unchecked (d : string) (s : Core.state)
      (rows : list (time * Q * Q)) (u : Q) :
  In d ["Weibull"; "Log-normal"; "Pearson 3"]%string ->
  Core.extremes (fst s) = Core.Ranked rows ->
  Core.threshold (fst s) = Some u ->
  Core.select_family sps d s =
    (Ret (scipy_family d, true,
          Core.fit_mle sps (scipy_family d)
            (map (fun v => fsub v u) (map (fun row => snd (fst row)) rows))
            None), s).
Proof.
  destruct s as [self st]. cbn [fst]. intros Hd He Ht.
  unfold Core.select_family, Core.excesses, Core.extreme_values,
    Core.fitted, Core.bind, Core.get_self.
  destruct Hd as [<- | [<- | [<- | []]]]; cbn; rewrite He; cbn; rewrite Ht;
    reflexivity.
Qed.

Lemma select_family_unknown (d : string) (s : Core.state) :
  ~ In d ["GPD"; "GEV"; "Gumbel"; "Weibull"; "Log-normal"; "Pearson 3"]%string ->
  Core.select_family sps d s =
    (Raise (ValueError "Distribution type not recognized."), s).
Proof.
  intros Hd. unfold Core.select_family, Core.bind, Core.get_self. cbn.
  repeat match goal with
         | |- context [String.eqb d ?x] =>
             let E := fresh "E" in
             destruct (String.eqb d x) eqn:E;
               [apply String.eqb_eq in E; subst d; exfalso; apply Hd;
                simpl; tauto|]
         end.
  reflexivity.
Qed.

Lemma fit_family_raises (d : string) (confidence : bool) (k : Z)
      (trunc : bool) (fuel : nat) (s : Core.state) (e : exn) :
  Core.select_family sps d (with_distribution d s) =
    (Raise e, with_distribution d s) ->
  fst (Core.fit sps d confidence k trunc fuel s) = Raise e.
Proof.
  intros H. unfold Core.fit, Core.bind, Core.set_distribution, Core.update.
  cbv beta iota. fold (with_distribution d s). rewrite H. reflexivity.
Qed.

End FitFacts.

Section FitRuns.
Variable sps : Core.scipy.

Lemma fit_without_confidence (d : string) (k : Z) (trunc : bool) (fuel : nat)
      (s : Core.state) (family : string * bool * list Q) :
  Core.select_family sps d (with_distribution d s) =
    (Ret family, with_distribution d s) ->
  fst (Core.fit sps d false k trunc fuel s) = Ret tt.
Proof.
  intros H. unfold Core.fit, Core.bind, Core.set_distribution, Core.update.
  cbv beta iota. fold (with_distribution d s). rewrite H.
  destruct family as [[dist add_u] parameters]. reflexivity.
Qed.

Lemma montefit_GEV_raises (parameters rp : list Q) (k lex years : Z) (u : Q)
      (i : nat) (sims : Z) :
  Core.montefit_GEV sps parameters rp k lex years u i sims =
    Raise (NameError "ex").
Proof. reflexivity. Qed.

Lemma simulate_raises (montefit : nat -> Z -> outcome (list float64))
      (e : exn) (todo i : nat) :
  (forall j sims, montefit j sims = Raise e) ->
  (0 < todo)%nat ->
  Core.simulate montefit todo i = Raise e.
Proof.
  intros H Ht. destruct todo as [|todo]; [lia|]. simpl. rewrite H.
  reflexivity.
Qed.

Lemma simulate_trunc_raises (montefit : nat -> Z -> outcome (list float64))
      (e : exn) (uplims : list float64) (k : Z) (fuel i : nat) (sims : Z) :
  (forall j n, montefit j n = Raise e) ->
  sims < k ->
  Core.simulate_trunc montefit uplims k (S fuel) i sims = Raise e.
Proof.
  intros H Hk. simpl. apply Z.ltb_lt in Hk. rewrite Hk, H. reflexivity.
Qed.

Lemma fit_gev_confidence (k : Z) (trunc : bool) (fuel : nat)
      (s : Core.state) (rows : list (time * Q * Q)) :
  Core.method (fst s) = "BM"%string ->
  Core.extremes (fst s) = Core.Ranked rows ->
  0 < k ->
  fst (Core.fit sps "GEV" true k trunc (S fuel) s) = Raise (NameError "ex").
Proof.
  destruct s as [self st]. cbn [fst]. intros Hm He Hk.
  unfold Core.fit, Core.select_family, Core.extreme_values, Core.fitted,
    Core.set_distribution, Core.set_retvalsum, Core.update, Core.lift,
    Core.bind, Core.get_self.
  cbn -[Core.simulate_trunc Core.simulate Core.montefit_GEV].
  rewrite Hm, He.
  cbn -[Core.simulate_trunc Core.simulate Core.montefit_GEV].
  destruct trunc.
  - rewrite simulate_trunc_raises with (e := NameError "ex");
      [reflexivity|intros; apply montefit_GEV_raises|exact Hk].
  - rewrite simulate_raises with (e := NameError "ex");
      [reflexivity|intros; apply montefit_GEV_raises|lia].
Qed.

End FitRuns.

(** C5, as the code has it.  After a POT extraction, fitting GEV or Gumbel
    raises ValueError, since each asks for the BM method.  Weibull,
    Log-normal and Pearson 3 have no such check: after POT the parameters
    are scipy's fit of the family ([weibull_min], [lognorm], [pearson3]) to
    the values of the events, each minus the threshold [u] in double
    arithmetic; and on a sample that is not empty, where that fit is taken
    to return, [fit] (here without confidence bounds) returns.  A family
    outside the six names raises ValueError. *)
Theorem fit_after_pot (sps : Core.scipy) (self : Core.EVA) (st : store)
        (u r : Q) (decl : bool) (s : Core.state)
        (confidence : bool) (k : Z) (trunc : bool) (fuel : nat) :
  pot u r decl (self, st) = (Ret tt, s) ->
  fst (Core.fit sps "GEV" confidence k trunc fuel s) =
    Raise (ValueError
             "GEV distribution is applicable only with the BM method") /\
  fst (Core.fit sps "Gumbel" confidence k trunc fuel s) =
    Raise (ValueError
             "Gumbel distribution is applicable only with the BM method") /\
  (forall d,
     In d ["Weibull"; "Log-normal"; "Pearson 3"]%string ->
     exists values,
       fst (Core.extreme_values s) = Ret values /\
       Z.of_nat (length values) = Core.len_extremes (fst s) /\
       Core.select_family sps d (with_distribution d s) =
         (Ret (scipy_family d, true,
               Core.fit_mle sps (scipy_family d)
                            (map (fun v => fsub v u) values) None),
          with_distribution d s) /\
       (values <> [] ->
        fst (Core.fit sps d false k trunc fuel s) = Ret tt)) /\
  (forall d,
     ~ In d ["GPD"; "GEV"; "Gumbel"; "Weibull"; "Log-normal";
             "Pearson 3"]%string ->
     fst (Core.fit sps d confidence k trunc fuel s) =
       Raise (ValueError "Distribution type not recognized.")).
Proof.
  intros H. apply pot_state in H as [peaks ->].
  set (rows := Core.rank (Core.N self) peaks).
  split; [|split; [|split]].
  - apply fit_family_raises.
    apply (select_family_needs_bm sps "GEV"); [auto|discriminate].
  - apply fit_family_raises.
    apply (select_family_needs_bm sps "Gumbel"); [auto|discriminate].
  - intros d Hd.
    pose proof (select_family_unchecked sps d
                  (with_distribution d
                     (after_pot self (Core.Ranked rows) (Some u), st))
                  rows u Hd eq_refl eq_refl) as Hdist.
    exists (map (fun row => snd (fst row)) rows).
    split; [reflexivity|].
    split; [rewrite length_map; reflexivity|].
    split; [exact Hdist|].
    intros _. eapply fit_without_confidence. exact Hdist.
  - intros d Hd. apply fit_family_raises. apply select_family_unknown.
    exact Hd.
Qed.

Lemma fit_after_pot_witness :
  fst (Core.fit fixed_services "GEV" false 100 true 0 short_pot_state) =
    Raise (ValueError
             "GEV distribution is applicable only with the BM method") /\
  exists values,
    fst (Core.extreme_values short_pot_state) = Ret values /\
    Core.select_family fixed_services "Pearson 3"
      (with_distribution "Pearson 3" short_pot_state) =
      (Ret ("pearson3"%string, true,
            Core.fit_mle fixed_services "pearson3"
                         (map (fun v => fsub v 10) values) None),
       with_distribution "Pearson 3" short_pot_state).
Proof.
  assert (H : pot 10 24 true (fst short_state, snd short_state) =
              (Ret tt, short_pot_state)).
  { vm_compute. reflexivity. }
  pose proof (fit_after_pot fixed_services (fst short_state)
                (snd short_state) 10 24 true short_pot_state
                false 100 true 0%nat H) as (Hgev & _ & Hfam & _).
  split; [exact Hgev|].
  destruct (Hfam "Pearson 3"%string (or_intror (or_intror (or_introl eq_refl))))
    as (values & Hv & _ & Hsel & _).
  exists values. split; [exact Hv|exact Hsel].
Defined.

(** C5 as stated fails for Weibull, Log-normal and Pearson 3: after a POT
    extraction [fit] does not raise for them. *)
Lemma fit_after_pot_counterexample :
  fst (pot 10 24 true short_state) = Ret tt /\
  fst (Core.fit fixed_services "Weibull" false 100 true 0 short_pot_state) =
    Ret tt /\
  is_ValueError
    (fst (Core.fit fixed_services "Weibull" false 100 true 0
                   short_pot_state)) = false /\
  is_ValueError
    (fst (Core.fit fixed_services "Log-normal" false 100 true 0
                   short_pot_state)) = false /\
  is_ValueError
    (fst (Core.fit fixed_services "Pearson 3" false 100 true 0
                   short_pot_state)) = false.
Proof. repeat split; vm_compute; reflexivity. Qed.

(** C8: the GEV branch of the bootstrap.  After a BM extraction, [fit]
    with the GEV family and confidence bounds raises NameError at its first
    simulation, for any number [k > 0] of simulations, with and without
    truncation: the nested [montefit] reads the name [ex], which nothing
    binds, before any sample is drawn. *)
Theorem fit_gev_bootstrap_raises (sps : Core.scipy) (self : Core.EVA)
        (st : store) (s : Core.state) (k : Z) (trunc : bool) (fuel : nat) :
  bm (self, st) = (Ret tt, s) ->
  0 < k ->
  fst (Core.fit sps "GEV" true k trunc (S fuel) s) = Raise (NameError "ex").
Proof.
  intros H Hk. apply bm_state in H as [peaks ->].
  apply (fit_gev_confidence sps k trunc fuel _
                            (Core.rank (Core.N self) peaks)); auto.
Qed.

Lemma fit_gev_bootstrap_raises_witness :
  fst (Core.fit fixed_services "GEV" true 100 true 1 short_bm_state) =
    Raise (NameError "ex").
Proof.
  assert (H : bm (fst short_state, snd short_state) =
              (Ret tt, short_bm_state)).
  { vm_compute. reflexivity. }
  exact (fit_gev_bootstrap_raises fixed_services _ _ _ 100 true 0%nat H
                                  eq_refl).
Defined.

(** The GPD branch does what C8 says: a Poisson count around the observed
    one, a sample of that size from the fitted distribution, a refit with
    the location fixed, and the curve at the simulated rate. *)
Lemma montefit_GPD_steps (sps : Core.scipy) (add_u : bool)
      (parameters rp : list Q) (lex years : Z) (u : Q) (i : nat) (sims : Z) :
  Core.montefit_GPD sps add_u parameters rp lex years u i sims =
    let n := Core.poisson_rvs sps lex i in
    let sample := Core.rvs sps "genpareto" parameters n i in
    let refit :=
      Core.fit_mle sps "genpareto" sample (Some (nth 1 parameters 0%Q)) in
    Ret (map (fun t => Core.ret_val sps "genpareto" add_u t refit
                                    (inject_Z n / inject_Z years)%Q u) rp).
Proof. reflexivity. Qed.

(** ** The interval of the mean residual *)

Lemma short_column :
  Core.column short_state =
    (Ret [(datetime 2001 3 1 0, Fin 11); (datetime 2001 3 2 0, Fin 4);
          (datetime 2001 3 8 0, Fin 13)], short_state).
Proof. vm_compute. reflexivity. Qed.

Lemma short_clip :
  Core.clip [10%Q]
    (Core.column_max
       [(datetime 2001 3 1 0, Fin 11); (datetime 2001 3 2 0, Fin 4);
        (datetime 2001 3 8 0, Fin 13)]) = [10%Q].
Proof. vm_compute. reflexivity. Qed.

Lemma short_residuals :
  Core.residuals_declustered 24 [10%Q] short_state =
    (Ret [[1%Q; 3%Q]], snd (Core.residuals_declustered 24 [10%Q] short_state)).
Proof. vm_compute. reflexivity. Qed.

Lemma Q2R_of_Qeq (q : Q) (z : Z) : (q == inject_Z z)%Q -> Q2R q = IZR z.
Proof.
  intros H. rewrite (Qreals.Qeq_eqR _ _ H). unfold Q2R, inject_Z. simpl.
  field.
Qed.

Lemma residuals_1_3 :
  Q2R (Core.mean [1%Q; 3%Q]) = 2%R /\
  Core.std [1%Q; 3%Q] = 1%R /\
  standard_error [1%Q; 3%Q] = 1%R.
Proof.
  split; [|split].
  - apply (Q2R_of_Qeq _ 2). vm_compute. reflexivity.
  - unfold Core.std. rewrite (Q2R_of_Qeq _ 1); [apply sqrt_1|].
    vm_compute. reflexivity.
  - unfold standard_error. rewrite (Q2R_of_Qeq _ 2); [|vm_compute; reflexivity].
    change (INR (length [1%Q; 3%Q])) with (INR 2).
    replace (INR 2) with 2%R by (simpl; lra).
    unfold Rdiv. apply Rinv_r.
    pose proof (sqrt_lt_R0 2 ltac:(lra)). lra.
Qed.

(** C6 on two residuals, 1 and 3 (peaks 11 and 13 over the threshold 10).
    The interval that [pot_residuals] computes around their mean 2 has
    scale [std / n = 1/2], the standard deviation divided by the sample
    size; the scale of the specification, the sample standard deviation
    over the square root of the sample size, is 1, and gives another
    interval. *)
Theorem pot_residuals_interval_scale (z : R) :
  (0 < z)%R ->
  fst (Core.pot_residuals z [10%Q] true 24 short_state) =
    Ret ([Core.mean [1%Q; 3%Q]],
         [Core.norm_interval95 z (Q2R (Core.mean [1%Q; 3%Q]))
                               (Core.std [1%Q; 3%Q] / INR 2)]) /\
  (Core.mean [1%Q; 3%Q] == 2)%Q /\
  Core.norm_interval95 z (Q2R (Core.mean [1%Q; 3%Q]))
                       (Core.std [1%Q; 3%Q] / INR 2) =
    (2 - z * (1 / 2), 2 + z * (1 / 2))%R /\
  Core.norm_interval95 z (Q2R (Core.mean [1%Q; 3%Q]))
                       (standard_error [1%Q; 3%Q]) =
    (2 - z, 2 + z)%R /\
  Core.norm_interval95 z (Q2R (Core.mean [1%Q; 3%Q]))
                       (Core.std [1%Q; 3%Q] / INR 2) <>
  Core.norm_interval95 z (Q2R (Core.mean [1%Q; 3%Q]))
                       (standard_error [1%Q; 3%Q]).
Proof.
  intros Hz. destruct residuals_1_3 as (Hm & Hs & He).
  assert (H2 : INR 2 = 2%R) by (simpl; lra).
  split; [|split; [|split; [|split]]].
  - unfold Core.pot_residuals, Core.bind.
    rewrite short_column. cbv beta iota. rewrite short_clip, short_residuals.
    cbv beta iota. reflexivity.
  - vm_compute. reflexivity.
  - unfold Core.norm_interval95. rewrite Hm, Hs, H2. reflexivity.
  - unfold Core.norm_interval95. rewrite Hm, He. f_equal; lra.
  - unfold Core.norm_interval95. rewrite Hm, Hs, He, H2.
    intros E. injection E as E1 E2. lra.
Qed.

Lemma pot_residuals_interval_scale_witness :
  Core.norm_interval95 2 (Q2R (Core.mean [1%Q; 3%Q]))
                       (Core.std [1%Q; 3%Q] / INR 2) =
    (2 - 2 * (1 / 2), 2 + 2 * (1 / 2))%R.
Proof.
  apply (pot_residuals_interval_scale 2). lra.
Defined.

(** ** Return periods *)

Lemma return_periods_map (years : Z) (n : nat) :
  Core.return_periods years n =
    map (plotting_position_double years n) (seq 0 n).
Proof.
  unfold Core.return_periods, Core.cdf. rewrite List.map_map. reflexivity.
Qed.

Lemma StronglySorted_impl {A} (R R' : A -> A -> Prop) (l : list A) :
  (forall a b, R a b -> R' a b) -> StronglySorted R l -> StronglySorted R' l.
Proof.
  intros H. induction 1 as [|a l Hs IH Hf]; constructor; [exact IH|].
  eapply List.Forall_impl; [|exact Hf]. cbn beta. auto.
Qed.

Lemma StronglySorted_last {A} (R : A -> A -> Prop) (l : list A) (e : A) :
  StronglySorted R (l ++ [e]) -> Forall (fun x => R x e) l.
Proof.
  induction l as [|a l IH]; simpl; intros H; [constructor|].
  apply StronglySorted_inv in H as [H1 H2].
  constructor; [|auto].
  rewrite List.Forall_forall in H2. apply H2.
  apply in_or_app. right. left. reflexivity.
Qed.

Lemma combine_snoc {A B} (l : list A) (l' : list B) (a : A) (b : B) :
  length l = length l' ->
  combine (l ++ [a]) (l' ++ [b]) = combine l l' ++ [(a, b)].
Proof.
  revert l'. induction l as [|x l IH]; intros [|y l'] H; try discriminate.
  - reflexivity.
  - simpl. f_equal. apply IH. simpl in H. lia.
Qed.

Lemma value_leb_total (a b : time * Q) :
  Core.value_leb a b = true \/ Core.value_leb b a = true.
Proof.
  unfold Core.value_leb. rewrite !Qle_bool_iff.
  destruct (Qlt_le_dec (snd b) (snd a)) as [H|H]; [right|left]; auto.
  apply Qlt_le_weak. exact H.
Qed.

Lemma rank_sorted_by_value (peaks : list (time * Q)) :
  StronglySorted (fun a b => (snd a <= snd b)%Q)
                 (sort_by Core.value_leb peaks).
Proof.
  apply (StronglySorted_impl (fun a b => Core.value_leb a b = true)).
  - intros a b H. apply Qle_bool_iff. exact H.
  - apply sort_by_sorted.
    + apply value_leb_total.
    + unfold Core.value_leb. intros a b c. rewrite !Qle_bool_iff.
      apply Qle_trans.
Qed.

Lemma rank_index_ascending (years : Z) (peaks : list (time * Q)) :
  index_ascending (Core.rank years peaks).
Proof.
  unfold index_ascending, Core.rank.
  apply (StronglySorted_impl (fun a b => Core.index_leb a b = true)).
  - intros a b H. apply Z.leb_le. exact H.
  - apply sort_by_sorted; unfold Core.index_leb.
    + intros a b. rewrite !Z.leb_le. lia.
    + intros a b c. rewrite !Z.leb_le. lia.
Qed.

Lemma return_periods_nth (years : Z) (n i : nat) (T : Q) :
  nth_error (Core.return_periods years n) i = Some T ->
  (i < n)%nat /\ T = plotting_position_double years n i.
Proof.
  intros H.
  assert (Hi : (i < n)%nat).
  { rewrite <- (return_periods_length years n).
    apply nth_error_Some. congruence. }
  split; [exact Hi|].
  rewrite return_periods_map in H.
  rewrite nth_error_map in H.
  rewrite nth_error_seq in H.
  destruct (Nat.ltb i n) eqn:E; [|apply Nat.ltb_ge in E; lia].
  simpl in H. injection H as <-. reflexivity.
Qed.

Lemma rank_ranked (years : Z) (peaks : list (time * Q)) :
  ranked_by_value years peaks (Core.rank years peaks).
Proof.
  exists (sort_by Core.value_leb peaks),
         (Core.return_periods years (length peaks)).
  split; [apply sort_by_perm|].
  split; [apply rank_sorted_by_value|].
  split; [apply return_periods_length|].
  split.
  - intros i T H. apply return_periods_nth in H. tauto.
  - unfold Core.rank. rewrite sort_by_length. apply sort_by_perm.
Qed.

Lemma rank_positive (years : Z) (peaks : list (time * Q))
      (row : time * Q * Q) :
  0 <= years -> Z.of_nat (length peaks) < 2 ^ 53 ->
  In row (Core.rank years peaks) -> (0 < snd row)%Q.
Proof.
  intros Hy Hn Hin.
  destruct (rank_ranked years peaks) as (sorted & Ts & _ & _ & Hlen & HT & Hp).
  apply (Permutation_in _ Hp) in Hin. destruct row as [e T].
  apply in_combine_r in Hin. apply In_nth_error in Hin as [i Hi].
  assert (Hlt : (i < length peaks)%nat).
  { rewrite <- Hlen. apply nth_error_Some. congruence. }
  simpl. rewrite (HT i T Hi).
  apply plotting_position_double_pos; assumption.
Qed.

(** The event ranked last has the largest value, and no return period is
    larger than its own. *)
Lemma rank_largest (years : Z) (peaks : list (time * Q)) :
  0 <= years -> Z.of_nat (length peaks) < 2 ^ 53 ->
  peaks <> [] ->
  exists row,
    In row (Core.rank years peaks) /\
    forall row', In row' (Core.rank years peaks) ->
                 (snd (fst row') <= snd (fst row))%Q /\
                 (snd row' <= snd row)%Q.
Proof.
  intros Hy Hsmall Hne.
  pose proof (rank_sorted_by_value peaks) as Hs.
  pose proof (sort_by_length Core.value_leb peaks) as Hlen.
  unfold Core.rank. rewrite Hlen.
  destruct (exists_last (l := sort_by Core.value_leb peaks)) as (l & e & E).
  { intros E. rewrite E in Hlen. destruct peaks; [congruence|discriminate]. }
  rewrite E in *.
  assert (Hn : length peaks = S (length l)).
  { rewrite <- Hlen, length_app. simpl. lia. }
  rewrite Hn in *. rewrite return_periods_map, seq_S, map_app.
  cbn [map Nat.add].
  rewrite combine_snoc by (rewrite List.length_map, List.length_seq; reflexivity).
  set (pp := plotting_position_double years (S (length l))).
  set (rows := combine l _ ++ [(e, pp (length l))]).
  assert (HP : forall x, In x (sort_by Core.index_leb rows) <-> In x rows).
  { intros x. split; apply Permutation_in;
      [|symmetry]; apply sort_by_perm. }
  exists (e, pp (length l)). split.
  - apply HP. apply in_or_app. right. left. reflexivity.
  - intros [e' T'] Hin. apply HP in Hin. cbn [fst snd].
    apply in_app_or in Hin as [Hin|[Hin|[]]].
    + split.
      * apply in_combine_l in Hin.
        apply StronglySorted_last in Hs. rewrite List.Forall_forall in Hs.
        exact (Hs _ Hin).
      * apply in_combine_r in Hin.
        apply in_map_iff in Hin as (i & <- & Hi). apply in_seq in Hi.
        apply plotting_position_double_mono; [exact Hsmall|exact Hy|lia|lia].
    + injection Hin as <- <-. split; apply Qle_refl.
Qed.

(** ** The number of years *)

Lemma dedup_sorted_In (x : Z) (l : list Z) :
  In x (dedup_sorted l) <-> In x l.
Proof.
  induction l as [|a [|b l] IH]; [tauto|tauto|].
  change (dedup_sorted (a :: b :: l)) with
    (if a =? b then dedup_sorted (b :: l) else a :: dedup_sorted (b :: l)).
  destruct (a =? b) eqn:E.
  - apply Z.eqb_eq in E. subst b. rewrite IH. simpl. tauto.
  - simpl In at 1. rewrite IH. simpl. tauto.
Qed.

Lemma np_unique_In (x : Z) (l : list Z) : In x (np_unique l) <-> In x l.
Proof.
  unfold np_unique. rewrite dedup_sorted_In.
  split; apply Permutation_in; [|symmetry]; apply sort_by_perm.
Qed.

Lemma list_max_spec (l : list Z) (x : Z) :
  In (list_max x l) (x :: l) /\ forall y, In y (x :: l) -> y <= list_max x l.
Proof.
  unfold list_max. revert x. induction l as [|a l IH]; intros x; simpl.
  - split; [auto|]. intros y [<-|[]]. lia.
  - destruct (IH (Z.max x a)) as [H1 H2]. split.
    + destruct H1 as [H1|H1]; [|auto].
      rewrite <- H1. destruct (Z.max_spec x a) as [[_ ->]|[_ ->]]; auto.
    + intros y [<-|[<-|Hy]].
      * specialize (H2 (Z.max x a) (or_introl eq_refl)). lia.
      * specialize (H2 (Z.max x a) (or_introl eq_refl)). lia.
      * apply H2. right. exact Hy.
Qed.

Lemma list_min_spec (l : list Z) (x : Z) :
  In (list_min x l) (x :: l) /\ forall y, In y (x :: l) -> list_min x l <= y.
Proof.
  unfold list_min. revert x. induction l as [|a l IH]; intros x; simpl.
  - split; [auto|]. intros y [<-|[]]. lia.
  - destruct (IH (Z.min x a)) as [H1 H2]. split.
    + destruct H1 as [H1|H1]; [|auto].
      rewrite <- H1. destruct (Z.min_spec x a) as [[_ ->]|[_ ->]]; auto.
    + intros y [<-|[<-|Hy]].
      * specialize (H2 (Z.min x a) (or_introl eq_refl)). lia.
      * specialize (H2 (Z.min x a) (or_introl eq_refl)). lia.
      * apply H2. right. exact Hy.
Qed.

(** [self.N] is the last calendar year of the index minus the first,
    plus one. *)
Lemma init_counts_years (df : positive) (handle_nans : bool) (st : store)
      (o : Core.EVA) (st' : store) :
  Core.init df handle_nans st = (Ret o, st') ->
  exists first_year last_year,
    Core.N o = last_year - first_year + 1 /\
    In first_year (map (fun row => year_of (fst row)) (deref st df)) /\
    In last_year (map (fun row => year_of (fst row)) (deref st df)) /\
    forall row, In row (deref st df) ->
                first_year <= year_of (fst row) <= last_year.
Proof.
  unfold Core.init. intros H.
  destruct (np_unique _) as [|y ys] eqn:E; [discriminate|].
  assert (HN : Core.N o = list_max y ys - list_min y ys + 1).
  { destruct handle_nans; inversion H; reflexivity. }
  destruct (list_max_spec ys y) as [M1 M2].
  destruct (list_min_spec ys y) as [m1 m2].
  rewrite <- E in M1, M2, m1, m2.
  exists (list_min y ys), (list_max y ys).
  split; [exact HN|]. split; [apply np_unique_In; exact m1|].
  split; [apply np_unique_In; exact M1|].
  intros row Hrow.
  assert (Hy : In (year_of (fst row))
                  (np_unique (map (fun row => year_of (fst row))
                                  (deref st df)))).
  { apply np_unique_In. apply in_map_iff. eauto. }
  split; [apply m2|apply M2]; exact Hy.
Qed.

(** C2, as the code has it.  [self.N], the number of blocks of the formula,
    is the number of calendar years the index spans (last year - first
    year + 1, at least 1).  After a POT or BM extraction the events are
    stored in ascending order of the index, each with the return period
    (N + 1) / (n (1 - i / n)) of its 0-based rank i by value among the n
    events, every operation of the formula being that of doubles.  For
    fewer than 2^53 events no denominator is zero, every return period is
    positive, and an event of largest value has a return period that none
    exceeds. *)
Theorem return_periods_by_rank :
  (forall df handle_nans st o st',
     Core.init df handle_nans st = (Ret o, st') ->
     1 <= Core.N o /\
     exists first_year last_year,
       Core.N o = last_year - first_year + 1 /\
       In first_year (map (fun row => year_of (fst row)) (deref st df)) /\
       In last_year (map (fun row => year_of (fst row)) (deref st df)) /\
       forall row, In row (deref st df) ->
                   first_year <= year_of (fst row) <= last_year) /\
  (forall self st s,
     (exists u r decl, pot u r decl (self, st) = (Ret tt, s)) \/
     bm (self, st) = (Ret tt, s) ->
     0 <= Core.N self ->
     exists peaks rows,
       Core.extremes (fst s) = Core.Ranked rows /\
       ranked_by_value (Core.N self) peaks rows /\
       index_ascending rows /\
       (Z.of_nat (length peaks) < 2 ^ 53 ->
        (forall i, (i < length peaks)%nat ->
                   (0 < plotting_denominator (length peaks) i)%Q) /\
        (forall row, In row rows -> (0 < snd row)%Q) /\
        (peaks <> [] ->
         exists row,
           In row rows /\
           forall row', In row' rows ->
                        (snd (fst row') <= snd (fst row))%Q /\
                        (snd row' <= snd row)%Q))).
Proof.
  split.
  - intros df handle_nans st o st' H.
    destruct (init_counts_years df handle_nans st o st' H)
      as (lo & hi & HN & Hlo & Hhi & Hall).
    split; [|eauto 6].
    apply in_map_iff in Hlo as (row & _ & Hrow).
    specialize (Hall row Hrow). lia.
  - intros self st s H HN.
    assert (E : exists peaks,
               Core.extremes (fst s) =
                 Core.Ranked (Core.rank (Core.N self) peaks)).
    { destruct H as [(u & r & decl & H)|H].
      - apply pot_state in H as [peaks ->]. eauto.
      - apply bm_state in H as [peaks ->]. eauto. }
    destruct E as [peaks E].
    exists peaks, (Core.rank (Core.N self) peaks).
    split; [exact E|]. split; [apply rank_ranked|].
    split; [apply rank_index_ascending|].
    intros Hsmall. split; [|split].
    + intros i Hi.
      destruct (plotting_denominator_bounds _ Hsmall i Hi) as [Hd _].
      eapply Qlt_le_trans; [|exact Hd]. reflexivity.
    + intros row Hrow. apply (rank_positive (Core.N self) peaks); assumption.
    + apply rank_largest; assumption.
Qed.

Lemma return_periods_by_rank_witness :
  exists peaks rows,
    Core.extremes (fst short_pot_state) = Core.Ranked rows /\
    ranked_by_value (Core.N (fst short_state)) peaks rows.
Proof.
  assert (H : pot 10 24 true (fst short_state, snd short_state) =
              (Ret tt, short_pot_state)).
  { vm_compute. reflexivity. }
  assert (HN : 0 <= Core.N (fst short_state)).
  { vm_compute. discriminate. }
  destruct (proj2 return_periods_by_rank (fst short_state) (snd short_state)
                  short_pot_state
                  (or_introl (ex_intro _ 10%Q
                     (ex_intro _ 24%Q (ex_intro _ true H)))) HN)
    as (peaks & rows & H1 & H2 & _).
  exists peaks, rows. split; assumption.
Defined.

(** C2 as stated fails in its number of blocks.  [short_frame] spans 7 days
    of one calendar year: N is 1, while the span over the block size is
    7 / 365.2425.  The return periods stored for the two events are 1 and
    2; the formula with the span over the block size gives less than 3/4
    and less than 3/2. *)
Lemma return_periods_by_rank_counterexample :
  (short_blocks == 70000 # 3652425)%Q /\
  Core.N (fst short_state) = 1 /\
  Core.extremes (fst short_pot_state) =
    Core.Ranked [(datetime 2001 3 1 0, 11%Q, 1%Q);
                 (datetime 2001 3 8 0, 13%Q, 2%Q)] /\
  (plotting_position short_blocks 2 0 < 3 # 4)%Q /\
  (plotting_position short_blocks 2 1 < 3 # 2)%Q.
Proof.
  split; [vm_compute; reflexivity|].
  split; [vm_compute; reflexivity|].
  split; [vm_compute; reflexivity|].
  split; vm_compute; reflexivity.
Qed.

(** Doubles show in the return periods: with N = 1 and five events the
    last rank gets 2 + 2^-51, above N + 1. *)
Lemma return_period_rounds :
  plotting_position_double 1 5 4 = 4503599627370497 # 2251799813685248.
Proof. vm_compute. reflexivity. Qed.

(** * Further properties of the code *)

(** ** The events of a POT extraction *)

Lemma map_fst_combine {A B} (l : list A) (l' : list B) :
  length l = length l' -> map fst (combine l l') = l.
Proof.
  revert l'. induction l as [|x l IH]; intros [|y l'] H; try discriminate;
    [reflexivity|].
  simpl. f_equal. apply IH. simpl in H. lia.
Qed.

Lemma rank_events (years : Z) (peaks : list (time * Q)) :
  Permutation (events (Core.rank years peaks)) peaks.
Proof.
  unfold events, Core.rank.
  eapply Permutation_trans; [apply Permutation_map, sort_by_perm|].
  rewrite map_fst_combine by (rewrite return_periods_length; reflexivity).
  apply sort_by_perm.
Qed.

Lemma decluster_fold_In (r : Z) (l : list (time * Q)) :
  forall s x, In x (fold_left (decluster_step r) l s) -> In x l \/ In x s.
Proof.
  induction l as [|e l IH]; intros s x H; simpl in *; [auto|].
  apply IH in H as [H|H]; [auto|].
  apply decluster_step_In in H as [->|H]; auto.
Qed.

Lemma decluster_loop_In (r : Z) (e : time * Q) (l : list (time * Q)) x :
  In x (Core.decluster_loop r [] e l) -> In x (e :: l).
Proof.
  rewrite decluster_fold. intros H. apply in_rev in H.
  apply decluster_fold_In in H as [H|[]]. exact H.
Qed.

(** The peaks that a POT extraction ranks. *)
Lemma pot_peaks (self : Core.EVA) (st : store) (u r : Q) (decl : bool)
      (s : Core.state) (col : list (time * float64)) :
  numeric_column (deref st (Core.data self)) = Some col ->
  pot u r decl (self, st) = (Ret tt, s) ->
  exists peaks,
    Core.extremes (fst s) = Core.Ranked (Core.rank (Core.N self) peaks) /\
    (if decl then Core.decluster (timedelta_hours r) (select_gt u col) = Ret peaks
     else peaks = select_gt u col).
Proof.
  intros Hcol H. rewrite (pot_run self st u r decl col Hcol) in H.
  cbn zeta in H. destruct decl.
  - destruct (timedelta_in_range r); [|discriminate].
    destruct (select_gt u col) as [|e l]; [discriminate|].
    inversion H; subst. eexists. split; reflexivity.
  - inversion H; subst. eexists. split; reflexivity.
Qed.

Lemma pot_numeric (self : Core.EVA) (st : store) (u r : Q) (decl : bool)
      (s : Core.state) :
  pot u r decl (self, st) = (Ret tt, s) ->
  exists col, numeric_column (deref st (Core.data self)) = Some col.
Proof.
  intros H. destruct (numeric_column _) as [col|] eqn:E; [eauto|].
  apply (f_equal fst) in H. rewrite (pot_not_numeric _ _ _ _ _ E) in H.
  discriminate.
Qed.

(** X1.  Whenever a POT extraction returns, with or without declustering,
    every event it stores is a row of the data, at its own timestamp, and
    its value is strictly above the threshold. *)
Theorem pot_events_exceed_threshold (self : Core.EVA) (st : store) (u r : Q)
        (decl : bool) (s : Core.state) :
  pot u r decl (self, st) = (Ret tt, s) ->
  exists rows,
    Core.extremes (fst s) = Core.Ranked rows /\
    forall t v T, In (t, v, T) rows ->
      In (t, Num (Fin v)) (deref st (Core.data self)) /\ (u < v)%Q.
Proof.
  intros H. destruct (pot_numeric _ _ _ _ _ _ H) as [col Hcol].
  destruct (pot_peaks _ _ _ _ _ _ col Hcol H) as (peaks & He & Hp).
  eexists. split; [exact He|]. intros t v T Hin.
  assert (Hpk : In (t, v) peaks).
  { apply (Permutation_in _ (rank_events (Core.N self) peaks)).
    unfold events. apply in_map_iff. exists (t, v, T). auto. }
  assert (Hsel : In (t, v) (select_gt u col)).
  { destruct decl; [|subst; exact Hpk].
    destruct (select_gt u col) as [|e l]; [discriminate|].
    injection Hp as <-. apply decluster_loop_In in Hpk. exact Hpk. }
  apply select_In in Hsel as [Hin' Hgt]. split.
  - eapply numeric_column_In; eauto.
  - apply Qltb_lt. exact Hgt.
Qed.

Lemma pot_events_exceed_threshold_witness :
  exists rows,
    Core.extremes (fst short_pot_state) = Core.Ranked rows /\
    forall t v T, In (t, v, T) rows ->
      In (t, Num (Fin v)) (deref (snd short_state) (Core.data (fst short_state)))
      /\ (10 < v)%Q.
Proof.
  assert (H : pot 10 24 true (fst short_state, snd short_state) =
              (Ret tt, short_pot_state)).
  { vm_compute. reflexivity. }
  exact (pot_events_exceed_threshold _ _ _ _ _ _ H).
Defined.

(** X2.  Without declustering, a POT extraction on a numeric column always
    returns: its events are exactly the samples strictly above the
    threshold, each once, whatever the run length, and the threshold is
    recorded. *)
Theorem pot_without_declustering (self : Core.EVA) (st : store) (u r : Q)
        (col : list (time * float64)) :
  numeric_column (deref st (Core.data self)) = Some col ->
  exists rows,
    fst (pot u r false (self, st)) = Ret tt /\
    Core.extremes (fst (snd (pot u r false (self, st)))) = Core.Ranked rows /\
    Permutation (events rows) (select_gt u col) /\
    Core.threshold (fst (snd (pot u r false (self, st)))) = Some u.
Proof.
  intros Hcol. rewrite (pot_run self st u r false col Hcol). cbn.
  eexists. split; [reflexivity|]. split; [reflexivity|].
  split; [apply rank_events|reflexivity].
Qed.

Lemma pot_without_declustering_witness :
  exists rows,
    fst (pot 5 24 false (fst short_state, snd short_state)) = Ret tt /\
    Core.extremes (fst (snd (pot 5 24 false (fst short_state, snd short_state)))) =
      Core.Ranked rows /\
    Permutation (events rows)
      (select_gt 5 [(datetime 2001 3 1 0, Fin 11); (datetime 2001 3 2 0, Fin 4);
                    (datetime 2001 3 8 0, Fin 13)]) /\
    Core.threshold (fst (snd (pot 5 24 false (fst short_state, snd short_state)))) =
      Some 5%Q.
Proof.
  apply (pot_without_declustering (fst short_state) (snd short_state) 5 24
           [(datetime 2001 3 1 0, Fin 11); (datetime 2001 3 2 0, Fin 4);
            (datetime 2001 3 8 0, Fin 13)]).
  vm_compute. reflexivity.
Defined.

Lemma StronglySorted_snoc {A} (R : A -> A -> Prop) (l : list A) (e : A) :
  StronglySorted R l -> Forall (fun x => R x e) l -> StronglySorted R (l ++ [e]).
Proof.
  induction l as [|a l IH]; simpl; intros Hs Hf.
  - constructor; constructor.
  - apply StronglySorted_inv in Hs as [H1 H2]. inversion Hf; subst.
    constructor; [auto|].
    apply Forall_app. split; [exact H2|]. constructor; [assumption|constructor].
Qed.

Lemma StronglySorted_prefix {A} (R : A -> A -> Prop) (l l' : list A) :
  StronglySorted R (l ++ l') -> StronglySorted R l.
Proof.
  induction l as [|a l IH]; simpl; intros H; [constructor|].
  apply StronglySorted_inv in H as [H1 H2]. constructor; [auto|].
  apply Forall_app in H2. tauto.
Qed.

Lemma decluster_loop_separated (r : Z) (l : list (time * Q)) :
  forall done cur,
    separated r (done ++ [cur]) ->
    ascending (cur :: l) ->
    separated r (Core.decluster_loop r done cur l).
Proof.
  unfold separated, ascending.
  induction l as [|e l IH]; intros done cur Hs Ha; simpl; [exact Hs|].
  apply StronglySorted_inv in Ha as [Ha Hcur].
  apply StronglySorted_inv in Ha as Hel. destruct Hel as [Hl He].
  inversion Hcur as [|? ? Hce Hcl]; subst.
  pose proof (StronglySorted_last _ _ _ Hs) as Hd.
  destruct (r <=? fst e - fst cur) eqn:E.
  - apply IH; [|exact Ha].
    apply StronglySorted_snoc; [exact Hs|].
    apply Forall_app. split.
    + eapply List.Forall_impl; [|exact Hd]. cbn beta. intros x Hx. lia.
    + constructor; [apply Z.leb_le in E; lia|constructor].
  - destruct (Qltb (snd cur) (snd e)).
    + apply IH; [|exact Ha].
      apply StronglySorted_snoc; [eapply StronglySorted_prefix; exact Hs|].
      eapply List.Forall_impl; [|exact Hd]. cbn beta. intros x Hx. lia.
    + apply IH; [exact Hs|].
      constructor; [exact Hl|exact Hcl].
Qed.

Lemma StronglySorted_related {A} (R : A -> A -> Prop) (l : list A) (a b : A) :
  StronglySorted R l -> In a l -> In b l -> a = b \/ R a b \/ R b a.
Proof.
  induction 1 as [|x l Hs IH Hf]; intros Ha Hb; [destruct Ha|].
  rewrite List.Forall_forall in Hf.
  destruct Ha as [<-|Ha], Hb as [<-|Hb]; auto.
Qed.

Lemma StronglySorted_NoDup {A} (R : A -> A -> Prop) (l : list A) :
  (forall a, ~ R a a) -> StronglySorted R l -> List.NoDup l.
Proof.
  intros Hirr. induction 1 as [|x l Hs IH Hf]; constructor; [|exact IH].
  intros Hin. rewrite List.Forall_forall in Hf. exact (Hirr x (Hf x Hin)).
Qed.

(** Rows in ascending order of the index whose events are those of a
    separated list are separated themselves. *)
Lemma separated_rows (r : Z) (peaks : list (time * Q))
      (rows : list (time * Q * Q)) :
  separated r peaks -> Permutation (events rows) peaks ->
  index_ascending rows -> separated r (events rows).
Proof.
  intros Hsep Hperm Hasc. unfold separated, events.
  destruct (Z_le_gt_dec r 0) as [Hr|Hr].
  - clear Hperm. induction Hasc as [|a l Hs IH Hf]; simpl; constructor;
      [exact IH|].
    rewrite List.Forall_forall in *. intros x Hx.
    apply in_map_iff in Hx as (b & <- & Hb). specialize (Hf b Hb). lia.
  - assert (Hnd : List.NoDup (events rows)).
    { apply (Permutation_NoDup (Permutation_sym Hperm)).
      apply (StronglySorted_NoDup (fun a b => fst a + r <= fst b));
        [intros a; lia|exact Hsep]. }
    assert (Hin : forall x, In x (events rows) -> In x peaks).
    { intros x. apply Permutation_in. exact Hperm. }
    unfold events in *. clear Hperm.
    induction Hasc as [|a l Hs IH Hf]; simpl in *; constructor.
    + apply IH; [inversion Hnd; assumption|auto].
    + inversion Hnd as [|? ? Hnot Hnd']; subst.
      rewrite List.Forall_forall in *. intros x Hx.
      pose proof Hx as Hx'.
      apply in_map_iff in Hx as (b & <- & Hb). specialize (Hf b Hb).
      destruct (StronglySorted_related _ _ (fst a) (fst b) Hsep) as [E|[E|E]];
        [apply Hin; auto|apply Hin; auto| | |].
      * rewrite E in Hnot. contradiction.
      * exact E.
      * cbn beta in E. lia.
Qed.

(** X3.  On data in ascending order of the index, the events of a
    declustered POT extraction that returns are stored in the order of
    time, and each is at least the run length after every event stored
    before it.  The run length is [datetime.timedelta(hours=r)] as Python
    computes it, a whole number of microseconds: the whole hours of [r]
    exactly, the fraction of an hour multiplied in double arithmetic, the
    sum rounded half to even. *)
Theorem pot_declustered_events_separated (self : Core.EVA) (st : store)
        (u r : Q) (s : Core.state) :
  ascending (deref st (Core.data self)) ->
  pot u r true (self, st) = (Ret tt, s) ->
  exists rows,
    Core.extremes (fst s) = Core.Ranked rows /\
    index_ascending rows /\
    separated (timedelta_hours r) (events rows).
Proof.
  intros Hasc H. destruct (pot_numeric _ _ _ _ _ _ H) as [col Hcol].
  destruct (pot_peaks _ _ _ _ _ _ col Hcol H) as (peaks & He & Hp).
  eexists. split; [exact He|].
  split; [apply rank_index_ascending|].
  apply (separated_rows _ peaks);
    [|apply rank_events|apply rank_index_ascending].
  assert (Hsel : ascending (select_gt u col)).
  { apply select_ascending. eapply numeric_column_ascending; eauto. }
  destruct (select_gt u col) as [|e l]; [discriminate|].
  injection Hp as <-. apply (decluster_loop_separated _ l [] e); [|exact Hsel].
  constructor; constructor.
Qed.

Lemma pot_declustered_events_separated_witness :
  exists rows,
    Core.extremes (fst short_pot_state) = Core.Ranked rows /\
    index_ascending rows /\
    separated (timedelta_hours 24) (events rows).
Proof.
  assert (H : pot 10 24 true (fst short_state, snd short_state) =
              (Ret tt, short_pot_state)).
  { vm_compute. reflexivity. }
  assert (Ha : ascending (deref (snd short_state) (Core.data (fst short_state)))).
  { vm_compute. repeat constructor; discriminate. }
  exact (pot_declustered_events_separated _ _ _ _ _ Ha H).
Defined.

Lemma decluster_loop_dominates (r : Z) (l : list (time * Q)) :
  forall done cur x,
    In x (done ++ cur :: l) ->
    exists y, In y (Core.decluster_loop r done cur l) /\ (snd x <= snd y)%Q.
Proof.
  induction l as [|e l IH]; intros done cur x Hin; simpl.
  - exists x. split; [exact Hin|apply Qle_refl].
  - destruct (r <=? fst e - fst cur).
    + apply IH. rewrite <- app_assoc. exact Hin.
    + destruct (Qltb (snd cur) (snd e)) eqn:E.
      * apply in_app_or in Hin as [Hin|[<-|Hin]].
        -- apply IH. apply in_or_app. auto.
        -- destruct (IH done e e) as (y & Hy & Hle);
             [apply in_or_app; right; left; reflexivity|].
           exists y. split; [exact Hy|].
           apply Qltb_lt in E. apply Qlt_le_weak.
           eapply Qlt_le_trans; eauto.
        -- apply IH. apply in_or_app. right. exact Hin.
      * apply in_app_or in Hin as [Hin|[<-|[<-|Hin]]].
        -- apply IH. apply in_or_app. auto.
        -- apply IH. apply in_or_app. right. left. reflexivity.
        -- destruct (IH done cur cur) as (y & Hy & Hle);
             [apply in_or_app; right; left; reflexivity|].
           exists y. split; [exact Hy|].
           apply Qltb_ge in E. eapply Qle_trans; eauto.
        -- apply IH. apply in_or_app. right. right. exact Hin.
Qed.

(** X4.  Declustering keeps the highest sample: when a declustered POT
    extraction returns, no sample above the threshold exceeds every
    event, in whatever order the index is. *)
Theorem pot_declustering_keeps_highest (self : Core.EVA) (st : store)
        (u r : Q) (s : Core.state) (col : list (time * float64)) :
  numeric_column (deref st (Core.data self)) = Some col ->
  pot u r true (self, st) = (Ret tt, s) ->
  exists rows,
    Core.extremes (fst s) = Core.Ranked rows /\
    forall t q, In (t, Fin q) col -> (u < q)%Q ->
      exists row, In row rows /\ (q <= snd (fst row))%Q.
Proof.
  intros Hcol H.
  destruct (pot_peaks _ _ _ _ _ _ col Hcol H) as (peaks & He & Hp).
  eexists. split; [exact He|]. intros t q Hin Hq.
  assert (Hsel : In (t, q) (select_gt u col)).
  { apply select_In. split; [exact Hin|apply Qltb_lt; exact Hq]. }
  destruct (select_gt u col) as [|e l]; [discriminate|].
  injection Hp as <-.
  destruct (decluster_loop_dominates (timedelta_hours r) l [] e (t, q) Hsel)
    as (y & Hy & Hle).
  apply (Permutation_in _ (Permutation_sym (rank_events (Core.N self) _))) in Hy.
  unfold events in Hy. apply in_map_iff in Hy as (row & <- & Hrow).
  exists row. split; [exact Hrow|exact Hle].
Qed.

Lemma pot_declustering_keeps_highest_witness :
  exists rows,
    Core.extremes (fst short_pot_state) = Core.Ranked rows /\
    forall t q,
      In (t, Fin q)
         [(datetime 2001 3 1 0, Fin 11); (datetime 2001 3 2 0, Fin 4);
          (datetime 2001 3 8 0, Fin 13)] -> (10 < q)%Q ->
      exists row, In row rows /\ (q <= snd (fst row))%Q.
Proof.
  assert (H : pot 10 24 true (fst short_state, snd short_state) =
              (Ret tt, short_pot_state)).
  { vm_compute. reflexivity. }
  assert (Hc : numeric_column
                 (deref (snd short_state) (Core.data (fst short_state))) =
               Some [(datetime 2001 3 1 0, Fin 11); (datetime 2001 3 2 0, Fin 4);
                     (datetime 2001 3 8 0, Fin 13)]).
  { vm_compute. reflexivity. }
  exact (pot_declustering_keeps_highest _ _ _ _ _ _ Hc H).
Defined.

(** ** Block maxima, year by year *)

Lemma same_value_refl (x : float64) : Core.same_value x x = true.
Proof. destruct x; simpl; [apply Qeq_bool_iff; reflexivity|reflexivity]. Qed.

Lemma same_value_trans (x y z : float64) :
  Core.same_value x y = true -> Core.same_value y z = true ->
  Core.same_value x z = true.
Proof.
  destruct x, y, z; simpl; try discriminate; auto.
  rewrite !Qeq_bool_iff. intros H1 H2. rewrite H1. exact H2.
Qed.

Lemma same_value_sym (x y : float64) :
  Core.same_value x y = true -> Core.same_value y x = true.
Proof.
  destruct x, y; simpl; try discriminate; auto.
  rewrite !Qeq_bool_iff. intros H. symmetry. exact H.
Qed.

Lemma seen_trans (x y : float64) (seen : list float64) :
  Core.same_value x y = true ->
  existsb (Core.same_value y) seen = true ->
  existsb (Core.same_value x) seen = true.
Proof.
  intros Hxy H. apply existsb_exists in H as (z & Hz & Hyz).
  apply existsb_exists. exists z. split; [exact Hz|].
  eapply same_value_trans; eauto.
Qed.

Lemma drop_duplicates_from_In (l : list (time * float64)) :
  forall seen t x,
    In (t, x) (Core.drop_duplicates_from seen l) -> In (t, x) l.
Proof.
  induction l as [|[t0 x0] l IH]; intros seen t x H; simpl in *; [exact H|].
  destruct (existsb (Core.same_value x0) seen).
  - right. eapply IH; eauto.
  - destruct H as [H|H]; [left; exact H|right; eapply IH; eauto].
Qed.

Lemma drop_duplicates_from_covers (l : list (time * float64)) :
  forall seen t x,
    In (t, x) l ->
    existsb (Core.same_value x) seen = true \/
    exists t' x', In (t', x') (Core.drop_duplicates_from seen l) /\
                  Core.same_value x x' = true.
Proof.
  induction l as [|[t0 x0] l IH]; intros seen t x H; [destruct H|].
  simpl. destruct (existsb (Core.same_value x0) seen) eqn:E.
  - destruct H as [H|H]; [injection H as <- <-; left; exact E|].
    exact (IH seen t x H).
  - destruct H as [H|H].
    + injection H as <- <-. right. exists t0, x0.
      split; [left; reflexivity|apply same_value_refl].
    + destruct (IH (x0 :: seen) t x H) as [Hs|(t' & x' & Hin & Hsame)].
      * simpl in Hs. apply orb_true_iff in Hs as [Hs|Hs]; [|left; exact Hs].
        right. exists t0, x0. split; [left; reflexivity|exact Hs].
      * right. exists t', x'. split; [right; exact Hin|exact Hsame].
Qed.

(** After [drop_duplicates] at most one row has a given value. *)
Lemma drop_duplicates_from_once (m : Q) (l : list (time * float64)) :
  forall seen,
    (length (select (fun q => Qeq_bool q m)
                    (Core.drop_duplicates_from seen l)) <= 1)%nat /\
    (existsb (Core.same_value (Fin m)) seen = true ->
     select (fun q => Qeq_bool q m) (Core.drop_duplicates_from seen l) = []).
Proof.
  induction l as [|[t0 x0] l IH]; intros seen; simpl; [split; auto|].
  destruct (existsb (Core.same_value x0) seen) eqn:E; [apply IH|].
  destruct x0 as [q0|]; simpl.
  - destruct (Qeq_bool q0 m) eqn:Eq.
    + assert (Hs : existsb (Core.same_value (Fin m)) (Fin q0 :: seen) = true).
      { simpl. apply orb_true_iff. left. apply Qeq_bool_iff.
        apply Qeq_bool_iff in Eq. symmetry. exact Eq. }
      split.
      * simpl. rewrite (proj2 (IH (Fin q0 :: seen)) Hs). simpl. lia.
      * intros Hm. rewrite (seen_trans (Fin q0) (Fin m) seen) in E;
          [discriminate|exact Eq|exact Hm].
    + split; [apply IH|]. intros Hm. apply IH. simpl. rewrite Hm.
      apply orb_true_r.
  - split; [apply IH|]. intros Hm. apply IH. simpl. exact Hm.
Qed.

Lemma column_max_NaN (l : list (time * float64)) :
  Core.column_max l = NaN -> forall t q, ~ In (t, Fin q) l.
Proof.
  induction l as [|[t0 [a|]] l IH]; simpl; intros H t q Hin; [exact Hin| |].
  - destruct (Core.column_max l); discriminate.
  - destruct Hin as [Hin|Hin]; [discriminate|]. exact (IH H t q Hin).
Qed.

Lemma column_max_spec (l : list (time * float64)) (m : Q) :
  Core.column_max l = Fin m ->
  (exists t, In (t, Fin m) l) /\ forall t q, In (t, Fin q) l -> (q <= m)%Q.
Proof.
  revert m. induction l as [|[t0 [a|]] l IH]; simpl; intros m H;
    [discriminate| |].
  - destruct (Core.column_max l) as [b|] eqn:Eb.
    + destruct (IH b eq_refl) as [[tb Hb] Hle].
      destruct (Qle_bool a b) eqn:Eab; injection H as <-.
      * split; [exists tb; right; exact Hb|].
        intros t q [Hin|Hin]; [|eauto].
        injection Hin as <- <-. apply Qle_bool_iff. exact Eab.
      * assert (Hba : (b <= a)%Q).
        { apply Qlt_le_weak. apply Qltb_lt. unfold Qltb. rewrite Eab.
          reflexivity. }
        split; [exists t0; left; reflexivity|].
        intros t q [Hin|Hin]; [injection Hin as <- <-; apply Qle_refl|].
        eapply Qle_trans; [|exact Hba]. eauto.
    + injection H as <-. split; [exists t0; left; reflexivity|].
      intros t q [Hin|Hin]; [injection Hin as <- <-; apply Qle_refl|].
      exfalso. exact (column_max_NaN l Eb t q Hin).
  - destruct (IH m H) as [[tm Hm] Hle]. split; [exists tm; right; exact Hm|].
    intros t q [Hin|Hin]; [discriminate|eauto].
Qed.

Lemma block_maximum_once (col : list (time * float64)) (y : Z) :
  (length (Core.block_maximum col y) <= 1)%nat.
Proof.
  unfold Core.block_maximum, Core.drop_duplicates.
  destruct (Core.column_max _) as [m|]; [|simpl; lia].
  apply drop_duplicates_from_once.
Qed.

Lemma block_maximum_In (col : list (time * float64)) (y : Z) (t : time) (v : Q) :
  In (t, v) (Core.block_maximum col y) ->
  In (t, Fin v) col /\ year_of t = y /\
  forall t' q, In (t', Fin q) col -> year_of t' = y -> (q <= v)%Q.
Proof.
  unfold Core.block_maximum, Core.drop_duplicates.
  set (F := List.filter (fun row => year_of (fst row) =? y) col).
  destruct (Core.column_max (Core.drop_duplicates_from [] F)) as [m|] eqn:Em;
    [|intros []].
  intros H. apply select_In in H as [Hin Hv].
  apply Qeq_bool_iff in Hv.
  apply drop_duplicates_from_In in Hin. unfold F in Hin.
  apply filter_In in Hin as [Hin Hy]. simpl in Hy. apply Z.eqb_eq in Hy.
  split; [exact Hin|]. split; [exact Hy|].
  intros t' q Hin' Hy'.
  assert (HF : In (t', Fin q) F).
  { unfold F. apply filter_In. split; [exact Hin'|]. simpl.
    apply Z.eqb_eq. exact Hy'. }
  destruct (drop_duplicates_from_covers F [] t' (Fin q) HF)
    as [Hs|(t1 & x1 & H1 & Hsame)]; [discriminate|].
  destruct x1 as [q1|]; [|discriminate]. simpl in Hsame.
  apply Qeq_bool_iff in Hsame.
  destruct (column_max_spec _ m Em) as [_ Hle].
  rewrite Hsame, Hv. exact (Hle t1 q1 H1).
Qed.

Lemma block_maximum_exists (col : list (time * float64)) (t : time) (q : Q) :
  In (t, Fin q) col ->
  exists e, In e (Core.block_maximum col (year_of t)).
Proof.
  intros Hin. unfold Core.block_maximum, Core.drop_duplicates.
  set (F := List.filter (fun row => year_of (fst row) =? year_of t) col).
  assert (HF : In (t, Fin q) F).
  { unfold F. apply filter_In. split; [exact Hin|]. simpl. apply Z.eqb_refl. }
  destruct (drop_duplicates_from_covers F [] t (Fin q) HF)
    as [Hs|(t1 & x1 & H1 & Hsame)]; [discriminate|].
  destruct x1 as [q1|]; [|discriminate].
  destruct (Core.column_max (Core.drop_duplicates_from [] F)) as [m|] eqn:Em.
  - destruct (column_max_spec _ m Em) as [[tm Hm] _].
    exists (tm, m). apply select_In. split; [exact Hm|].
    apply Qeq_bool_iff. reflexivity.
  - exfalso. exact (column_max_NaN _ Em t1 q1 H1).
Qed.

Lemma dedup_sorted_strict (l : list Z) :
  StronglySorted Z.le l -> StronglySorted Z.lt (dedup_sorted l).
Proof.
  induction l as [|a [|b l] IH]; intros H;
    [constructor|constructor; constructor|].
  change (dedup_sorted (a :: b :: l)) with
    (if a =? b then dedup_sorted (b :: l) else a :: dedup_sorted (b :: l)).
  apply StronglySorted_inv in H as [H1 H2].
  destruct (a =? b) eqn:E; [auto|].
  constructor; [auto|].
  apply Z.eqb_neq in E. inversion H2 as [|? ? Hab Hal]; subst.
  apply StronglySorted_inv in H1 as [_ Hb].
  apply List.Forall_forall. intros x Hx. apply (proj1 (dedup_sorted_In _ _)) in Hx.
  rewrite List.Forall_forall in Hb.
  simpl in Hx. destruct Hx as [<-|Hx]; [lia|]. specialize (Hb x Hx). lia.
Qed.

Lemma np_unique_NoDup (l : list Z) : List.NoDup (np_unique l).
Proof.
  apply (StronglySorted_NoDup Z.lt); [intros a; lia|].
  unfold np_unique. apply dedup_sorted_strict.
  apply (StronglySorted_impl (fun a b => Z.leb a b = true)).
  - intros a b H. apply Z.leb_le. exact H.
  - apply sort_by_sorted.
    + intros a b. rewrite !Z.leb_le. lia.
    + intros a b c. rewrite !Z.leb_le. lia.
Qed.

Lemma numeric_column_index (fr : frame) (col : list (time * float64)) :
  numeric_column fr = Some col -> map fst col = map fst fr.
Proof.
  revert col. induction fr as [|[t [x|s]] fr IH]; simpl; intros col H.
  - injection H as <-. reflexivity.
  - destruct (numeric_column fr) as [l|]; [|discriminate].
    injection H as <-. simpl. f_equal. apply IH. reflexivity.
  - discriminate.
Qed.

Lemma filter_length_perm {A} (p : A -> bool) (l l' : list A) :
  Permutation l l' -> length (List.filter p l) = length (List.filter p l').
Proof.
  induction 1 as [|x l l' _ IH|x y l|l l' l'' _ IH1 _ IH2]; simpl.
  - reflexivity.
  - destruct (p x); simpl; congruence.
  - destruct (p x), (p y); reflexivity.
  - congruence.
Qed.

Lemma filter_map_length {A B} (f : A -> B) (p : B -> bool) (l : list A) :
  length (List.filter (fun x => p (f x)) l) = length (List.filter p (map f l)).
Proof.
  induction l as [|x l IH]; simpl; [reflexivity|].
  destruct (p (f x)); simpl; congruence.
Qed.

Lemma block_maximum_other_year (col : list (time * float64)) (y y' : Z) :
  y' <> y ->
  List.filter (fun e => year_of (fst e) =? y) (Core.block_maximum col y') = [].
Proof.
  intros Hne.
  destruct (List.filter _ _) as [|[t v] l] eqn:E; [reflexivity|].
  assert (Hin : In (t, v) (List.filter (fun e => year_of (fst e) =? y)
                                       (Core.block_maximum col y')))
    by (rewrite E; left; reflexivity).
  apply filter_In in Hin as [Hin Hy]. simpl in Hy. apply Z.eqb_eq in Hy.
  apply block_maximum_In in Hin as (_ & Hy' & _). congruence.
Qed.

Lemma block_maxima_year (col : list (time * float64)) (y : Z) (ys : list Z) :
  List.NoDup ys ->
  (length (List.filter (fun e => (year_of (fst e) =? y)%Z)
                       (concat (map (Core.block_maximum col) ys))) <= 1)%nat.
Proof.
  induction 1 as [|y' ys Hnot Hnd IH]; simpl; [lia|].
  rewrite List.filter_app, length_app.
  destruct (Z.eq_dec y' y) as [->|Hne].
  - assert (E : List.filter (fun e => year_of (fst e) =? y)
                            (concat (map (Core.block_maximum col) ys)) = []).
    { clear IH Hnd. induction ys as [|z ys IH]; simpl; [reflexivity|].
      rewrite List.filter_app, block_maximum_other_year, IH; [reflexivity| |].
      - intros Hin. apply Hnot. right. exact Hin.
      - intros ->. apply Hnot. left. reflexivity. }
    rewrite E. simpl. rewrite Nat.add_0_r.
    eapply Nat.le_trans; [apply filter_length_le|apply block_maximum_once].
  - rewrite block_maximum_other_year by exact Hne. simpl. exact IH.
Qed.

(** X5.  Block maxima on a column of finite numbers: every event is a sample
    that no sample of its calendar year exceeds, every year that has a
    sample has an event, and no year has more than one. *)
Theorem bm_one_event_per_year (self : Core.EVA) (st : store) (s : Core.state)
        (col : list (time * float64)) :
  numeric_column (deref st (Core.data self)) = Some col ->
  finite_column col ->
  bm (self, st) = (Ret tt, s) ->
  exists rows,
    Core.extremes (fst s) = Core.Ranked rows /\
    (forall t v T, In (t, v, T) rows ->
       In (t, Fin v) col /\
       forall t' q, In (t', Fin q) col -> year_of t' = year_of t -> (q <= v)%Q) /\
    (forall t x, In (t, x) col ->
       exists row, In row rows /\ year_of (fst (fst row)) = year_of t) /\
    (forall y, (length (in_year y rows) <= 1)%nat).
Proof.
  intros Hcol Hfin H. rewrite (bm_run self st col Hcol) in H.
  set (years := np_unique (map (fun row => year_of (fst row))
                               (deref st (Core.data self)))) in *.
  destruct years as [|y0 ys] eqn:Ey; [discriminate|]. rewrite <- Ey in H.
  inversion H; subst s. clear H. cbn [fst Core.extremes after_bm].
  set (peaks := concat (map (Core.block_maximum col) years)).
  pose proof (rank_events (Core.N self) peaks) as Hperm.
  exists (Core.rank (Core.N self) peaks). split; [reflexivity|].
  assert (Hpk : forall t v, In (t, v) peaks <->
                            In (t, v) (Core.block_maximum col (year_of t)) ).
  { intros t v. unfold peaks. rewrite in_concat. split.
    - intros (l & Hl & Hin). apply in_map_iff in Hl as (y & <- & Hy).
      pose proof (block_maximum_In _ _ _ _ Hin) as (_ & <- & _). exact Hin.
    - intros Hin. exists (Core.block_maximum col (year_of t)).
      split; [|exact Hin]. apply in_map_iff. exists (year_of t).
      split; [reflexivity|]. unfold years. apply np_unique_In.
      apply block_maximum_In in Hin as (Hin & _ & _).
      apply (numeric_column_In _ _ _ _ Hcol) in Hin.
      apply in_map_iff. exists (t, Num (Fin v)). split; [reflexivity|exact Hin]. }
  split; [|split].
  - intros t v T Hin.
    assert (Hp : In (t, v) peaks).
    { apply (Permutation_in _ Hperm). unfold events. apply in_map_iff.
      exists (t, v, T). auto. }
    apply Hpk in Hp. apply block_maximum_In in Hp as (H1 & _ & H3).
    split; [exact H1|]. intros t' q Hq Hy. apply (H3 t' q Hq Hy).
  - intros t x Hin. destruct (Hfin t x Hin) as [q ->].
    destruct (block_maximum_exists col t q Hin) as [[t1 v1] He].
    pose proof (block_maximum_In _ _ _ _ He) as (_ & Hy & _).
    assert (Hp : In (t1, v1) peaks) by (apply Hpk; rewrite Hy; exact He).
    apply (Permutation_in _ (Permutation_sym Hperm)) in Hp.
    unfold events in Hp. apply in_map_iff in Hp as (row & Hrow & Hin').
    exists row. split; [exact Hin'|]. rewrite Hrow. exact Hy.
  - intros y. unfold in_year.
    rewrite (filter_map_length fst (fun e => year_of (fst e) =? y)).
    fold (events (Core.rank (Core.N self) peaks)).
    rewrite (filter_length_perm _ _ _ Hperm).
    apply block_maxima_year. apply np_unique_NoDup.
Qed.

Lemma bm_one_event_per_year_witness :
  exists rows,
    Core.extremes (fst short_bm_state) = Core.Ranked rows /\
    forall y, (length (in_year y rows) <= 1)%nat.
Proof.
  assert (H : bm (fst short_state, snd short_state) =
              (Ret tt, short_bm_state)).
  { vm_compute. reflexivity. }
  assert (Hc : numeric_column
                 (deref (snd short_state) (Core.data (fst short_state))) =
               Some [(datetime 2001 3 1 0, Fin 11); (datetime 2001 3 2 0, Fin 4);
                     (datetime 2001 3 8 0, Fin 13)]).
  { vm_compute. reflexivity. }
  assert (Hf : finite_column
                 [(datetime 2001 3 1 0, Fin 11); (datetime 2001 3 2 0, Fin 4);
                  (datetime 2001 3 8 0, Fin 13)]).
  { intros t x [E|[E|[E|[]]]]; injection E as _ <-; eauto. }
  destruct (bm_one_event_per_year _ _ _ _ Hc Hf H) as (rows & H1 & _ & _ & H4).
  exists rows. split; assumption.
Defined.

(** ** A failed BM call; the mean residual life diagnostic *)

(** X6.  A BM call with a block other than 'Y', made after a POT extraction,
    raises, but the method is BM already: the POT events stay in place,
    and a [fit] of GEV without confidence then passes the test of the method and
    returns, on the POT events. *)
Theorem failed_bm_call_unlocks_gev (sps : Core.scipy) (self : Core.EVA)
        (st : store) (u r : Q) (decl : bool) (s : Core.state) (b : pyval)
        (k : Z) (trunc : bool) (fuel : nat) :
  pot u r decl (self, st) = (Ret tt, s) ->
  is_str "Y" b = false ->
  (exists e, fst (bm_block b s) = Raise e) /\
  Core.method (fst (snd (bm_block b s))) = "BM"%string /\
  Core.extremes (fst (snd (bm_block b s))) = Core.extremes (fst s) /\
  fst (Core.fit sps "GEV" false k trunc fuel (snd (bm_block b s))) = Ret tt.
Proof.
  intros H Hb. apply pot_state in H as [peaks ->].
  assert (E : snd (bm_block b (after_pot self (Core.Ranked (Core.rank (Core.N self) peaks)) (Some u), st)) =
              (after_bm (after_pot self (Core.Ranked (Core.rank (Core.N self) peaks)) (Some u))
                        (Core.Ranked (Core.rank (Core.N self) peaks)), st)).
  { unfold bm_block, Core.get_extremes, Core.bind. cbn. rewrite Hb.
    destruct (is_str "M" b); [reflexivity|].
    destruct (is_str "W" b); reflexivity. }
  split; [|rewrite E; split; [reflexivity|split; [reflexivity|]]].
  - unfold bm_block. rewrite get_extremes_bm_block by exact Hb.
    destruct (is_str "M" b || is_str "W" b); eauto.
  - eapply fit_without_confidence.
    unfold Core.select_family, Core.extreme_values, Core.fitted, Core.bind,
      Core.get_self. cbn. reflexivity.
Qed.

Lemma failed_bm_call_unlocks_gev_witness :
  fst (Core.fit fixed_services "GEV" false 100 true 0
         (snd (bm_block (PStr "M") short_pot_state))) = Ret tt.
Proof.
  assert (H : pot 10 24 true (fst short_state, snd short_state) =
              (Ret tt, short_pot_state)).
  { vm_compute. reflexivity. }
  exact (proj2 (proj2 (proj2
    (failed_bm_call_unlocks_gev fixed_services _ _ 10 24 true _ (PStr "M")
                                100 true 0%nat H eq_refl)))).
Defined.

Lemma clip_filter (us : list Q) (m : Q) :
  Core.clip us (Fin m) = List.filter (fun u => Qle_bool u m) us.
Proof.
  unfold Core.clip. destruct (existsb _ us) eqn:E; [reflexivity|].
  induction us as [|u us IH]; simpl in *; [reflexivity|].
  apply orb_false_iff in E as [E1 E2]. unfold Qltb in E1.
  apply negb_false_iff in E1. rewrite E1. f_equal. exact (IH E2).
Qed.






Lemma residuals_declustered_at_maximum (r : Q) (st : store)
      (col : list (time * float64)) (m : Q) :
  timedelta_in_range r = true ->
  Core.column_max col = Fin m ->
  forall us self,
    numeric_column (deref st (Core.data self)) = Some col ->
    (forall u, In u us -> (u <= m)%Q) ->
    (exists u, In u us /\ (u == m)%Q) ->
    fst (Core.residuals_declustered r us (self, st)) = Raise IndexError.
Proof.
  intros Hr Hm. destruct (column_max_spec col m Hm) as [[tm Hin] Hle].
  induction us as [|u us IH]; intros self Hcol Hall Hex.
  - destruct Hex as (u & [] & _).
  - change (Core.residuals_declustered r (u :: us) (self, st)) with
      (Core.bind (pot u r true)
         (fun _ => Core.bind Core.extreme_values
            (fun values => Core.bind (Core.residuals_declustered r us)
               (fun rest => Core.ret (map (fun v => v - u)%Q values :: rest))))
         (self, st)).
    unfold Core.bind at 1. rewrite (pot_run self st u r true col Hcol).
    cbn zeta. rewrite Hr.
    destruct (Qlt_le_dec u m) as [Hlt|Hge].
    + assert (Hsel : In (tm, m) (select_gt u col)).
      { apply select_In. split; [exact Hin|apply Qltb_lt; exact Hlt]. }
      destruct (select_gt u col) as [|e l]; [destruct Hsel|].
      unfold Core.bind at 1. unfold Core.extreme_values at 1.
      unfold Core.bind at 1. cbn [Core.get_self fst snd after_pot Core.extremes
                                  Core.ret].
      unfold Core.bind at 1.
      match goal with
      | |- context [Core.residuals_declustered r us (?o, st)] =>
          specialize (IH o)
      end.
      destruct (Core.residuals_declustered r us _) as [[a|e'|] s1] eqn:E;
        simpl in IH |- *.
      * exfalso. assert (X : Ret a = Raise IndexError); [|discriminate].
        apply IH; [exact Hcol|intros; apply Hall; right; assumption|].
        destruct Hex as (u' & [<-|Hu'] & Heq); [|eauto].
        rewrite Heq in Hlt. exfalso. exact (Qlt_irrefl _ Hlt).
      * apply IH; [exact Hcol|intros; apply Hall; right; assumption|].
        destruct Hex as (u' & [<-|Hu'] & Heq); [|eauto].
        rewrite Heq in Hlt. exfalso. exact (Qlt_irrefl _ Hlt).
      * apply IH; [exact Hcol|intros; apply Hall; right; assumption|].
        destruct Hex as (u' & [<-|Hu'] & Heq); [|eauto].
        rewrite Heq in Hlt. exfalso. exact (Qlt_irrefl _ Hlt).
    + assert (E : select_gt u col = []).
      { apply select_nil. intros t q Hq. apply Qltb_ge.
        eapply Qle_trans; [apply (Hle t q Hq)|exact Hge]. }
      rewrite E. reflexivity.
Qed.

(** X8.  With declustering and a run length within the range of
    [timedelta], [pot_residuals] raises IndexError whenever one of the
    thresholds equals the maximum of the column: the threshold passes the
    clipping, and the extraction at it finds no sample strictly above
    it. *)
Theorem pot_residuals_declustered_at_maximum (z : R) (us : list Q) (r : Q)
        (self : Core.EVA) (st : store) (col : list (time * float64))
        (m u : Q) :
  numeric_column (deref st (Core.data self)) = Some col ->
  Core.column_max col = Fin m ->
  In u us -> (u == m)%Q ->
  timedelta_in_range r = true ->
  fst (Core.pot_residuals z us true r (self, st)) = Raise IndexError.
Proof.
  intros Hcol Hm Hu Heq Hr. unfold Core.pot_residuals.
  destruct us as [|u0 us0]; [destruct Hu|].
  set (us := u0 :: us0) in *.
  unfold Core.bind at 1. unfold Core.column. cbn [fst snd].
  rewrite Hcol, Hm, clip_filter. unfold Core.bind.
  assert (H : fst (Core.residuals_declustered r
                     (List.filter (fun u => Qle_bool u m) us) (self, st)) =
              Raise IndexError).
  { apply (residuals_declustered_at_maximum r st col m Hr Hm); [exact Hcol| |].
    - intros u' Hu'. apply filter_In in Hu' as [_ Hu'].
      apply Qle_bool_iff. exact Hu'.
    - exists u. split; [|exact Heq]. apply filter_In. split; [exact Hu|].
      apply Qle_bool_iff. rewrite Heq. apply Qle_refl. }
  destruct (Core.residuals_declustered r _ (self, st)) as [[a|e|] s1] eqn:E;
    cbn [fst] in H; [discriminate| |discriminate].
  injection H as ->. reflexivity.
Qed.

Lemma pot_residuals_declustered_at_maximum_witness :
  fst (Core.pot_residuals 2 [10%Q; 13%Q] true 24 short_state) =
    Raise IndexError.
Proof.
  assert (Hc : numeric_column
                 (deref (snd short_state) (Core.data (fst short_state))) =
               Some [(datetime 2001 3 1 0, Fin 11); (datetime 2001 3 2 0, Fin 4);
                     (datetime 2001 3 8 0, Fin 13)]).
  { vm_compute. reflexivity. }
  assert (Hm : Core.column_max
                 [(datetime 2001 3 1 0, Fin 11); (datetime 2001 3 2 0, Fin 4);
                  (datetime 2001 3 8 0, Fin 13)] = Fin 13).
  { vm_compute. reflexivity. }
  assert (Hu : In 13%Q [10%Q; 13%Q]) by (right; left; reflexivity).
  assert (He : (13 == 13)%Q) by reflexivity.
  assert (Hr : timedelta_in_range 24 = true) by (vm_compute; reflexivity).
  exact (pot_residuals_declustered_at_maximum 2 [10%Q; 13%Q] 24
           (fst short_state) (snd short_state) _ 13 13 Hc Hm Hu He Hr).
Defined.

(** ** Fitting before and after an extraction *)

(** The object as construction leaves it. *)
Lemma init_fresh (df : positive) (handle_nans : bool) (st : store)
      (o : Core.EVA) (st' : store) :
  Core.init df handle_nans st = (Ret o, st') ->
  Core.extremes o = Core.NoValue /\ Core.method o = Core.no_extremes /\
  Core.threshold o = None /\ Core.retvalsum o = None.
Proof.
  unfold Core.init. destruct (np_unique _); [discriminate|].
  destruct handle_nans; intros H; inversion H; subst; cbn; auto.
Qed.



(** X10.  After construction and a BM extraction alone, Gumbel, Weibull,
    Log-normal and Pearson 3 cannot be fitted: they subtract the
    threshold, which only a POT extraction sets, and raise TypeError. *)
Theorem fit_after_bm_needs_threshold (sps : Core.scipy) (df : positive)
        (handle_nans : bool) (st : store) (o : Core.EVA) (st' : store)
        (s : Core.state) (confidence : bool) (k : Z) (trunc : bool)
        (fuel : nat) :
  Core.init df handle_nans st = (Ret o, st') ->
  bm (o, st') = (Ret tt, s) ->
  forall d,
    In d ["Gumbel"; "Weibull"; "Log-normal"; "Pearson 3"]%string ->
    fst (Core.fit sps d confidence k trunc fuel s) =
      Raise (TypeError "unsupported operand type(s) for -").
Proof.
  intros H Hbm d Hd. apply init_fresh in H as (_ & _ & Ht & _).
  apply bm_state in Hbm as [peaks ->].
  apply fit_family_raises.
  unfold Core.select_family, Core.excesses, Core.extreme_values, Core.bind,
    Core.get_self.
  destruct Hd as [<-|[<-|[<-|[<-|[]]]]]; cbn; rewrite Ht; reflexivity.
Qed.

Lemma fit_after_bm_needs_threshold_witness :
  fst (Core.fit fixed_services "Gumbel" false 100 true 0 short_bm_state) =
    Raise (TypeError "unsupported operand type(s) for -").
Proof.
  assert (H : Core.init 1%positive true {[ 1%positive := short_frame ]} =
              (Ret (fst short_state), snd short_state)).
  { vm_compute. reflexivity. }
  assert (Hb : bm (fst short_state, snd short_state) =
               (Ret tt, short_bm_state)).
  { vm_compute. reflexivity. }
  exact (fit_after_bm_needs_threshold fixed_services _ _ _ _ _ _
           false 100 true 0%nat H Hb "Gumbel"%string (or_introl eq_refl)).
Defined.

(** X11.  After a POT extraction that found events, [fit] with confidence
    for Weibull, Log-normal or Pearson 3 raises ValueError, but only after
    it has replaced the distribution and the summary table: the table
    holds a row for every return period of the grid, without bounds.  The
    fit of the parameters, which comes first, is taken to return: it is a
    total service of scipy in the model. *)
Theorem fit_confidence_unsupported (sps : Core.scipy) (self : Core.EVA)
        (st : store) (u r : Q) (decl : bool) (s : Core.state) (d : string)
        (k : Z) (trunc : bool) (fuel : nat) :
  pot u r decl (self, st) = (Ret tt, s) ->
  0 < Core.len_extremes (fst s) ->
  In d ["Weibull"; "Log-normal"; "Pearson 3"]%string ->
  fst (Core.fit sps d true k trunc fuel s) =
    Raise (ValueError
             "Monte Carlo method not defined for this distribution yet.") /\
  Core.distribution (fst (snd (Core.fit sps d true k trunc fuel s))) = d /\
  exists rows,
    Core.retvalsum (fst (snd (Core.fit sps d true k trunc fuel s))) =
      Some rows /\
    map period rows = Core.return_period_grid sps /\
    Forall (fun row => snd row = None) rows.
Proof.
  intros H _ Hd. apply pot_state in H as [peaks ->].
  set (rows := Core.rank (Core.N self) peaks).
  pose proof (select_family_unchecked sps d
                (with_distribution d
                   (after_pot self (Core.Ranked rows) (Some u), st))
                rows u Hd eq_refl eq_refl) as Hdist.
  assert (Hg : String.eqb d "GPD" = false /\ String.eqb d "GEV" = false).
  { destruct Hd as [<-|[<-|[<-|[]]]]; split; reflexivity. }
  destruct Hg as [Hg1 Hg2].
  assert (E : exists rows0,
             Core.fit sps d true k trunc fuel
               (after_pot self (Core.Ranked rows) (Some u), st) =
             (Raise (ValueError
                "Monte Carlo method not defined for this distribution yet."),
              (Core.mkEVA (Core.data self) (Core.N self) (Core.Ranked rows)
                          "POT" (Some u) d (Some rows0), st)) /\
             map period rows0 = Core.return_period_grid sps /\
             Forall (fun row => snd row = None) rows0).
  { unfold Core.fit.
    unfold Core.bind at 1. unfold Core.set_distribution at 1.
    unfold Core.update at 1. cbv beta iota.
    fold (with_distribution d (after_pot self (Core.Ranked rows) (Some u), st)).
    unfold Core.bind at 1. rewrite Hdist. cbv beta iota.
    unfold Core.bind, Core.get_self, Core.set_retvalsum, Core.update,
      Core.raise.
    cbn -[Core.return_period_grid Core.ret_val String.eqb].
    rewrite Hg1, Hg2.
    cbn -[Core.return_period_grid Core.ret_val String.eqb].
    eexists. split; [reflexivity|]. split.
    - unfold period. rewrite List.map_map. cbn [fst].
      generalize (Core.return_period_grid sps). intros l.
      induction l as [|t l IH]; simpl; [reflexivity|]. f_equal. exact IH.
    - apply List.Forall_forall. intros row Hrow.
      apply in_map_iff in Hrow as (tv & <- & _). reflexivity. }
  destruct E as (rows0 & E & H1 & H2). rewrite E. cbn [fst snd].
  split; [reflexivity|]. split; [reflexivity|].
  exists rows0. split; [reflexivity|]. split; assumption.
Qed.

Lemma fit_confidence_unsupported_witness :
  fst (Core.fit fixed_services "Weibull" true 100 true 0 short_pot_state) =
    Raise (ValueError
             "Monte Carlo method not defined for this distribution yet.").
Proof.
  assert (H : pot 10 24 true (fst short_state, snd short_state) =
              (Ret tt, short_pot_state)).
  { vm_compute. reflexivity. }
  exact (proj1 (fit_confidence_unsupported fixed_services
                  (fst short_state) (snd short_state) 10 24 true
                  short_pot_state "Weibull"%string 100 true 0%nat H
                  eq_refl (or_introl eq_refl))).
Defined.

(** ** The summary table of [fit]; the number of blocks *)

Lemma bind_ret_inv {A B} (m : Core.M A) (k : A -> Core.M B)
      (s : Core.state) (b : B) (s' : Core.state) :
  Core.bind m k s = (Ret b, s') ->
  exists a s1, m s = (Ret a, s1) /\ k a s1 = (Ret b, s').
Proof.
  unfold Core.bind. destruct (m s) as [[a|e|] s1]; intros H;
    [eauto|discriminate|discriminate].
Qed.

Lemma dedup_sortedQ_In (x : Q) (l : list Q) :
  In x (Core.dedup_sortedQ l) -> In x l.
Proof.
  induction l as [|a [|b l] IH]; [tauto|tauto|].
  change (Core.dedup_sortedQ (a :: b :: l)) with
    (if Qeq_bool a b then Core.dedup_sortedQ (b :: l)
     else a :: Core.dedup_sortedQ (b :: l)).
  destruct (Qeq_bool a b).
  - intros H. right. exact (IH H).
  - intros [H|H]; [left; exact H|right; exact (IH H)].
Qed.

Lemma dedup_sortedQ_strict (l : list Q) :
  StronglySorted Qle l -> StronglySorted Qlt (Core.dedup_sortedQ l).
Proof.
  induction l as [|a [|b l] IH]; intros H;
    [constructor|constructor; constructor|].
  change (Core.dedup_sortedQ (a :: b :: l)) with
    (if Qeq_bool a b then Core.dedup_sortedQ (b :: l)
     else a :: Core.dedup_sortedQ (b :: l)).
  apply StronglySorted_inv in H as [H1 H2].
  destruct (Qeq_bool a b) eqn:E; [auto|].
  constructor; [auto|].
  inversion H2 as [|? ? Hab Hal]; subst.
  apply StronglySorted_inv in H1 as [_ Hb].
  assert (Hlt : (a < b)%Q).
  { apply Qle_lteq in Hab as [Hab|Hab]; [exact Hab|].
    apply Qeq_bool_iff in Hab. congruence. }
  apply List.Forall_forall. intros x Hx. apply dedup_sortedQ_In in Hx.
  rewrite List.Forall_forall in Hb. simpl in Hx.
  destruct Hx as [<-|Hx]; [exact Hlt|].
  eapply Qlt_le_trans; [exact Hlt|]. exact (Hb x Hx).
Qed.

Lemma return_period_grid_ascending (sps : Core.scipy) :
  StronglySorted Qlt (Core.return_period_grid sps).
Proof.
  unfold Core.return_period_grid, Core.np_uniqueQ.
  apply dedup_sortedQ_strict.
  apply (StronglySorted_impl (fun a b => Qle_bool a b = true)).
  - intros a b H. apply Qle_bool_iff. exact H.
  - apply sort_by_sorted.
    + intros a b. rewrite !Qle_bool_iff.
      destruct (Qlt_le_dec b a) as [H|H]; [right|left]; auto.
      apply Qlt_le_weak. exact H.
    + intros a b c. rewrite !Qle_bool_iff. apply Qle_trans.
Qed.

Lemma point_estimates_on_grid (f : Q -> float64) (rp : list Q) :
  StronglySorted Qlt rp ->
  on_grid rp (map (fun tv : Q * float64 => (tv, @None (float64 * float64)))
                  (combine rp (map f rp))).
Proof.
  assert (E : forall l,
             map (fun tv : Q * float64 => (tv, @None (float64 * float64)))
                 (combine l (map f l)) =
             map (fun t => (t, f t, None)) l).
  { induction l as [|t l IH]; simpl; [reflexivity|]. f_equal. exact IH. }
  rewrite E. intros Hs. split.
  - induction Hs as [|t l Hs IH Hf]; simpl; constructor; [exact IH|].
    apply List.Forall_forall. intros row Hrow.
    apply in_map_iff in Hrow as (t' & <- & Ht').
    rewrite List.Forall_forall in Hf. exact (Hf t' Ht').
  - intros row Hrow. apply in_map_iff in Hrow as (t' & <- & Ht'). exact Ht'.
Qed.

Lemma with_bounds_In (rows : list Core.retrow)
      (ivs : list (float64 * float64)) (row : Core.retrow) :
  In row (Core.with_bounds rows ivs) ->
  snd row <> None /\ exists row', In row' rows /\ period row = period row'.
Proof.
  unfold Core.with_bounds. intros H.
  apply in_map_iff in H as ([r i] & <- & Hin).
  split; [discriminate|]. exists r. split; [|reflexivity].
  eapply in_combine_l; eauto.
Qed.

Lemma with_bounds_on_grid (grid : list Q) (rows : list Core.retrow)
      (ivs : list (float64 * float64)) :
  on_grid grid rows -> on_grid grid (Core.with_bounds rows ivs).
Proof.
  intros [Hs Hg]. split.
  - clear Hg. revert ivs.
    induction Hs as [|a l Hs IH Hf]; intros ivs; [constructor|].
    destruct ivs as [|i ivs]; [constructor|].
    change (Core.with_bounds (a :: l) (i :: ivs)) with
      ((fst a, Some i) :: Core.with_bounds l ivs).
    constructor; [apply IH|].
    apply List.Forall_forall. intros row Hrow.
    apply with_bounds_In in Hrow as (_ & row' & Hin & E).
    rewrite List.Forall_forall in Hf. specialize (Hf row' Hin).
    unfold period in *. cbn [fst]. rewrite E. exact Hf.
  - intros row Hrow. apply with_bounds_In in Hrow as (_ & row' & Hin & E).
    rewrite E. auto.
Qed.

Lemma StronglySorted_filter {A} (R : A -> A -> Prop) (p : A -> bool)
      (l : list A) :
  StronglySorted R l -> StronglySorted R (List.filter p l).
Proof.
  induction 1 as [|a l Hs IH Hf]; simpl; [constructor|].
  destruct (p a); [|exact IH]. constructor; [exact IH|].
  apply List.Forall_forall. intros x Hx. apply filter_In in Hx as [Hx _].
  rewrite List.Forall_forall in Hf. auto.
Qed.

Lemma select_family_state (sps : Core.scipy) (d : string) (s : Core.state) :
  snd (Core.select_family sps d s) = s.
Proof.
  unfold Core.select_family, Core.excesses, Core.extreme_values, Core.fitted,
    Core.bind, Core.get_self, Core.ret, Core.raise.
  cbn [fst snd].
  repeat match goal with
         | |- context [if ?b then _ else _] => destruct b
         | |- context [match Core.extremes ?x with _ => _ end] =>
             destruct (Core.extremes x)
         | |- context [match Core.threshold ?x with _ => _ end] =>
             destruct (Core.threshold x)
         end; reflexivity.
Qed.

(** X12.  When [fit] returns, the object holds the family fitted and a
    summary table whose return periods are strictly ascending and taken
    from the grid, whose rows have no missing entry, and which has the
    interval bounds exactly when confidence was asked. *)
Theorem fit_summary_table (sps : Core.scipy) (d : string) (confidence : bool)
        (k : Z) (trunc : bool) (fuel : nat) (s s' : Core.state) :
  Core.fit sps d confidence k trunc fuel s = (Ret tt, s') ->
  Core.distribution (fst s') = d /\
  exists rows,
    Core.retvalsum (fst s') = Some rows /\
    StronglySorted (fun a b => (period a < period b)%Q) rows /\
    forall row, In row rows ->
      In (period row) (Core.return_period_grid sps) /\
      Core.complete row = true /\
      (if confidence then snd row <> None else snd row = None).
Proof.
  unfold Core.fit. intros H.
  apply bind_ret_inv in H as (a1 & s1 & H1 & H).
  unfold Core.set_distribution, Core.update in H1. inversion H1; subst a1 s1.
  clear H1. fold (with_distribution d s) in H.
  apply bind_ret_inv in H as (family & s2 & H2 & H).
  pose proof (select_family_state sps d (with_distribution d s)) as Hs2.
  rewrite H2 in Hs2. cbn [snd] in Hs2. subst s2. clear H2.
  destruct family as [[dist add_u] parameters].
  apply bind_ret_inv in H as (self & s3 & H3 & H).
  unfold Core.get_self in H3. inversion H3; subst self s3. clear H3.
  cbv zeta in H.
  set (rp := Core.return_period_grid sps) in *.
  set (f := fun t => Core.ret_val sps dist add_u t parameters _ _) in H.
  set (rows0 := map (fun tv : Q * float64 => (tv, @None (float64 * float64)))
                    (combine rp (map f rp))) in H.
  assert (Hrows0 : on_grid rp rows0 /\
                   forall row, In row rows0 -> snd row = None).
  { split; [apply point_estimates_on_grid, return_period_grid_ascending|].
    intros row Hrow. apply in_map_iff in Hrow as (tv & <- & _). reflexivity. }
  destruct Hrows0 as [Hgrid Hnone].
  apply bind_ret_inv in H as (a4 & s4 & H4 & H).
  unfold Core.set_retvalsum, Core.update in H4. inversion H4; subst a4 s4.
  clear H4.
  apply bind_ret_inv in H as (a5 & s5 & H5 & H).
  assert (Hs5 : Core.distribution (fst s5) = d /\
                exists X, Core.retvalsum (fst s5) = Some X /\ on_grid rp X /\
                  forall row, In row X ->
                    if confidence then snd row <> None else snd row = None).
  { destruct confidence.
    - apply bind_ret_inv in H5 as (montefit & s6 & H6 & H5).
      assert (Hs6 : s6 = (Core.mkEVA
                (Core.data (fst (with_distribution d s)))
                (Core.N (fst (with_distribution d s)))
                (Core.extremes (fst (with_distribution d s)))
                (Core.method (fst (with_distribution d s)))
                (Core.threshold (fst (with_distribution d s)))
                (Core.distribution (fst (with_distribution d s)))
                (Some rows0), snd (with_distribution d s))).
      { destruct (String.eqb d "GPD"); [inversion H6; reflexivity|].
        destruct (String.eqb d "GEV"); [inversion H6; reflexivity|].
        discriminate. }
      subst s6. clear H6.
      apply bind_ret_inv in H5 as (mrv & s7 & H7 & H5).
      unfold Core.lift in H7. inversion H7 as [[Hm Hs7]]. subst s7.
      unfold Core.set_retvalsum, Core.update in H5. inversion H5; subst s5.
      cbn [fst snd Core.distribution Core.retvalsum with_distribution].
      split; [reflexivity|]. eexists. split; [reflexivity|].
      split; [apply with_bounds_on_grid; exact Hgrid|].
      intros row Hrow. apply with_bounds_In in Hrow. tauto.
    - unfold Core.ret in H5. inversion H5; subst s5.
      cbn [fst snd Core.distribution Core.retvalsum with_distribution].
      split; [reflexivity|]. exists rows0. split; [reflexivity|].
      split; [exact Hgrid|exact Hnone]. }
  destruct Hs5 as (Hd & X & HX & [Hsorted Hin] & Hb).
  apply bind_ret_inv in H as (self & s6 & H6 & H).
  unfold Core.get_self in H6. inversion H6; subst self s6. clear H6.
  unfold Core.set_retvalsum, Core.update in H. inversion H; subst s'.
  cbn [fst Core.distribution Core.retvalsum]. split; [exact Hd|].
  rewrite HX. cbn [default]. eexists. split; [reflexivity|].
  split; [apply StronglySorted_filter; exact Hsorted|].
  intros row Hrow. apply filter_In in Hrow as [Hrow Hc].
  split; [exact (Hin row Hrow)|]. split; [exact Hc|exact (Hb row Hrow)].
Qed.

Lemma fit_summary_table_witness :
  Core.distribution
    (fst (snd (Core.fit fixed_services "GPD" false 100 true 0
                        short_pot_state))) = "GPD"%string.
Proof.
  assert (H : Core.fit fixed_services "GPD" false 100 true 0 short_pot_state =
              (Ret tt, snd (Core.fit fixed_services "GPD" false 100 true 0
                                     short_pot_state))).
  { vm_compute. reflexivity. }
  exact (proj1 (fit_summary_table fixed_services "GPD" false 100 true 0%nat
                  _ _ H)).
Defined.

Lemma last_In {A} (l : list A) (d : A) : In (List.last l d) (d :: l).
Proof.
  induction l as [|a l IH]; [left; reflexivity|].
  destruct l as [|b l]; [right; left; reflexivity|].
  change (List.last (a :: b :: l) d) with (List.last (b :: l) d).
  destruct IH as [H|H]; [left; exact H|right; right; exact H].
Qed.

Lemma last_cons {A} (l : list A) (a d : A) :
  List.last (a :: l) d = List.last l a.
Proof.
  revert a d. induction l as [|b l IH]; intros a d; [reflexivity|].
  change (List.last (a :: b :: l) d) with (List.last (b :: l) d).
  rewrite (IH b d), (IH b a). reflexivity.
Qed.

Lemma sorted_last {A} (R : A -> A -> Prop) (l : list A) (d : A) :
  (forall a, R a a) -> StronglySorted R (d :: l) ->
  forall x, In x (d :: l) -> R x (List.last l d).
Proof.
  intros Hrefl. revert d. induction l as [|a l IH]; intros d Hs x Hx.
  - destruct Hx as [<-|[]]. apply Hrefl.
  - apply StronglySorted_inv in Hs as [Hs Hd].
    destruct l as [|b l].
    + destruct Hx as [<-|[<-|[]]]; [|apply Hrefl].
      inversion Hd; assumption.
    + rewrite last_cons.
      destruct Hx as [<-|Hx]; [|exact (IH a Hs x Hx)].
      rewrite List.Forall_forall in Hd. apply Hd.
      apply (last_In (b :: l) a).
Qed.

Lemma present_sorted (fr : frame) :
  ascending (present (sort_by Stats.time_leb fr)).
Proof.
  unfold ascending, present. apply StronglySorted_filter.
  apply (StronglySorted_impl (fun a b => Stats.time_leb a b = true)).
  - intros a b H. apply Z.leb_le. exact H.
  - apply sort_by_sorted; unfold Stats.time_leb.
    + intros a b. rewrite !Z.leb_le. lia.
    + intros a b c. rewrite !Z.leb_le. lia.
Qed.

Lemma present_sort_In (fr : frame) (row : time * cell) :
  In row (present (sort_by Stats.time_leb fr)) <-> In row (present fr).
Proof.
  unfold present. rewrite !filter_In.
  split; intros [H1 H2]; (split; [|exact H2]);
    [apply (Permutation_in _ (sort_by_perm Stats.time_leb fr))
    |apply (Permutation_in _
              (Permutation_sym (sort_by_perm Stats.time_leb fr)))];
    exact H1.
Qed.

Lemma stats_init_object (dat : positive) (block : Q) (st : store)
      (o : Stats.EVA) (st' : store) :
  Stats.init dat block st = (Ret o, st') -> o = Stats.mkEVA dat block.
Proof.
  unfold Stats.init. destruct (negb _); [discriminate|].
  cbv zeta. destruct (0 <? _); intros H; inversion H; reflexivity.
Qed.

(** X13.  [coastlib/stats/extreme.py]: after construction,
    [number_of_blocks] raises IndexError when no row of the series holds
    a value, before pandas reads the block size.  Otherwise it is what
    pandas gives for the span from the earliest to the latest row that
    holds a value, over the block size. *)
Theorem number_of_blocks_spans_record
        (span_over_block : Z -> Q -> outcome Q) (dat : positive) (block : Q)
        (st : store) (o : Stats.EVA) (st' : store) :
  Stats.init dat block st = (Ret o, st') ->
  (present (deref st dat) = [] ->
   Stats.number_of_blocks span_over_block o st' = Raise IndexError) /\
  (present (deref st dat) <> [] ->
   exists first last_,
     In first (map fst (present (deref st dat))) /\
     In last_ (map fst (present (deref st dat))) /\
     (forall t, In t (map fst (present (deref st dat))) ->
                first <= t <= last_) /\
     Stats.number_of_blocks span_over_block o st' =
       span_over_block (last_ - first) block).
Proof.
  intros H. pose proof (stats_init_object _ _ _ _ _ H) as Ho.
  apply stats_init_store in H as [Hd ->]. subst o. clear Hd.
  set (fr := deref st dat).
  change (List.filter _ (sort_by Stats.time_leb fr)) with
    (present (sort_by Stats.time_leb fr)).
  assert (E : deref (<[dat := present (sort_by Stats.time_leb fr)]> st) dat =
              present (sort_by Stats.time_leb fr)).
  { unfold deref. rewrite lookup_insert_eq. reflexivity. }
  unfold Stats.number_of_blocks. cbn [Stats.data Stats.block_size].
  rewrite E. clear E.
  pose proof (present_sorted fr) as Hs.
  pose proof (present_sort_In fr) as HI.
  destruct (present (sort_by Stats.time_leb fr)) as [|row L].
  - split; [reflexivity|]. intros Hne. exfalso.
    destruct (present fr) as [|x l]; [congruence|].
    apply (HI x). left. reflexivity.
  - split.
    { intros E. exfalso. rewrite E in HI. apply (HI row). left. reflexivity. }
    intros _.
    assert (Hin : forall t, In t (map fst (present fr)) <->
                            In t (map fst (row :: L))).
    { intros t. rewrite !in_map_iff. split; intros (x & Hx & Hin);
        exists x; (split; [exact Hx|]); apply HI; exact Hin. }
    assert (Hlast : forall x, In x (row :: L) ->
                              fst x <= fst (List.last L row)).
    { apply (sorted_last (fun a b : time * cell => fst a <= fst b));
        [intros a; lia|exact Hs]. }
    exists (fst row), (fst (List.last L row)).
    split; [apply Hin; left; reflexivity|].
    split; [apply Hin; apply in_map; apply last_In|].
    split; [|reflexivity].
    intros t Ht. apply Hin in Ht. apply in_map_iff in Ht as (x & <- & Hx).
    split; [|exact (Hlast x Hx)].
    apply StronglySorted_inv in Hs as [_ Hs].
    destruct Hx as [<-|Hx]; [lia|].
    rewrite List.Forall_forall in Hs. exact (Hs x Hx).
Qed.

Lemma number_of_blocks_spans_record_witness :
  exists first last_,
    Stats.number_of_blocks exact_blocks (Stats.mkEVA 1%positive gregorian_year)
      (snd (Stats.init 1%positive gregorian_year
                       {[ 1%positive := misordered_series ]})) =
      exact_blocks (last_ - first) gregorian_year.
Proof.
  assert (Hne : present (deref {[ 1%positive := misordered_series ]}
                               1%positive) <> []).
  { vm_compute. discriminate. }
  assert (H : Stats.init 1%positive gregorian_year
                         {[ 1%positive := misordered_series ]} =
              (Ret (Stats.mkEVA 1%positive gregorian_year),
               snd (Stats.init 1%positive gregorian_year
                               {[ 1%positive := misordered_series ]}))).
  { vm_compute. reflexivity. }
  destruct (proj2 (number_of_blocks_spans_record exact_blocks _ _ _ _ _ H) Hne)
    as (first & last_ & _ & _ & _ & H1).
  exists first, last_. exact H1.
Defined.

(** ** The empirical thresholds *)

(** The state after an extraction without declustering. *)
Lemma pot_all_state (self : Core.EVA) (st : store) (u r : Q)
      (col : list (time * float64)) :
  numeric_column (deref st (Core.data self)) = Some col ->
  exists self',
    pot u r false (self, st) = (Ret tt, (self', st)) /\
    Core.data self' = Core.data self /\
    Core.len_extremes self' = exceedances col u.
Proof.
  intros Hcol. rewrite (pot_run self st u r false col Hcol). cbn zeta.
  eexists. split; [reflexivity|]. split; [reflexivity|].
  unfold Core.len_extremes, exceedances. cbn. rewrite rank_length.
  reflexivity.
Qed.

Lemma raise_threshold_finds (st : store) (col : list (time * float64))
      (r step : Q) (k : Z) (n : nat) :
  forall fuel u self,
    numeric_column (deref st (Core.data self)) = Some col ->
    Core.len_extremes self = exceedances col u ->
    (n <= fuel)%nat ->
    first_below col k u step n ->
    exists self',
      Core.raise_threshold false r step k fuel u (self, st) =
        (Ret (grid_point step n u), (self', st)) /\
      Core.data self' = Core.data self.
Proof.
  induction n as [|n IH]; intros fuel u self Hcol Hlen Hfuel [Hle Hgt].
  - exists self. split; [|reflexivity].
    destruct fuel; cbn [Core.raise_threshold];
      unfold Core.bind, Core.get_self; cbn [fst snd]; rewrite Hlen;
      cbn [grid_point] in Hle; apply Z.ltb_ge in Hle; rewrite Hle;
      reflexivity.
  - destruct fuel as [|fuel]; [lia|].
    cbn [Core.raise_threshold]. unfold Core.bind at 1.
    unfold Core.get_self at 1. cbn [fst snd]. rewrite Hlen.
    pose proof (Hgt 0%nat ltac:(lia)) as H0. cbn [grid_point] in H0.
    apply Z.ltb_lt in H0. rewrite H0. cbv zeta.
    change (Core.get_extremes "POT"
              [("u"%string, PNum (fadd u step)); ("r"%string, PNum r);
               ("decluster"%string, PBool false)])
      with (pot (fadd u step) r false).
    unfold Core.bind at 1.
    destruct (pot_all_state self st (fadd u step) r col Hcol)
      as (self1 & Hrun & Hdata & Hlen1).
    rewrite Hrun.
    destruct (IH fuel (fadd u step) self1) as (self' & Hres & Hd').
    + rewrite Hdata. exact Hcol.
    + exact Hlen1.
    + lia.
    + split; [exact Hle|]. intros m Hm. apply (Hgt (S m)). lia.
    + exists self'. split; [exact Hres|]. congruence.
Qed.

Lemma threshold_search_finds (st : store) (col : list (time * float64))
      (r step : Q) (k : Z) (n fuel : nat) (start : Q) (self : Core.EVA) :
  numeric_column (deref st (Core.data self)) = Some col ->
  (n <= fuel)%nat ->
  first_below col k start step n ->
  exists self',
    Core.threshold_search false r step k fuel start (self, st) =
      (Ret (grid_point step n start), (self', st)) /\
    Core.data self' = Core.data self.
Proof.
  intros Hcol Hfuel Hfirst. unfold Core.threshold_search.
  change (Core.get_extremes "POT"
            [("u"%string, PNum start); ("r"%string, PNum r);
             ("decluster"%string, PBool false)])
    with (pot start r false).
  unfold Core.bind at 1.
  destruct (pot_all_state self st start r col Hcol)
    as (self1 & Hrun & Hdata & Hlen1).
  rewrite Hrun.
  destruct (raise_threshold_finds st col r step k n fuel start self1)
    as (self' & Hres & Hd'); try assumption.
  - rewrite Hdata. exact Hcol.
  - exists self'. split; [exact Hres|congruence].
Qed.

(** X14.  Without declustering, each rule of [empirical_threshold] gives
    the first threshold of its search that has at most [k] samples above
    it, [k] being the integer square root of the number of rows for the
    first rule (fewer than 2^52 rows, so that [int(np.sqrt(n))] is that
    root) and the value of the logarithm rule for the second; a search
    starts at the double [u_start] and adds the double [u_step] at each
    pass, as doubles add.  When the first search comes to such a
    threshold after [n1] passes and the second after [n2], the method
    returns the 90th percentile and these two thresholds. *)
Theorem empirical_threshold_undeclustered (np : Core.numpy)
        (self : Core.EVA) (st : store) (r u_step u_start : Q)
        (col : list (time * float64)) (p : float64) (k2 : Z) (n1 n2 : nat) :
  numeric_column (deref st (Core.data self)) = Some col ->
  Core.percentile np (map snd (deref st (Core.data self))) 90 = Ret p ->
  Core.log_rule np (length (deref st (Core.data self))) = Ret k2 ->
  Z.of_nat (length (deref st (Core.data self))) < 2 ^ 52 ->
  first_below col (Z.sqrt (Z.of_nat (length (deref st (Core.data self)))))
              u_start u_step n1 ->
  first_below col k2 u_start u_step n2 ->
  forall fuel,
    (Nat.max n1 n2 <= fuel)%nat ->
    fst (Core.empirical_threshold np false r u_step u_start fuel (self, st)) =
      Ret [p; Fin (grid_point u_step n1 u_start);
           Fin (grid_point u_step n2 u_start)].
Proof.
  intros Hcol Hp Hk2 _ H1 H2 fuel Hfuel.
  set (k1 := Z.sqrt (Z.of_nat (length (deref st (Core.data self))))) in *.
  unfold Core.empirical_threshold.
  unfold Core.bind at 1. unfold Core.frame_of_data at 1. cbn [fst snd].
  unfold Core.bind at 1. unfold Core.lift at 1. rewrite Hp. cbv zeta.
  fold k1.
  destruct (threshold_search_finds st col r u_step k1 n1 fuel u_start self
              Hcol ltac:(lia) H1) as (self1 & Hs1 & Hd1).
  unfold Core.bind at 1. rewrite Hs1.
  unfold Core.bind at 1. unfold Core.lift at 1. rewrite Hk2.
  destruct (threshold_search_finds st col r u_step k2 n2 fuel u_start self1)
    as (self2 & Hs2 & Hd2); [rewrite Hd1; exact Hcol|lia|exact H2|].
  unfold Core.bind. rewrite Hs2. reflexivity.
Qed.

Lemma empirical_threshold_undeclustered_witness :
  fst (Core.empirical_threshold fixed_numpy false 24 1 0 13
         (fst short_state, snd short_state)) =
    Ret [Fin 0; Fin (grid_point 1 11 0); Fin (grid_point 1 13 0)].
Proof.
  assert (Hc : numeric_column
                 (deref (snd short_state) (Core.data (fst short_state))) =
               Some [(datetime 2001 3 1 0, Fin 11); (datetime 2001 3 2 0, Fin 4);
                     (datetime 2001 3 8 0, Fin 13)]).
  { vm_compute. reflexivity. }
  apply (empirical_threshold_undeclustered fixed_numpy
           (fst short_state) (snd short_state) 24 1 0 _ (Fin 0) 0 11 13 Hc
           eq_refl eq_refl).
  - vm_compute. reflexivity.
  - split; [vm_compute; discriminate|].
    intros m Hm.
    do 11 (destruct m as [|m]; [vm_compute; reflexivity|]). lia.
  - split; [vm_compute; discriminate|].
    intros m Hm.
    do 13 (destruct m as [|m]; [vm_compute; reflexivity|]). lia.
  - vm_compute. lia.
Defined.

(** The thresholds of a search are sums of doubles: eight steps of 0.1
    from 0 give the double below 0.8. *)
Lemma grid_point_rounds :
  grid_point (b64 (1 # 10)) 8 0 = 7205759403792793 # 9007199254740992 /\
  (grid_point (b64 (1 # 10)) 8 0 < 8 # 10)%Q.
Proof. split; vm_compute; reflexivity. Qed.

Lemma pot_again (self : Core.EVA) (st : store) (u r : Q) (decl : bool)
      (s : Core.state) :
  pot u r decl (self, st) = (Ret tt, s) -> pot u r decl s = (Ret tt, s).
Proof.
  intros H. destruct (pot_numeric _ _ _ _ _ _ H) as [col Hcol].
  rewrite (pot_run self st u r decl col Hcol) in H. cbn zeta in H.
  destruct decl.
  - destruct (timedelta_in_range r) eqn:Er; [|discriminate].
    destruct (select_gt u col) as [|e l] eqn:E; [discriminate|].
    inversion H; subst s. clear H.
    match goal with
    | |- pot _ _ _ (?o, _) = _ => rewrite (pot_run o st u r true col Hcol)
    end.
    cbn zeta. rewrite Er, E. reflexivity.
  - inversion H; subst s. clear H.
    match goal with
    | |- pot _ _ _ (?o, _) = _ => rewrite (pot_run o st u r false col Hcol)
    end.
    reflexivity.
Qed.

Lemma raise_threshold_stalls (r : Q) (k : Z) (s : Core.state) :
  pot 0 r true s = (Ret tt, s) ->
  k < Core.len_extremes (fst s) ->
  forall fuel,
    fst (Core.raise_threshold true r 0 k fuel 0 s) = Unfinished.
Proof.
  intros Hpot Hk. apply Z.ltb_lt in Hk.
  induction fuel as [|fuel IH]; cbn [Core.raise_threshold];
    unfold Core.bind at 1; unfold Core.get_self at 1; cbn [fst snd];
    rewrite Hk; [reflexivity|].
  cbv zeta. change (fadd 0 0) with 0%Q.
  change (Core.get_extremes "POT"
            [("u"%string, PNum 0); ("r"%string, PNum r);
             ("decluster"%string, PBool true)])
    with (pot 0 r true).
  unfold Core.bind. rewrite Hpot.
  destruct (Core.raise_threshold true r 0 k fuel 0 s) as [[a|e|] s'];
    cbn [fst] in IH |- *; congruence.
Qed.

(** X15.  With declustering and [u_start = 0], the first search of
    [empirical_threshold] adds [u_start] to the threshold at each pass
    (line 434): when the extraction at 0 has more events than the integer
    square root of the number of rows, the loop does not end, whatever the
    number of passes allowed. *)
Theorem empirical_threshold_declustered_stalls (np : Core.numpy)
        (self : Core.EVA) (st : store) (r u_step : Q) (p : float64)
        (s : Core.state) (fuel : nat) :
  Core.percentile np (map snd (deref st (Core.data self))) 90 = Ret p ->
  pot 0 r true (self, st) = (Ret tt, s) ->
  Z.sqrt (Z.of_nat (length (deref st (Core.data self)))) <
    Core.len_extremes (fst s) ->
  fst (Core.empirical_threshold np true r u_step 0 fuel (self, st)) =
    Unfinished.
Proof.
  intros Hp Hpot Hk.
  unfold Core.empirical_threshold.
  unfold Core.bind at 1. unfold Core.frame_of_data at 1. cbn [fst snd].
  unfold Core.bind at 1. unfold Core.lift at 1. rewrite Hp. cbv zeta.
  unfold Core.bind at 1. unfold Core.threshold_search at 1.
  change (Core.get_extremes "POT"
            [("u"%string, PNum 0); ("r"%string, PNum r);
             ("decluster"%string, PBool true)])
    with (pot 0 r true).
  unfold Core.bind at 1. rewrite Hpot.
  pose proof (raise_threshold_stalls r _ s (pot_again _ _ _ _ _ _ Hpot) Hk
                                     fuel) as H.
  destruct (Core.raise_threshold true r 0 _ fuel 0 s) as [[a|e|] s'];
    cbn [fst] in H |- *; congruence.
Qed.

Lemma empirical_threshold_declustered_stalls_witness :
  fst (Core.empirical_threshold fixed_numpy true 24 (1 # 10) 0 1000
         (fst short_state, snd short_state)) = Unfinished.
Proof.
  assert (Hpot : pot 0 24 true (fst short_state, snd short_state) =
                 (Ret tt, snd (pot 0 24 true short_state))).
  { vm_compute. reflexivity. }
  assert (Hk : Z.sqrt (Z.of_nat (length (deref (snd short_state)
                                          (Core.data (fst short_state))))) <
               Core.len_extremes (fst (snd (pot 0 24 true short_state)))).
  { vm_compute. reflexivity. }
  exact (empirical_threshold_declustered_stalls fixed_numpy _ _ 24 (1 # 10)
           (Fin 0) _ 1000%nat eq_refl Hpot Hk).
Defined.

(** ** The stability plot; construction from a cleaned frame *)

Lemma stability_fits_at_maximum (sps : Core.scipy) (r : Q) (st : store)
      (col : list (time * float64)) (m : Q) :
  timedelta_in_range r = true ->
  Core.column_max col = Fin m ->
  forall us self,
    numeric_column (deref st (Core.data self)) = Some col ->
    (forall u, In u us -> (u <= m)%Q) ->
    (exists u, In u us /\ (u == m)%Q) ->
    fst (Core.stability_fits sps true r us (self, st)) = Raise IndexError.
Proof.
  intros Hr Hm. destruct (column_max_spec col m Hm) as [[tm Hin] Hle].
  induction us as [|u us IH]; intros self Hcol Hall Hex.
  - destruct Hex as (u & [] & _).
  - change (Core.stability_fits sps true r (u :: us) (self, st)) with
      (Core.bind (pot u r true)
         (fun _ => Core.bind Core.extreme_values
            (fun values =>
               Core.bind (Core.stability_fits sps true r us)
                 (fun rest =>
                    Core.ret (Core.fit_mle sps "genpareto"
                                (map (fun v => v - u)%Q values) None :: rest))))
         (self, st)).
    unfold Core.bind at 1. rewrite (pot_run self st u r true col Hcol).
    cbn zeta. rewrite Hr.
    destruct (Qlt_le_dec u m) as [Hlt|Hge].
    + assert (Hsel : In (tm, m) (select_gt u col)).
      { apply select_In. split; [exact Hin|apply Qltb_lt; exact Hlt]. }
      destruct (select_gt u col) as [|e l]; [destruct Hsel|].
      unfold Core.bind at 1. unfold Core.extreme_values at 1.
      unfold Core.bind at 1. cbn [Core.get_self fst snd after_pot Core.extremes
                                  Core.ret].
      unfold Core.bind at 1.
      match goal with
      | |- context [Core.stability_fits sps true r us (?o, st)] =>
          specialize (IH o)
      end.
      assert (Hrest : exists u', In u' us /\ (u' == m)%Q).
      { destruct Hex as (u' & [<-|Hu'] & Heq); [|eauto].
        rewrite Heq in Hlt. exfalso. exact (Qlt_irrefl _ Hlt). }
      specialize (IH Hcol (fun u' Hu' => Hall u' (or_intror Hu')) Hrest).
      destruct (Core.stability_fits sps true r us _) as [[a|e'|] s1];
        cbn [fst] in IH |- *; congruence.
    + assert (E : select_gt u col = []).
      { apply select_nil. intros t q Hq. apply Qltb_ge.
        eapply Qle_trans; [apply (Hle t q Hq)|exact Hge]. }
      rewrite E. reflexivity.
Qed.

(** X16.  [par_stab_plot] on a numeric column with a finite maximum and at
    least one threshold.  For a distribution other than GPD it computes
    nothing and leaves the object as it was.  For GPD with declustering
    and a run length within the range of [timedelta] it raises IndexError
    whenever one of the thresholds equals the maximum of the column, the
    fits at the thresholds before it being taken to return. *)
Theorem par_stab_plot_contract (sps : Core.scipy) (us : list Q) (r : Q)
        (self : Core.EVA) (st : store) (col : list (time * float64))
        (m : Q) :
  numeric_column (deref st (Core.data self)) = Some col ->
  Core.column_max col = Fin m ->
  us <> [] ->
  (forall d decl,
     d <> "GPD"%string ->
     Core.par_stab_plot sps us d decl r (self, st) = (Ret None, (self, st))) /\
  (forall u,
     In u us -> (u == m)%Q ->
     timedelta_in_range r = true ->
     fst (Core.par_stab_plot sps us "GPD" true r (self, st)) =
       Raise IndexError).
Proof.
  intros Hcol Hm Hus. split.
  - intros d decl Hd. apply String.eqb_neq in Hd.
    unfold Core.par_stab_plot. destruct us as [|u0 us0]; [congruence|].
    unfold Core.bind, Core.column. cbn [fst snd].
    rewrite Hcol, Hd. reflexivity.
  - intros u Hu Heq Hr.
    unfold Core.par_stab_plot. destruct us as [|u0 us0]; [congruence|].
    set (us := u0 :: us0) in *.
    unfold Core.bind at 1. unfold Core.column.
    cbn [fst snd]. rewrite Hcol, Hm, clip_filter.
    cbn [String.eqb Ascii.eqb Bool.eqb]. unfold Core.bind.
    assert (H : fst (Core.stability_fits sps true r
                       (List.filter (fun u => Qle_bool u m) us) (self, st)) =
                Raise IndexError).
    { apply (stability_fits_at_maximum sps r st col m Hr Hm); [exact Hcol| |].
      - intros u' Hu'. apply filter_In in Hu' as [_ Hu'].
        apply Qle_bool_iff. exact Hu'.
      - exists u. split; [|exact Heq]. apply filter_In. split; [exact Hu|].
        apply Qle_bool_iff. rewrite Heq. apply Qle_refl. }
    destruct (Core.stability_fits sps true r _ (self, st)) as [[a|e|] s1];
      cbn [fst] in H |- *; congruence.
Qed.

Lemma par_stab_plot_contract_witness :
  fst (Core.par_stab_plot fixed_services [10%Q; 13%Q] "GPD" true 24
         (fst short_state, snd short_state)) = Raise IndexError.
Proof.
  assert (Hc : numeric_column
                 (deref (snd short_state) (Core.data (fst short_state))) =
               Some [(datetime 2001 3 1 0, Fin 11); (datetime 2001 3 2 0, Fin 4);
                     (datetime 2001 3 8 0, Fin 13)]).
  { vm_compute. reflexivity. }
  assert (Hm : Core.column_max
                 [(datetime 2001 3 1 0, Fin 11); (datetime 2001 3 2 0, Fin 4);
                  (datetime 2001 3 8 0, Fin 13)] = Fin 13).
  { vm_compute. reflexivity. }
  assert (Hu : [10%Q; 13%Q] <> []) by discriminate.
  assert (Hin : In 13%Q [10%Q; 13%Q]) by (right; left; reflexivity).
  assert (He : (13 == 13)%Q) by reflexivity.
  assert (Hr : timedelta_in_range 24 = true) by (vm_compute; reflexivity).
  exact (proj2 (par_stab_plot_contract fixed_services [10%Q; 13%Q] 24
                  (fst short_state) (snd short_state) _ 13 Hc Hm Hu)
               13%Q Hin He Hr).
Defined.

Lemma filter_idem {A} (p : A -> bool) (l : list A) :
  List.filter p (List.filter p l) = List.filter p l.
Proof.
  induction l as [|x l IH]; simpl; [reflexivity|].
  destruct (p x) eqn:E; simpl; rewrite ?E, IH; reflexivity.
Qed.

Lemma coerced_kept (fr : frame) :
  coerced (List.filter kept fr) = List.filter kept fr.
Proof.
  unfold coerced. induction fr as [|[t c] fr IH]; simpl; [reflexivity|].
  destruct (kept (t, c)) eqn:E; [|exact IH].
  simpl. rewrite IH. unfold kept in E. simpl in E.
  destruct c as [[q|]|s]; try discriminate. reflexivity.
Qed.

(** X17.  Construction with [handle_nans] from the frame that a first
    such construction has cleaned changes nothing: the second object
    holds the data of the first, the frame of the first keeps its rows,
    and the number of years is not larger. *)
Theorem init_again_keeps_data (df : positive) (st : store) (o : Core.EVA)
        (st' : store) (o2 : Core.EVA) (st2 : store) :
  Core.init df true st = (Ret o, st') ->
  Core.init (Core.data o) true st' = (Ret o2, st2) ->
  deref st2 (Core.data o2) = deref st' (Core.data o) /\
  deref st2 (Core.data o) = deref st' (Core.data o) /\
  Core.N o2 <= Core.N o.
Proof.
  intros H1 H2.
  pose proof (init_counts_years _ _ _ _ _ H1)
    as (lo & hi & HN & _ & _ & Hall).
  pose proof (init_counts_years _ _ _ _ _ H2)
    as (lo2 & hi2 & HN2 & Hlo2 & Hhi2 & _).
  apply init_handle_nans in H1 as (_ & Hdata & _ & _ & _).
  apply init_handle_nans in H2 as (_ & Hdata2 & Hdf2 & _ & _).
  rewrite Hdata in *. split; [|split].
  - rewrite Hdata2. apply filter_idem.
  - rewrite Hdf2. apply coerced_kept.
  - assert (Hsub : forall y,
               In y (map (fun row : time * cell => year_of (fst row))
                         (List.filter kept (deref st df))) ->
               lo <= y <= hi).
    { intros y Hy. apply in_map_iff in Hy as (row & <- & Hrow).
      apply filter_In in Hrow as [Hrow _]. exact (Hall row Hrow). }
    specialize (Hsub lo2 Hlo2) as Hl. specialize (Hsub hi2 Hhi2) as Hh. lia.
Qed.

Lemma init_again_keeps_data_witness :
  deref (snd (Core.init (Core.data raw_object) true (snd raw_run)))
        (Core.data raw_object) =
    deref (snd raw_run) (Core.data raw_object).
Proof.
  assert (H1 : Core.init 1%positive true {[ 1%positive := raw_frame ]} =
               (Ret raw_object, snd raw_run)).
  { vm_compute. reflexivity. }
  assert (H2 : Core.init (Core.data raw_object) true (snd raw_run) =
               (Ret (match fst (Core.init (Core.data raw_object) true
                                          (snd raw_run)) with
                     | Ret o => o
                     | _ => raw_object
                     end),
                snd (Core.init (Core.data raw_object) true (snd raw_run)))).
  { vm_compute. reflexivity. }
  exact (proj1 (proj2 (init_again_keeps_data
                         1%positive {[ 1%positive := raw_frame ]}
                         raw_object (snd raw_run)
                         (match fst (Core.init (Core.data raw_object) true
                                               (snd raw_run)) with
                          | Ret o => o
                          | _ => raw_object
                          end)
                         (snd (Core.init (Core.data raw_object) true
                                         (snd raw_run)))
                         H1 H2))).
Defined.

(** ** Dates and times as numbers *)

Lemma digit_char_spec (d : Z) :
  digit d ->
  DelSep.is_digit (DelSep.digit_char d) = true /\
  Z.of_nat (nat_of_ascii (DelSep.digit_char d) - 48) = d.
Proof.
  unfold digit. intros H.
  assert (E : d = 0 \/ d = 1 \/ d = 2 \/ d = 3 \/ d = 4 \/ d = 5 \/ d = 6 \/
              d = 7 \/ d = 8 \/ d = 9) by lia.
  repeat destruct E as [E|E]; subst d; split; reflexivity.
Qed.

Lemma digits_bound (p : positive) :
  forall p' n acc,
    0 <= n <= Zpos p -> n <= Zpos p' ->
    DelSep.digits p n acc = DelSep.digits p' n acc.
Proof.
  induction p as [q IH|q IH|]; intros p' n acc Hn Hn';
    destruct p' as [q'|q'|]; cbn [DelSep.digits];
    destruct (n <? 10) eqn:E; try reflexivity;
    apply Z.ltb_ge in E; try lia;
    apply IH; Z.to_euclidean_division_equations; lia.
Qed.

Lemma digits_small (p : positive) (n : Z) (acc : string) :
  0 <= n < 10 ->
  DelSep.digits p n acc = String (DelSep.digit_char n) acc.
Proof.
  intros H. assert (E : (n <? 10) = true) by (apply Z.ltb_lt; lia).
  destruct p; cbn [DelSep.digits]; rewrite E, Z.mod_small by lia;
    reflexivity.
Qed.

Lemma digits_step (p : positive) (n : Z) (acc : string) :
  10 <= n <= Zpos p ->
  DelSep.digits p n acc =
    DelSep.digits p (n / 10) (String (DelSep.digit_char (n mod 10)) acc).
Proof.
  intros H. assert (E : (n <? 10) = false) by (apply Z.ltb_ge; lia).
  destruct p as [q|q|]; [| |lia].
  - transitivity (DelSep.digits q (n / 10)
                    (String (DelSep.digit_char (n mod 10)) acc)).
    + cbn [DelSep.digits]. rewrite E. reflexivity.
    + apply digits_bound; Z.to_euclidean_division_equations; lia.
  - transitivity (DelSep.digits q (n / 10)
                    (String (DelSep.digit_char (n mod 10)) acc)).
    + cbn [DelSep.digits]. rewrite E. reflexivity.
    + apply digits_bound; Z.to_euclidean_division_equations; lia.
Qed.

Lemma of_digits_app (l l' : list Z) :
  of_digits (l ++ l') = (of_digits l ++ of_digits l')%string.
Proof.
  induction l as [|d l IH]; [reflexivity|].
  change (String (DelSep.digit_char d) (of_digits (l ++ l')) =
          String (DelSep.digit_char d) (of_digits l ++ of_digits l')%string).
  f_equal. exact IH.
Qed.

Lemma string_app_assoc (a b c : string) :
  ((a ++ b) ++ c = a ++ (b ++ c))%string.
Proof.
  induction a as [|x a IH]; [reflexivity|].
  change (String x ((a ++ b) ++ c) = String x (a ++ (b ++ c)))%string.
  f_equal. exact IH.
Qed.

(** The digits of [n], most significant first. *)
Lemma digits_spec (p : positive) :
  forall n, 0 <= n <= Zpos p ->
  exists l,
    l <> [] /\ Forall digit l /\
    (forall acc, DelSep.digits p n acc = (of_digits l ++ acc)%string) /\
    forall a, dvalue l a = a * 10 ^ Z.of_nat (length l) + n.
Proof.
  assert (Small : forall p n, 0 <= n < 10 ->
            exists l,
              l <> [] /\ Forall digit l /\
              (forall acc, DelSep.digits p n acc = (of_digits l ++ acc)%string) /\
              forall a, dvalue l a = a * 10 ^ Z.of_nat (length l) + n).
  { intros p0 n Hn. exists [n]. split; [discriminate|]. split.
    - apply List.Forall_cons; [exact Hn|apply List.Forall_nil].
    - split; [intros acc; rewrite digits_small by lia; reflexivity|].
      intros a. unfold dvalue. simpl. lia. }
  assert (Step : forall q p n,
            (p = xO q \/ p = xI q) ->
            (forall n, 0 <= n <= Zpos q ->
               exists l,
                 l <> [] /\ Forall digit l /\
                 (forall acc,
                    DelSep.digits q n acc = (of_digits l ++ acc)%string) /\
                 forall a, dvalue l a = a * 10 ^ Z.of_nat (length l) + n) ->
            10 <= n <= Zpos p ->
            exists l,
              l <> [] /\ Forall digit l /\
              (forall acc, DelSep.digits p n acc = (of_digits l ++ acc)%string) /\
              forall a, dvalue l a = a * 10 ^ Z.of_nat (length l) + n).
  { intros q p0 n Hp IH Hn.
    destruct (IH (n / 10)) as (l & Hne & Hd & Hs & Hv).
    { destruct Hp; subst p0; Z.to_euclidean_division_equations; lia. }
    exists (l ++ [n mod 10]). split.
    { intros E. apply app_eq_nil in E as [_ E]. discriminate. }
    split.
    { apply Forall_app. split; [exact Hd|].
      apply List.Forall_cons; [apply Z.mod_pos_bound; lia|apply List.Forall_nil]. }
    split.
    - intros acc.
      assert (E : (n <? 10) = false) by (apply Z.ltb_ge; lia).
      destruct Hp; subst p0; cbn [DelSep.digits];
        rewrite E, Hs, of_digits_app, string_app_assoc; reflexivity.
    - intros a. unfold dvalue in *. rewrite fold_left_app, Hv.
      cbn [fold_left]. rewrite length_app, Nat2Z.inj_add, Z.pow_add_r by lia.
      change (10 ^ Z.of_nat (length [n mod 10])) with 10.
      rewrite (Z.div_mod n 10) at 3 by lia. ring. }
  induction p as [q IH|q IH|]; intros n Hn.
  - destruct (Z_lt_le_dec n 10) as [Hs|Hb]; [apply Small; lia|].
    apply (Step q); [right; reflexivity|exact IH|lia].
  - destruct (Z_lt_le_dec n 10) as [Hs|Hb]; [apply Small; lia|].
    apply (Step q); [left; reflexivity|exact IH|lia].
  - apply Small. lia.
Qed.

Lemma is_digit_not_minus (c : ascii) :
  DelSep.is_digit c = true -> Ascii.eqb c "-" = false.
Proof.
  intros H. destruct (Ascii.eqb_spec c "-") as [->|]; [discriminate|].
  reflexivity.
Qed.

Lemma all_digits_of_digits (l : list Z) :
  Forall digit l -> DelSep.all_digits (of_digits l) = true.
Proof.
  induction 1 as [|d l Hd _ IH]; [reflexivity|].
  cbn [of_digits DelSep.all_digits].
  rewrite (proj1 (digit_char_spec d Hd)), IH. reflexivity.
Qed.

Lemma value_of_digits (l : list Z) :
  Forall digit l ->
  forall a, DelSep.value_of a (of_digits l) = dvalue l a.
Proof.
  unfold dvalue. induction 1 as [|d l Hd _ IH]; intros a; [reflexivity|].
  cbn [of_digits DelSep.value_of fold_left].
  rewrite (proj2 (digit_char_spec d Hd)). apply IH.
Qed.

(** [int] of a text of digits. *)
Lemma int_of_digits (l : list Z) :
  l <> [] -> Forall digit l ->
  DelSep.int_of_str (of_digits l) = DelSep.Ok (dvalue l 0).
Proof.
  intros Hne Hd. destruct l as [|d l]; [congruence|].
  pose proof (all_digits_of_digits _ Hd) as Ha.
  pose proof (value_of_digits _ Hd 0) as Hv.
  inversion Hd as [|? ? Hd0 _]; subst.
  unfold DelSep.int_of_str. cbn [of_digits] in *.
  rewrite (is_digit_not_minus _ (proj1 (digit_char_spec d Hd0))).
  rewrite Ha, Hv. reflexivity.
Qed.

(** [int(str(n))] is [n]. *)
Lemma int_of_str_str (n : Z) :
  0 <= n -> DelSep.int_of_str (DelSep.str n) = DelSep.Ok n.
Proof.
  intros Hn. destruct n as [|p|p]; [reflexivity| |lia].
  destruct (digits_spec p (Zpos p) ltac:(lia)) as (l & Hne & Hd & Hs & Hv).
  unfold DelSep.str. rewrite Hs.
  assert (E : (of_digits l ++ EmptyString)%string = of_digits l).
  { clear. induction (of_digits l) as [|c s IH]; [reflexivity|].
    change (String c (s ++ EmptyString) = String c s)%string. f_equal. exact IH. }
  rewrite E, (int_of_digits l Hne Hd), Hv. reflexivity.
Qed.

(** The text of a number of eight digits. *)
Lemma str_eight_digits (n : Z) :
  10000000 <= n < 100000000 ->
  DelSep.str n =
    of_digits [n / 10000000; n / 1000000 mod 10; n / 100000 mod 10;
               n / 10000 mod 10; n / 1000 mod 10; n / 100 mod 10;
               n / 10 mod 10; n mod 10].
Proof.
  intros H. destruct n as [|p|p]; try lia.
  unfold DelSep.str.
  rewrite digits_step by lia.
  rewrite digits_step by (Z.to_euclidean_division_equations; lia).
  rewrite digits_step by (Z.to_euclidean_division_equations; lia).
  rewrite digits_step by (Z.to_euclidean_division_equations; lia).
  rewrite digits_step by (Z.to_euclidean_division_equations; lia).
  rewrite digits_step by (Z.to_euclidean_division_equations; lia).
  rewrite digits_step by (Z.to_euclidean_division_equations; lia).
  rewrite digits_small by (Z.to_euclidean_division_equations; lia).
  rewrite !Z.div_div by lia. reflexivity.
Qed.

(** The three slices of the date, read back. *)
Lemma date_fields (y m d : Z) :
  1000 <= y <= 9999 -> 0 <= m <= 99 -> 0 <= d <= 99 ->
  let s := DelSep.str (y * 10000 + m * 100 + d) in
  DelSep.int_of_str (substring 0 4 s) = DelSep.Ok y /\
  DelSep.int_of_str (substring 4 2 s) = DelSep.Ok m /\
  DelSep.int_of_str (substring 6 2 s) = DelSep.Ok d.
Proof.
  intros Hy Hm Hd. cbv zeta.
  set (n := y * 10000 + m * 100 + d).
  assert (Hn : 10000000 <= n < 100000000) by (unfold n; lia).
  rewrite (str_eight_digits n Hn).
  set (d7 := n / 10000000). set (d6 := n / 1000000 mod 10).
  set (d5 := n / 100000 mod 10). set (d4 := n / 10000 mod 10).
  set (d3 := n / 1000 mod 10). set (d2 := n / 100 mod 10).
  set (d1 := n / 10 mod 10). set (d0 := n mod 10).
  assert (H7 : digit d7)
    by (unfold digit, d7; Z.to_euclidean_division_equations; lia).
  assert (H6 : digit d6) by (apply Z.mod_pos_bound; lia).
  assert (H5 : digit d5) by (apply Z.mod_pos_bound; lia).
  assert (H4 : digit d4) by (apply Z.mod_pos_bound; lia).
  assert (H3 : digit d3) by (apply Z.mod_pos_bound; lia).
  assert (H2 : digit d2) by (apply Z.mod_pos_bound; lia).
  assert (H1 : digit d1) by (apply Z.mod_pos_bound; lia).
  assert (H0 : digit d0) by (apply Z.mod_pos_bound; lia).
  change (substring 0 4 (of_digits [d7; d6; d5; d4; d3; d2; d1; d0]))
    with (of_digits [d7; d6; d5; d4]).
  change (substring 4 2 (of_digits [d7; d6; d5; d4; d3; d2; d1; d0]))
    with (of_digits [d3; d2]).
  change (substring 6 2 (of_digits [d7; d6; d5; d4; d3; d2; d1; d0]))
    with (of_digits [d1; d0]).
  rewrite !int_of_digits
    by (try discriminate;
        repeat (apply List.Forall_cons; [assumption|]); apply List.Forall_nil).
  unfold dvalue. cbn [fold_left].
  repeat split; f_equal; unfold d7, d6, d5, d4, d3, d2, d1, d0, n;
    Z.to_euclidean_division_equations; lia.
Qed.

(** ** The index of a delimiter separated file *)

Lemma for_each_map {A B C} (f : B -> DelSep.result C) (g : A -> B)
      (h : A -> C) (l : list A) :
  (forall x, In x l -> f (g x) = DelSep.Ok (h x)) ->
  DelSep.for_each f (map g l) = DelSep.Ok (map h l).
Proof.
  induction l as [|x l IH]; intros H; [reflexivity|].
  cbn [map DelSep.for_each]. rewrite (H x (or_introl eq_refl)).
  cbn [DelSep.and_then]. rewrite IH by (intros; apply H; right; assumption).
  reflexivity.
Qed.

Lemma for_each_ok {A B} (f : A -> DelSep.result B) (h : A -> B)
      (l : list A) :
  (forall x, In x l -> f x = DelSep.Ok (h x)) ->
  DelSep.for_each f l = DelSep.Ok (map h l).
Proof.
  intros H. rewrite <- (map_id l) at 1. apply for_each_map. exact H.
Qed.

(** A comprehension raises when its body raises on an element, and then
    with an exception that the body raises. *)
Lemma for_each_raises {A B} (f : A -> DelSep.result B) (P : DelSep.error -> Prop)
      (l : list A) :
  (forall x e, In x l -> f x = DelSep.Err e -> P e) ->
  (exists x e, In x l /\ f x = DelSep.Err e) ->
  exists e, DelSep.for_each f l = DelSep.Err e /\ P e.
Proof.
  induction l as [|x l IH]; intros HP (x0 & e0 & Hin & Hx0); [destruct Hin|].
  cbn [DelSep.for_each]. destruct (f x) as [y|e] eqn:E.
  - cbn [DelSep.and_then].
    destruct IH as (e & He & HPe).
    + intros x' e' Hx'. apply HP. right. exact Hx'.
    + destruct Hin as [->|Hin]; [congruence|eauto].
    + rewrite He. exists e. split; [reflexivity|exact HPe].
  - exists e. split; [reflexivity|]. apply (HP x e); [left; reflexivity|exact E].
Qed.

Lemma filter_other (k : string) (others : list (string * list cell)) :
  (forall c, In c others -> fst c <> k) ->
  List.filter (DelSep.named k) others = [] /\
  List.filter (fun c => negb (DelSep.named k c)) others = others /\
  existsb (DelSep.named k) others = false.
Proof.
  induction others as [|c l IH]; intros H; [repeat split|].
  assert (E : DelSep.named k c = false).
  { unfold DelSep.named. apply String.eqb_neq. intros Hk.
    apply (H c (or_introl eq_refl)). symmetry. exact Hk. }
  destruct IH as (H1 & H2 & H3); [intros; apply H; right; assumption|].
  simpl. rewrite E. simpl. rewrite H1, H2, H3. repeat split.
Qed.

Lemma int_of_number_cell (n : Z) :
  DelSep.int_of_cell (number_cell n) = DelSep.Ok n.
Proof.
  unfold number_cell, DelSep.int_of_cell. cbn [inject_Z Qnum Qden].
  rewrite Z.quot_1_r. reflexivity.
Qed.

Lemma combine_maps {A B C} (f : A -> B) (g : A -> C) (l : list A) :
  combine (map f l) (map g l) = map (fun x => (f x, g x)) l.
Proof.
  induction l as [|x l IH]; simpl; [reflexivity|]. rewrite IH. reflexivity.
Qed.

(** The comprehensions read the fields back from the two columns. *)
Lemma read_fields_dated (rows : list DelSep.fields)
      (others : list (string * list cell)) (idx : list DelSep.label) :
  Forall encodable rows -> Forall hour_bounded rows -> other_columns others ->
  DelSep.read_fields (PStr "Date") (PStr "HrMn") (dated_frame rows others idx) =
    DelSep.Ok rows.
Proof.
  intros Henc Hhour Hoth. rewrite List.Forall_forall in Henc, Hhour.
  destruct (filter_other "Date" others) as (D1 & _ & _);
    [intros c Hc; apply Hoth; exact Hc|].
  destruct (filter_other "HrMn" others) as (T1 & _ & _);
    [intros c Hc; apply Hoth; exact Hc|].
  unfold DelSep.read_fields, DelSep.values, dated_frame.
  cbn [DelSep.columns DelSep.index List.filter DelSep.named fst snd
       String.eqb Ascii.eqb Bool.eqb].
  fold (DelSep.named "Date"). fold (DelSep.named "HrMn").
  rewrite D1, T1. cbn [DelSep.and_then].
  rewrite (for_each_map _ _ (fun f => DelSep.str (date_number f)))
    by (intros f _; rewrite int_of_number_cell; reflexivity).
  cbn [DelSep.and_then].
  rewrite (for_each_map _ _ (fun f => DelSep.str (clock_number f)))
    by (intros f _; rewrite int_of_number_cell; reflexivity).
  cbn [DelSep.and_then].
  rewrite (for_each_map _ _ (fun f : DelSep.fields => fst (fst (fst (fst f))))).
  2:{ intros [[[[y m] d] h] mi] Hin. specialize (Henc _ Hin).
      cbn [encodable] in Henc. cbn [date_number fst].
      apply (date_fields y m d); tauto. }
  cbn [DelSep.and_then].
  rewrite (for_each_map _ _ (fun f : DelSep.fields => snd (fst (fst (fst f))))).
  2:{ intros [[[[y m] d] h] mi] Hin. specialize (Henc _ Hin).
      cbn [encodable] in Henc. cbn [date_number fst snd].
      apply (date_fields y m d); tauto. }
  cbn [DelSep.and_then].
  rewrite (for_each_map _ _ (fun f : DelSep.fields => snd (fst (fst f)))).
  2:{ intros [[[[y m] d] h] mi] Hin. specialize (Henc _ Hin).
      cbn [encodable] in Henc. cbn [date_number fst snd].
      apply (date_fields y m d); tauto. }
  cbn [DelSep.and_then].
  rewrite (for_each_map _ _ (fun f : DelSep.fields => snd f)).
  2:{ intros [[[[y m] d] h] mi] Hin. specialize (Henc _ Hin).
      cbn [encodable] in Henc. cbn [clock_number snd].
      rewrite int_of_str_str by lia. cbn [DelSep.and_then]. f_equal.
      Z.to_euclidean_division_equations; lia. }
  cbn [DelSep.and_then].
  rewrite (for_each_map _ _ (fun f : DelSep.fields => snd (fst f))).
  2:{ intros [[[[y m] d] h] mi] Hin. specialize (Henc _ Hin).
      specialize (Hhour _ Hin).
      cbn [encodable] in Henc. cbn [hour_bounded] in Hhour.
      cbn [clock_number fst snd].
      rewrite int_of_str_str by lia. cbn [DelSep.and_then]. f_equal.
      rewrite hundreds_exact by lia.
      Z.to_euclidean_division_equations; lia. }
  cbn [DelSep.and_then]. rewrite !combine_maps. f_equal.
  rewrite <- (map_id rows) at 2. apply map_ext.
  intros [[[[y m] d] h] mi]. reflexivity.
Qed.

Lemma delete_first (k : string) (v : list cell)
      (rest : list (string * list cell)) (idx : list DelSep.label) :
  (forall c, In c rest -> fst c <> k) ->
  DelSep.delete (PStr k) (DelSep.mkFrame ((k, v) :: rest) idx) =
    DelSep.Ok (DelSep.mkFrame rest idx).
Proof.
  intros H. destruct (filter_other k rest H) as (_ & H2 & _).
  assert (E : DelSep.named k (k, v) = true).
  { unfold DelSep.named. apply String.eqb_refl. }
  unfold DelSep.delete.
  cbn [DelSep.columns DelSep.index existsb List.filter].
  rewrite E. cbn [orb negb]. rewrite H2. reflexivity.
Qed.

Lemma delete_dated (rows : list DelSep.fields)
      (others : list (string * list cell)) (idx : list DelSep.label) :
  other_columns others ->
  DelSep.and_then (DelSep.delete (PStr "Date") (dated_frame rows others idx))
                  (DelSep.delete (PStr "HrMn")) =
    DelSep.Ok (DelSep.mkFrame others idx).
Proof.
  intros Hoth. unfold dated_frame. rewrite delete_first.
  - cbn [DelSep.and_then]. apply delete_first.
    intros c Hc. apply Hoth. exact Hc.
  - intros c [<-|Hc]; [discriminate|]. apply Hoth. exact Hc.
Qed.

(** The run of [gen_index] on such a frame, up to the timestamps. *)
Lemma gen_index_dated (rows : list DelSep.fields)
      (others : list (string * list cell)) (idx : list DelSep.label) :
  Forall encodable rows -> Forall hour_bounded rows -> other_columns others ->
  length idx = length rows ->
  DelSep.gen_index "yyyymmdd_hhmm" [] (dated_frame rows others idx) =
    match DelSep.for_each
            (fun f : DelSep.fields =>
               let '(y, m, d, h, mi) := f in DelSep.datetime_of y m d h mi)
            rows with
    | DelSep.Err e => (DelSep.Err e, DelSep.mkFrame others idx)
    | DelSep.Ok time_ =>
        (DelSep.Ok tt, DelSep.mkFrame others (map DelSep.Stamp time_))
    end.
Proof.
  intros Henc Hhour Hoth Hlen. unfold DelSep.gen_index.
  cbn [String.eqb Ascii.eqb Bool.eqb pop lookup_kw remove_kw List.filter
       default].
  rewrite (read_fields_dated rows others idx Henc Hhour Hoth).
  pose proof (delete_dated rows others idx Hoth) as Hdel.
  destruct (DelSep.delete (PStr "Date") (dated_frame rows others idx))
    as [df1|e]; [|discriminate].
  cbn [DelSep.and_then] in Hdel. rewrite Hdel.
  cbn [DelSep.index DelSep.columns]. rewrite Hlen, firstn_all. reflexivity.
Qed.

Lemma datetime_of_valid (y m d h mi : Z) :
  encodable (y, m, d, h, mi) -> valid (y, m, d, h, mi) ->
  DelSep.datetime_of y m d h mi = DelSep.Ok (stamp_of (y, m, d, h, mi)).
Proof.
  cbn [encodable valid stamp_of]. intros He Hv. unfold DelSep.datetime_of.
  assert (Hd : DelSep.days_in_month y m <= 31).
  { unfold DelSep.days_in_month.
    repeat match goal with |- context [if ?b then _ else _] => destruct b end;
      lia. }
  assert (E0 : forallb DelSep.c_int [y; m; d; h; mi] = true).
  { cbn [forallb]. unfold DelSep.c_int.
    repeat (apply andb_true_iff; split); rewrite ?Z.leb_le, ?Z.ltb_lt;
      try reflexivity; lia. }
  assert (E1 : (1 <=? y) && (y <=? 9999) = true)
    by (apply andb_true_iff; rewrite !Z.leb_le; lia).
  assert (E2 : (1 <=? m) && (m <=? 12) = true)
    by (apply andb_true_iff; rewrite !Z.leb_le; lia).
  assert (E3 : (1 <=? d) && (d <=? DelSep.days_in_month y m) = true)
    by (apply andb_true_iff; rewrite !Z.leb_le; lia).
  assert (E4 : (0 <=? h) && (h <=? 23) = true)
    by (apply andb_true_iff; rewrite !Z.leb_le; lia).
  assert (E5 : (0 <=? mi) && (mi <=? 59) = true)
    by (apply andb_true_iff; rewrite !Z.leb_le; lia).
  rewrite E0, E1, E2, E3, E4, E5. reflexivity.
Qed.

Lemma datetime_of_invalid (y m d h mi : Z) :
  encodable (y, m, d, h, mi) -> ~ valid (y, m, d, h, mi) ->
  exists e, DelSep.datetime_of y m d h mi = DelSep.Err e.
Proof.
  cbn [encodable valid]. intros He Hv. unfold DelSep.datetime_of.
  destruct (forallb DelSep.c_int [y; m; d; h; mi]); cbn [negb]; [|eauto].
  destruct ((1 <=? y) && (y <=? 9999)) eqn:E1; cbn [negb]; [|eauto].
  destruct ((1 <=? m) && (m <=? 12)) eqn:E2; cbn [negb]; [|eauto].
  destruct ((1 <=? d) && (d <=? DelSep.days_in_month y m)) eqn:E3;
    cbn [negb]; [|eauto].
  destruct ((0 <=? h) && (h <=? 23)) eqn:E4; cbn [negb]; [|eauto].
  destruct ((0 <=? mi) && (mi <=? 59)) eqn:E5; cbn [negb]; [|eauto].
  exfalso. apply Hv.
  apply andb_true_iff in E2, E3, E4, E5. rewrite !Z.leb_le in *. lia.
Qed.

(** What the constructor raises: OverflowError only for a field that a C
    int does not hold. *)
Lemma datetime_of_error (y m d h mi : Z) (e : DelSep.error) :
  DelSep.datetime_of y m d h mi = DelSep.Err e ->
  (e = DelSep.OverflowError \/ exists msg, e = DelSep.ValueError msg) /\
  (c_ints (y, m, d, h, mi) -> exists msg, e = DelSep.ValueError msg).
Proof.
  unfold DelSep.datetime_of, c_ints.
  destruct (forallb DelSep.c_int [y; m; d; h; mi]); cbn [negb].
  - repeat match goal with
           | |- context [if ?b then _ else _] => destruct b
           end; intros H; inversion H; eauto.
  - intros H. inversion H. split; [auto|discriminate].
Qed.

(** X18.  [gen_index] reads back the dates and times that the columns Date
    and HrMn hold as the numbers yyyymmdd and hhmm: for dates of the
    calendar with a year of four digits and times of the day, the two
    columns are removed, the other columns are kept, and the index is
    the timestamp of each row, in order. *)
Theorem gen_index_decodes (rows : list DelSep.fields)
        (others : list (string * list cell)) (idx : list DelSep.label) :
  Forall encodable rows -> Forall valid rows ->
  other_columns others ->
  length idx = length rows ->
  DelSep.gen_index "yyyymmdd_hhmm" [] (dated_frame rows others idx) =
    (DelSep.Ok tt,
     DelSep.mkFrame others (map (fun f => DelSep.Stamp (stamp_of f)) rows)).
Proof.
  intros Henc Hval Hoth Hlen.
  assert (Hhour : Forall hour_bounded rows).
  { rewrite List.Forall_forall in *. intros [[[[y m] d] h] mi] Hin.
    specialize (Hval _ Hin). cbn [valid hour_bounded] in *. lia. }
  rewrite (gen_index_dated rows others idx Henc Hhour Hoth Hlen).
  rewrite (for_each_ok _ stamp_of).
  - rewrite List.map_map. reflexivity.
  - rewrite List.Forall_forall in Henc, Hval.
    intros [[[[y m] d] h] mi] Hin. apply datetime_of_valid; auto.
Qed.

Lemma gen_index_decodes_witness :
  DelSep.gen_index "yyyymmdd_hhmm" []
    (dated_frame [(2001, 3, 1, 12, 30); (2004, 2, 29, 0, 0)]
                 [("Hs"%string, [Num (Fin 1); Num (Fin 2)])]
                 [DelSep.Position 0; DelSep.Position 1]) =
    (DelSep.Ok tt,
     DelSep.mkFrame [("Hs"%string, [Num (Fin 1); Num (Fin 2)])]
       (map (fun f => DelSep.Stamp (stamp_of f))
            [(2001, 3, 1, 12, 30); (2004, 2, 29, 0, 0)])).
Proof.
  apply gen_index_decodes.
  - repeat (apply List.Forall_cons; [cbn [encodable]; lia|]).
    apply List.Forall_nil.
  - repeat (apply List.Forall_cons;
            [cbn [valid]; vm_compute; intuition discriminate|]).
    apply List.Forall_nil.
  - intros c [<-|[]]. split; discriminate.
  - reflexivity.
Defined.

(** X19.  When a row of such a frame (with hours below 2^45) holds
    numbers that are no date of the calendar or no time of the day,
    [gen_index] raises, and the columns Date and HrMn are already deleted
    while the index is the old one.  The exception is that of the first
    row that [datetime.datetime] refuses: ValueError, or OverflowError
    for an hour that a C int does not hold; when a C int holds every
    field it is ValueError. *)
Theorem gen_index_invalid_row (rows : list DelSep.fields)
        (others : list (string * list cell)) (idx : list DelSep.label)
        (f : DelSep.fields) :
  Forall encodable rows -> Forall hour_bounded rows ->
  other_columns others ->
  length idx = length rows ->
  In f rows -> ~ valid f ->
  exists e,
    DelSep.gen_index "yyyymmdd_hhmm" [] (dated_frame rows others idx) =
      (DelSep.Err e, DelSep.mkFrame others idx) /\
    (e = DelSep.OverflowError \/ exists msg, e = DelSep.ValueError msg) /\
    (Forall c_ints rows -> exists msg, e = DelSep.ValueError msg).
Proof.
  intros Henc Hhour Hoth Hlen Hin Hinv.
  rewrite (gen_index_dated rows others idx Henc Hhour Hoth Hlen).
  rewrite List.Forall_forall in Henc.
  destruct (for_each_raises
              (fun f : DelSep.fields =>
                 let '(y, m, d, h, mi) := f in DelSep.datetime_of y m d h mi)
              (fun e =>
                 (e = DelSep.OverflowError \/
                  exists msg, e = DelSep.ValueError msg) /\
                 (Forall c_ints rows -> exists msg, e = DelSep.ValueError msg))
              rows)
    as (e & He & H1 & H2).
  - intros [[[[y m] d] h] mi] e Hx Hraise.
    destruct (datetime_of_error y m d h mi e Hraise) as [G1 G2].
    split; [exact G1|]. intros Hall. apply G2.
    rewrite List.Forall_forall in Hall. exact (Hall _ Hx).
  - destruct f as [[[[y m] d] h] mi].
    destruct (datetime_of_invalid y m d h mi (Henc _ Hin) Hinv) as [e Hm].
    exists (y, m, d, h, mi), e. split; assumption.
  - rewrite He. exists e. split; [reflexivity|]. split; assumption.
Qed.

Lemma gen_index_invalid_row_witness :
  exists e,
    DelSep.gen_index "yyyymmdd_hhmm" []
      (dated_frame [(2001, 3, 1, 12, 30); (2001, 4, 31, 24, 0)]
                   [("Hs"%string, [Num (Fin 1); Num (Fin 2)])]
                   [DelSep.Position 0; DelSep.Position 1]) =
      (DelSep.Err e,
       DelSep.mkFrame [("Hs"%string, [Num (Fin 1); Num (Fin 2)])]
                      [DelSep.Position 0; DelSep.Position 1]) /\
    (e = DelSep.OverflowError \/ exists msg, e = DelSep.ValueError msg).
Proof.
  destruct (gen_index_invalid_row
              [(2001, 3, 1, 12, 30); (2001, 4, 31, 24, 0)]
              [("Hs"%string, [Num (Fin 1); Num (Fin 2)])]
              [DelSep.Position 0; DelSep.Position 1]
              (2001, 4, 31, 24, 0)) as (e & H1 & H2 & _).
  - repeat (apply List.Forall_cons; [cbn [encodable]; lia|]).
    apply List.Forall_nil.
  - repeat (apply List.Forall_cons; [cbn [hour_bounded]; lia|]).
    apply List.Forall_nil.
  - intros c [<-|[]]. split; discriminate.
  - reflexivity.
  - right. left. reflexivity.
  - cbn [valid]. vm_compute. intros (_ & [_ H] & _). apply H. reflexivity.
  - exists e. split; assumption.
Defined.

(** An hour beyond a C int: the constructor raises OverflowError, the
    two columns being deleted already. *)
Lemma gen_index_hour_overflows :
  DelSep.gen_index "yyyymmdd_hhmm" []
    (dated_frame [(2001, 3, 1, 2 ^ 31, 0)] [] [DelSep.Position 0]) =
    (DelSep.Err DelSep.OverflowError,
     DelSep.mkFrame [] [DelSep.Position 0]).
Proof. vm_compute. reflexivity. Qed.

(** X20.  When a cell of the column Date is missing or holds a text,
    [gen_index] raises ValueError and the frame is untouched. *)
Theorem gen_index_missing_date (df : DelSep.DataFrame) (cells : list cell)
        (c : cell) :
  DelSep.values (PStr "Date") df = DelSep.Ok cells ->
  In c cells ->
  (c = Num NaN \/ exists s, c = Obj s) ->
  exists msg,
    DelSep.gen_index "yyyymmdd_hhmm" [] df =
      (DelSep.Err (DelSep.ValueError msg), df).
Proof.
  intros Hv Hin Hc. unfold DelSep.gen_index.
  cbn [String.eqb Ascii.eqb Bool.eqb pop lookup_kw remove_kw List.filter
       default].
  unfold DelSep.read_fields. rewrite Hv. cbn [DelSep.and_then].
  destruct (for_each_raises
              (fun i => DelSep.and_then (DelSep.int_of_cell i)
                          (fun n => DelSep.Ok (DelSep.str n)))
              (fun e => exists msg, e = DelSep.ValueError msg) cells)
    as (e & He & msg & ->).
  - intros x e _. destruct x as [[q|]|s]; cbn; intros H; inversion H; eauto.
  - exists c. destruct Hc as [->|[s ->]]; eexists; split; try exact Hin;
      reflexivity.
  - rewrite He. cbn [DelSep.and_then]. exists msg. reflexivity.
Qed.

Lemma gen_index_missing_date_witness :
  exists msg,
    DelSep.gen_index "yyyymmdd_hhmm" []
      (DelSep.mkFrame [("Date"%string, [number_cell 20010301; Num NaN]);
                       ("HrMn"%string, [number_cell 1230; number_cell 0])]
                      [DelSep.Position 0; DelSep.Position 1]) =
      (DelSep.Err (DelSep.ValueError msg),
       DelSep.mkFrame [("Date"%string, [number_cell 20010301; Num NaN]);
                       ("HrMn"%string, [number_cell 1230; number_cell 0])]
                      [DelSep.Position 0; DelSep.Position 1]).
Proof.
  apply (gen_index_missing_date _ [number_cell 20010301; Num NaN] (Num NaN)).
  - reflexivity.
  - right. left. reflexivity.
  - left. reflexivity.
Defined.

(** ** The lines of a delimiter separated file *)

Lemma string_app_cons (a : ascii) (p s : string) :
  (String a p ++ s)%string = String a (p ++ s)%string.
Proof. reflexivity. Qed.

Lemma string_app_empty (p : string) : (p ++ EmptyString)%string = p.
Proof.
  induction p as [|b p IH]; [reflexivity|].
  rewrite string_app_cons. f_equal. exact IH.
Qed.

Lemma split_from_field (c : ascii) (f : string) :
  free_of c f ->
  forall piece s,
    DelSep.split_from (String c EmptyString) 0 piece (f ++ String c s) =
      (piece ++ f)%string :: DelSep.split_from (String c EmptyString) 0 EmptyString s.
Proof.
  induction f as [|a f IH]; intros Hf piece s.
  - change (EmptyString ++ String c s)%string with (String c s).
    cbn [DelSep.split_from String.prefix].
    destruct (ascii_dec c c) as [_|n]; [|congruence].
    destruct s; cbn [String.prefix String.length Nat.sub];
      rewrite string_app_empty; reflexivity.
  - rewrite string_app_cons.
    cbn [DelSep.split_from String.prefix].
    destruct (ascii_dec c a) as [->|n].
    + exfalso. apply Hf. left. reflexivity.
    + rewrite IH.
      * rewrite string_app_assoc. reflexivity.
      * intros H. apply Hf. right. exact H.
Qed.

Lemma split_from_rest (c : ascii) (s : string) :
  free_of c s ->
  forall piece,
    DelSep.split_from (String c EmptyString) 0 piece s = [(piece ++ s)%string].
Proof.
  induction s as [|a s IH]; intros Hs piece.
  - cbn [DelSep.split_from]. rewrite string_app_empty. reflexivity.
  - cbn [DelSep.split_from String.prefix].
    destruct (ascii_dec c a) as [->|n].
    + exfalso. apply Hs. left. reflexivity.
    + rewrite IH.
      * rewrite string_app_assoc. reflexivity.
      * intros H. apply Hs. right. exact H.
Qed.

Lemma split_line (c : ascii) (fields : list string) (rest : string) :
  List.Forall (free_of c) fields -> free_of c rest ->
  DelSep.split (String c EmptyString) (line_of c fields rest) = fields ++ [rest].
Proof.
  intros Hf Hr. unfold DelSep.split.
  induction Hf as [|f fields Hf _ IH]; cbn [line_of fold_right app].
  - rewrite split_from_rest by exact Hr. reflexivity.
  - rewrite split_from_field by exact Hf.
    change (EmptyString ++ f)%string with f.
    f_equal. exact IH.
Qed.

Lemma removelast_snoc {A} (l : list A) (x : A) : removelast (l ++ [x]) = l.
Proof. apply removelast_last. Qed.

(** X21.  The rows that [__init__] reads, for a delimiter of one character
    and a label delimiter that is a space or a comma: a line whose fields
    are each followed by the delimiter gives a row of exactly those
    fields, each parsed on its own, and what follows the last delimiter of
    the line is dropped. *)
Theorem read_table_rows (float : string -> option float64) (c : ascii)
        (junk : list string) (header : string)
        (rows : list (list string * string)) (label_delimeter : string) :
  label_delimeter = " "%string \/ label_delimeter = ","%string ->
  List.Forall (plain_row c) rows ->
  exists labels,
    DelSep.read_table float
      (junk ++ header :: map (fun row => line_of c (fst row) (snd row)) rows)
      (String c EmptyString) label_delimeter (Z.of_nat (length junk)) =
    DelSep.Ok (labels,
               map (fun row => map (DelSep.parse_cell float) (fst row)) rows).
Proof.
  intros Hld Hrows. unfold DelSep.read_table.
  set (lines := junk ++ _).
  assert (Hdata :
            (if 0 <? Z.of_nat (length junk)
             then skipn (Z.to_nat (Z.of_nat (length junk)))
                        (map (DelSep.split (String c EmptyString)) lines)
             else map (DelSep.split (String c EmptyString)) lines) =
            DelSep.split (String c EmptyString) header ::
              map (fun row => fst row ++ [snd row]) rows).
  { assert (Hmap : map (DelSep.split (String c EmptyString))
                       (map (fun row => line_of c (fst row) (snd row)) rows) =
                   map (fun row => fst row ++ [snd row]) rows).
    { rewrite map_map. apply map_ext_in. intros row Hrow.
      rewrite List.Forall_forall in Hrows. destruct (Hrows row Hrow) as [H1 H2].
      apply split_line; assumption. }
    subst lines. rewrite map_app. cbn [map]. rewrite Hmap.
    destruct junk as [|j junk].
    - reflexivity.
    - replace (0 <? Z.of_nat (length (j :: junk))) with true
        by (symmetry; apply Z.ltb_lt; cbn [length]; lia).
      rewrite Nat2Z.id.
      rewrite <- (length_map (DelSep.split (String c EmptyString)) (j :: junk)).
      rewrite skipn_app, skipn_all, Nat.sub_diag. reflexivity. }
  assert (Hlines : exists l0 ls, lines = l0 :: ls).
  { subst lines. destruct junk; cbn; eauto. }
  destruct Hlines as (l0 & ls & ->).
  rewrite Hdata. cbv zeta.
  assert (Hr : map (fun row => map (DelSep.parse_cell float) (removelast row))
                   (map (fun row : list string * string => fst row ++ [snd row])
                        rows) =
               map (fun row => map (DelSep.parse_cell float) (fst row)) rows).
  { rewrite map_map. apply map_ext. intros row.
    rewrite removelast_snoc. reflexivity. }
  rewrite Hr.
  destruct Hld as [-> | ->]; cbn [String.eqb Ascii.eqb Bool.eqb]; eauto.
Qed.

Lemma read_table_rows_witness :
  exists labels,
    DelSep.read_table text_float
      ["station 7"; "Date,HrMn,Hs,end"; "20010301,1230,4,x"; "20010302, 45,,"]%string
      "," "," 1 =
    DelSep.Ok (labels, [[Num (Fin 20010301); Num (Fin 1230); Num (Fin 4)];
                        [Num (Fin 20010302); Num (Fin 45); Num NaN]]).
Proof.
  assert (Hr : List.Forall (plain_row ",")
                 [(["20010301"; "1230"; "4"], "x");
                  (["20010302"; " 45"; EmptyString], EmptyString)]%string).
  { repeat (apply List.Forall_cons; [split; [repeat (apply List.Forall_cons; [vm_compute; intuition discriminate|]); apply List.Forall_nil | vm_compute; intuition discriminate]|]).
    apply List.Forall_nil. }
  destruct (read_table_rows text_float "," ["station 7"%string]
              "Date,HrMn,Hs,end"%string _ ","%string (or_intror eq_refl) Hr)
    as [labels H].
  exists labels. exact H.
Defined.

(** X22.  What [__init__] raises before the frame is built: IndexError
    when no line is left for the labels after the void rows, and
    UnboundLocalError when the label delimiter is neither a space nor a
    comma (with a line for the labels present). *)
Theorem read_table_errors (float : string -> option float64)
        (lines : list string) (delimeter label_delimeter : string)
        (void_rows : Z) :
  delimeter <> EmptyString ->
  (Z.of_nat (length lines) <= Z.max 0 void_rows ->
   DelSep.read_table float lines delimeter label_delimeter void_rows =
     DelSep.Err DelSep.IndexError) /\
  (Z.max 0 void_rows < Z.of_nat (length lines) ->
   label_delimeter <> " "%string -> label_delimeter <> ","%string ->
   DelSep.read_table float lines delimeter label_delimeter void_rows =
     DelSep.Err (DelSep.UnboundLocalError "labels")).
Proof.
  intros Hd. unfold DelSep.read_table.
  set (data := map (DelSep.split delimeter) lines).
  assert (Hlen : length data = length lines) by apply length_map.
  assert (Hm : match lines, delimeter with
               | _ :: _, EmptyString => true
               | _, _ => false
               end = false).
  { destruct lines, delimeter; congruence. }
  split.
  - intros Hle.
    assert (E : (if 0 <? void_rows then skipn (Z.to_nat void_rows) data
                 else data) = []).
    { destruct (0 <? void_rows) eqn:Ev.
      - apply skipn_all2. apply Z.ltb_lt in Ev. lia.
      - apply Z.ltb_ge in Ev. destruct data; [reflexivity|cbn in Hlen; lia]. }
    destruct lines as [|l0 ls]; [|destruct delimeter; [congruence|]];
      cbv zeta; fold data; rewrite E; reflexivity.
  - intros Hlt H1 H2.
    apply String.eqb_neq in H1, H2.
    assert (E : exists first rest,
               (if 0 <? void_rows then skipn (Z.to_nat void_rows) data
                else data) = first :: rest).
    { destruct (0 <? void_rows) eqn:Ev.
      - apply Z.ltb_lt in Ev.
        destruct (skipn (Z.to_nat void_rows) data) eqn:Es; [|eauto].
        apply (f_equal (@length _)) in Es. rewrite length_skipn in Es.
        cbn in Es. lia.
      - destruct data; [cbn in Hlen; lia|eauto]. }
    destruct E as (first & rest & E).
    destruct lines as [|l0 ls]; [|destruct delimeter; [congruence|]];
      cbv zeta; fold data; rewrite E, H1, H2; reflexivity.
Qed.

Lemma read_table_errors_witness :
  DelSep.read_table text_float ["Date;HrMn;Hs;"; "20010301;1230;4;"]%string
    ";" ";" 0 = DelSep.Err (DelSep.UnboundLocalError "labels").
Proof.
  apply (read_table_errors text_float
           ["Date;HrMn;Hs;"; "20010301;1230;4;"]%string ";" ";" 0).
  - discriminate.
  - cbn. lia.
  - discriminate.
  - discriminate.
Defined.
